(** * AQIwebhook: air-quality polling, missing-value detection and webhook alerts

    A shallow embedding of [main.go] and a proof of the properties its
    specification states about it.

    Go values are rendered as follows.
    - A Go [string] is an immutable byte sequence: [list ascii], one [ascii]
      per byte.  Literals are written [str "..."]; the source file is UTF-8,
      so [str "—"] is the three bytes E2 80 94.
    - [int], [rune] and byte values are [Z]; no operation of the program
      leaves the range of its Go type, so no wrap-around is written out
      except where noted.
    - [map[string]T] is [gmap (list ascii) T]; the iteration order of a
      [range] over a map is not fixed by the language and is an explicit
      argument.
    - The packages [unicode/utf8], [strings], [encoding/json], [time] and
      [net/url] are modelled far enough for the calls the program makes.
    - A run-time panic ends the process: a function that can panic returns
      [Panicked] in place of its result, and nothing after it runs. *)

From Stdlib Require Import ZArith List String Ascii Lia Bool.
From stdpp Require Import gmap strings.

Set Warnings "-register-all".

Local Open Scope Z_scope.

Abbreviation bytes := (list ascii).

(** [str "lit"] is the Go string literal ["lit"]. *)
Definition str (s : string) : bytes := list_ascii_of_string s.

(** Numeric value of a byte, [0 <= code c < 256]. *)
Definition code (c : ascii) : Z := Z.of_N (N_of_ascii c).

(** [byte_of z] is the byte with value [z mod 256]. *)
Definition byte_of (z : Z) : ascii := ascii_of_N (Z.to_N (z mod 256)).

(** [s[i]] for an index known to be in range; [0] stands for the run-time
    panic, which no call below reaches. *)
Definition byteAt (s : bytes) (i : nat) : Z := code (nth i s zero).

(** [a == b] on strings. *)
Fixpoint eqb_bytes (a b : bytes) : bool :=
  match a, b with
  | [], [] => true
  | x :: a', y :: b' => Ascii.eqb x y && eqb_bytes a' b'
  | _, _ => false
  end.

(** ** Package unicode/utf8 *)

Module utf8.

Definition RuneError : Z := 0xFFFD.
Definition RuneSelf : Z := 0x80.
Definition MaxRune : Z := 0x10FFFF.
Definition UTFMax : nat := 4.

Definition surrogateMin : Z := 0xD800.
Definition surrogateMax : Z := 0xDFFF.

Definition maskx : Z := 0x3F.
Definition mask2 : Z := 0x1F.
Definition mask3 : Z := 0x0F.
Definition mask4 : Z := 0x07.

Definition locb : Z := 0x80.
Definition hicb : Z := 0xBF.

(** Entries of the table [first]: [xx] invalid, [as_] ASCII, [s1]..[s7]
    size in the low three bits and accept-range index in the high four. *)
Definition xx : Z := 0xF1.
Definition as_ : Z := 0xF0.
Definition s1 : Z := 0x02.
Definition s2 : Z := 0x13.
Definition s3 : Z := 0x03.
Definition s4 : Z := 0x23.
Definition s5 : Z := 0x34.
Definition s6 : Z := 0x04.
Definition s7 : Z := 0x44.

(** The 256-entry table [first], by ranges of the index. *)
Definition first (b : Z) : Z :=
  if b <? 0x80 then as_
  else if b <? 0xC2 then xx
  else if b <? 0xE0 then s1
  else if b =? 0xE0 then s2
  else if b <? 0xED then s3
  else if b =? 0xED then s4
  else if b <? 0xF0 then s3
  else if b =? 0xF0 then s5
  else if b <? 0xF4 then s6
  else if b =? 0xF4 then s7
  else xx.

(** [acceptRanges[i]] as a pair [(lo, hi)]. *)
Definition acceptRanges (i : Z) : Z * Z :=
  if i =? 0 then (locb, hicb)
  else if i =? 1 then (0xA0, hicb)
  else if i =? 2 then (locb, 0x9F)
  else if i =? 3 then (0x90, hicb)
  else if i =? 4 then (locb, 0x8F)
  else (0, 0).

(** Body of [DecodeRuneInString] for a string of length [n >= 1] whose
    first four bytes are [p0 p1 p2 p3] (bytes past the end are never
    inspected: the test [n < sz] comes first). *)
Definition decodeAt (n : nat) (p0 p1 p2 p3 : Z) : Z * nat :=
  let x := first p0 in
  if as_ <=? x then
    (* mask := rune(x) << 31 >> 31 is all ones exactly for x = xx *)
    ((if x =? xx then RuneError else p0), 1%nat)
  else
    let sz := Z.to_nat (Z.land x 7) in
    let accept := acceptRanges (Z.shiftr x 4) in
    if (n <? sz)%nat then (RuneError, 1%nat)
    else if (p1 <? fst accept) || (snd accept <? p1) then (RuneError, 1%nat)
    else if (sz <=? 2)%nat then
      (Z.lor (Z.shiftl (Z.land p0 mask2) 6) (Z.land p1 maskx), 2%nat)
    else if (p2 <? locb) || (hicb <? p2) then (RuneError, 1%nat)
    else if (sz <=? 3)%nat then
      (Z.lor (Z.lor (Z.shiftl (Z.land p0 mask3) 12)
                    (Z.shiftl (Z.land p1 maskx) 6))
             (Z.land p2 maskx), 3%nat)
    else if (p3 <? locb) || (hicb <? p3) then (RuneError, 1%nat)
    else
      (Z.lor (Z.lor (Z.lor (Z.shiftl (Z.land p0 mask4) 18)
                           (Z.shiftl (Z.land p1 maskx) 12))
                    (Z.shiftl (Z.land p2 maskx) 6))
             (Z.land p3 maskx), 4%nat).

Definition DecodeRuneInString (s : bytes) : Z * nat :=
  match s with
  | [] => (RuneError, 0%nat)
  | _ :: _ =>
      decodeAt (length s) (byteAt s 0) (byteAt s 1) (byteAt s 2) (byteAt s 3)
  end.

Definition RuneStart (b : Z) : bool := negb (Z.land b 0xC0 =? 0x80).

(** The backward scan of [DecodeLastRuneInString]:
    [for start--; start >= lim; start-- { if RuneStart(s[start]) { break } }],
    entered with [start] already decremented.  [start] ranges over
    [lim .. end-2] with [lim >= end-UTFMax], so [UTFMax] rounds suffice. *)
Fixpoint lastStart (rounds : nat) (s : bytes) (start lim : Z) : Z :=
  match rounds with
  | O => start
  | S k =>
      if start <? lim then start
      else if RuneStart (byteAt s (Z.to_nat start)) then start
      else lastStart k s (start - 1) lim
  end.

Definition DecodeLastRuneInString (s : bytes) : Z * nat :=
  let end_ := Z.of_nat (length s) in
  if end_ =? 0 then (RuneError, 0%nat)
  else
    let start := end_ - 1 in
    let r := byteAt s (Z.to_nat start) in
    if r <? RuneSelf then (r, 1%nat)
    else
      let lim := Z.max (end_ - Z.of_nat UTFMax) 0 in
      let start := lastStart UTFMax s (start - 1) lim in
      let start := if start <? 0 then 0 else start in
      let '(r, size) := DecodeRuneInString (drop (Z.to_nat start) s) in
      if negb (start + Z.of_nat size =? end_) then (RuneError, 1%nat)
      else (r, size).

(** [AppendRune(nil, r)]: the UTF-8 encoding of [r]; surrogates and
    out-of-range values are encoded as [RuneError]. *)
Definition EncodeRune (r : Z) : bytes :=
  if (0 <=? r) && (r <=? 0x7F) then [byte_of r]
  else if (0 <=? r) && (r <=? 0x7FF) then
    [byte_of (Z.lor 0xC0 (Z.shiftr r 6));
     byte_of (Z.lor 0x80 (Z.land r maskx))]
  else if (r <? 0) || (MaxRune <? r)
          || ((surrogateMin <=? r) && (r <=? surrogateMax)) then
    [byte_of 0xEF; byte_of 0xBF; byte_of 0xBD]
  else if r <=? 0xFFFF then
    [byte_of (Z.lor 0xE0 (Z.shiftr r 12));
     byte_of (Z.lor 0x80 (Z.land (Z.shiftr r 6) maskx));
     byte_of (Z.lor 0x80 (Z.land r maskx))]
  else
    [byte_of (Z.lor 0xF0 (Z.shiftr r 18));
     byte_of (Z.lor 0x80 (Z.land (Z.shiftr r 12) maskx));
     byte_of (Z.lor 0x80 (Z.land (Z.shiftr r 6) maskx));
     byte_of (Z.lor 0x80 (Z.land r maskx))].

(** The runes a [for _, r := range s] loop visits.  Every round consumes
    at least one byte, so [length s] rounds reach the end of [s]. *)
Fixpoint runes_loop (rounds : nat) (s : bytes) : list Z :=
  match rounds with
  | O => []
  | S k =>
      match s with
      | [] => []
      | _ :: _ =>
          let '(r, w) := DecodeRuneInString s in
          r :: runes_loop k (drop w s)
      end
  end.

Definition runes (s : bytes) : list Z := runes_loop (length s) s.

End utf8.

(** ** Package unicode *)

Module unicode.

(** [unicode.IsSpace]: the Latin-1 switch, then the [White_Space] range
    table past Latin-1. *)
Definition IsSpace (r : Z) : bool :=
  if (0 <=? r) && (r <=? 0xFF) then
    (r =? 0x09) || (r =? 0x0A) || (r =? 0x0B) || (r =? 0x0C) || (r =? 0x0D)
    || (r =? 0x20) || (r =? 0x85) || (r =? 0xA0)
  else
    (r =? 0x1680)
    || ((0x2000 <=? r) && (r <=? 0x200A))
    || ((0x2028 <=? r) && (r <=? 0x2029))
    || (r =? 0x202F) || (r =? 0x205F) || (r =? 0x3000).

End unicode.

(** ** Package strings *)

Module strings.

(** The table [asciiSpace]. *)
Definition asciiSpace (c : Z) : bool :=
  (c =? 0x09) || (c =? 0x0A) || (c =? 0x0B) || (c =? 0x0C) || (c =? 0x0D)
  || (c =? 0x20).

Fixpoint HasPrefix (s prefix : bytes) : bool :=
  match prefix, s with
  | [], _ => true
  | p :: prefix', c :: s' => Ascii.eqb c p && HasPrefix s' prefix'
  | _ :: _, [] => false
  end.

(** [Contains(s, substr)], that is [Index(s, substr) >= 0]: [substr]
    starts at some offset of [s]. *)
Fixpoint Contains (s substr : bytes) : bool :=
  HasPrefix s substr
  || match s with
     | [] => false
     | _ :: s' => Contains s' substr
     end.

(** [indexFunc(s, f, truth)]:
    [for i, r := range s { if f(r) == truth { return i } }; return -1].
    [rest] is [s[i:]]; every round consumes at least one byte. *)
Fixpoint indexFunc_loop (rounds : nat) (rest : bytes) (i : Z)
    (f : Z -> bool) (truth : bool) : Z :=
  match rounds with
  | O => -1
  | S k =>
      match rest with
      | [] => -1
      | _ :: _ =>
          let '(r, w) := utf8.DecodeRuneInString rest in
          if Bool.eqb (f r) truth then i
          else indexFunc_loop k (drop w rest) (i + Z.of_nat w) f truth
      end
  end.

Definition indexFunc (s : bytes) (f : Z -> bool) (truth : bool) : Z :=
  indexFunc_loop (length s) s 0 f truth.

(** [lastIndexFunc(s, f, truth)]:
    [for i := len(s); i > 0; { r, size := DecodeLastRuneInString(s[0:i]);
    i -= size; if f(r) == truth { return i } }; return -1].
    [pre] is [s[0:i]]. *)
Fixpoint lastIndexFunc_loop (rounds : nat) (pre : bytes)
    (f : Z -> bool) (truth : bool) : Z :=
  match rounds with
  | O => -1
  | S k =>
      match pre with
      | [] => -1
      | _ :: _ =>
          let '(r, size) := utf8.DecodeLastRuneInString pre in
          let pre' := take (length pre - size) pre in
          if Bool.eqb (f r) truth then Z.of_nat (length pre')
          else lastIndexFunc_loop k pre' f truth
      end
  end.

Definition lastIndexFunc (s : bytes) (f : Z -> bool) (truth : bool) : Z :=
  lastIndexFunc_loop (length s) s f truth.

Definition TrimLeftFunc (s : bytes) (f : Z -> bool) : bytes :=
  let i := indexFunc s f false in
  if i =? -1 then [] else drop (Z.to_nat i) s.

Definition TrimRightFunc (s : bytes) (f : Z -> bool) : bytes :=
  let i := lastIndexFunc s f false in
  let i :=
    if (0 <=? i) && (utf8.RuneSelf <=? byteAt s (Z.to_nat i)) then
      let '(_, wid) := utf8.DecodeRuneInString (drop (Z.to_nat i) s) in
      i + Z.of_nat wid
    else i + 1 in
  take (Z.to_nat i) s.

Definition TrimFunc (s : bytes) (f : Z -> bool) : bytes :=
  TrimRightFunc (TrimLeftFunc s f) f.

(** Second loop of [TrimSpace], on [s[start:]] reversed: [stop] moves
    left over ASCII spaces; a non-ASCII byte hands [s[start:stop]] to
    [TrimRightFunc]. *)
Fixpoint TrimSpace_stop (rev_s : bytes) : bytes :=
  match rev_s with
  | [] => []
  | c :: rev_s' =>
      if utf8.RuneSelf <=? code c then
        TrimRightFunc (rev rev_s) unicode.IsSpace
      else if asciiSpace (code c) then TrimSpace_stop rev_s'
      else rev rev_s
  end.

(** [TrimSpace]: first loop, [start] moves right over ASCII spaces; a
    non-ASCII byte hands [s[start:]] to [TrimFunc]. *)
Fixpoint TrimSpace (s : bytes) : bytes :=
  match s with
  | [] => []
  | c :: s' =>
      if utf8.RuneSelf <=? code c then TrimFunc s unicode.IsSpace
      else if asciiSpace (code c) then TrimSpace s'
      else TrimSpace_stop (rev s)
  end.

(** [Join(elems, sep)]. *)
Fixpoint Join (elems : list bytes) (sep : bytes) : bytes :=
  match elems with
  | [] => []
  | [e] => e
  | e :: elems' => e ++ sep ++ Join elems' sep
  end.

Section CaseTable.

(** [unicode.ToLower] on one rune: the simple lower-case mapping of the
    Unicode tables the toolchain ships.  The tables are data of the Go
    distribution, not of this program. *)
Variable unicode_ToLower : Z -> Z.

(** [Map(mapping, s)]: every rune of [s] (an invalid byte reads as
    [RuneError]) is replaced by the encoding of its image; a negative
    image is dropped. *)
Definition Map (mapping : Z -> Z) (s : bytes) : bytes :=
  flat_map (fun r => let m := mapping r in
                     if m <? 0 then [] else utf8.EncodeRune m)
           (utf8.runes s).

Definition lowerASCII (c : ascii) : ascii :=
  let z := code c in
  if (0x41 <=? z) && (z <=? 0x5A) then byte_of (z + 0x20) else c.

Definition ToLower (s : bytes) : bytes :=
  let isASCII := forallb (fun c => code c <? utf8.RuneSelf) s in
  let hasUpper :=
    existsb (fun c => (0x41 <=? code c) && (code c <=? 0x5A)) s in
  if isASCII then
    if negb hasUpper then s else map lowerASCII s
  else Map unicode_ToLower s.

End CaseTable.

End strings.


(** ** Package unicode/utf16 (the two functions encoding/json calls) *)

Module utf16.

Definition surr1 : Z := 0xD800.
Definition surr2 : Z := 0xDC00.
Definition surr3 : Z := 0xE000.
Definition surrSelf : Z := 0x10000.
Definition ReplacementChar : Z := 0xFFFD.

Definition IsSurrogate (r : Z) : bool := (surr1 <=? r) && (r <? surr3).

Definition DecodeRune (r1 r2 : Z) : Z :=
  if (surr1 <=? r1) && (r1 <? surr2) && (surr2 <=? r2) && (r2 <? surr3) then
    Z.lor (Z.shiftl (r1 - surr1) 10) (r2 - surr2) + surrSelf
  else ReplacementChar.

End utf16.

(** ** Package encoding/json: documents *)

Module json.

(** A JSON document.  A number keeps its literal; a string and an object
    key are kept unquoted, as the decoder hands them on. *)
Inductive Value : Type :=
| Null
| Bool (b : bool)
| Number (lit : bytes)
| String (s : bytes)
| Array (elems : list Value)
| Object (members : list (bytes * Value)).

(** Outcome of reading a document: [SyntaxErr] is the [*SyntaxError] of
    [checkValid]; [OutOfRounds] is the bound of the recursion below and is
    never the outcome of [parse] (lemma [parse_rounds]). *)
Inductive Parsed (A : Type) : Type :=
| Ok (a : A)
| SyntaxErr
| OutOfRounds.
Arguments Ok {A} a.
Arguments SyntaxErr {A}.
Arguments OutOfRounds {A}.

Definition maxNestingDepth : Z := 10000.

Definition isSpace (c : ascii) : bool :=
  (c =? " ")%char || (code c =? 0x09) || (code c =? 0x0D) || (code c =? 0x0A).

Fixpoint skipSpace (s : bytes) : bytes :=
  match s with
  | c :: s' => if isSpace c then skipSpace s' else s
  | [] => []
  end.

Definition isDigit (c : ascii) : bool := (0x30 <=? code c) && (code c <=? 0x39).

(** The longest prefix of digits, and the rest. *)
Fixpoint digits (s : bytes) : bytes * bytes :=
  match s with
  | c :: s' =>
      if isDigit c then let '(ds, rest) := digits s' in (c :: ds, rest)
      else ([], s)
  | [] => ([], [])
  end.

(** The scanner states [stateNeg] to [stateE0] for a number literal: an
    optional minus sign; a zero, or a non-zero digit and further digits;
    optionally a point and one or more digits; optionally an [e] or [E],
    an optional sign and one or more digits. *)
Definition scanNumber (s : bytes) : option (bytes * bytes) :=
  let '(sign, s1) :=
    match s with
    | c :: t => if (c =? "-")%char then ([c], t) else ([], s)
    | [] => ([], s)
    end in
  match s1 with
  | [] => None
  | c :: t =>
      let int_part :=
        if (c =? "0")%char then Some ([c], t)
        else if isDigit c then let '(ds, r) := digits t in Some (c :: ds, r)
        else None in
      match int_part with
      | None => None
      | Some (ip, s2) =>
          let frac_part :=
            match s2 with
            | d :: t2 =>
                if (d =? ".")%char then
                  let '(ds, r) := digits t2 in
                  match ds with [] => None | _ :: _ => Some (d :: ds, r) end
                else Some ([], s2)
            | [] => Some ([], s2)
            end in
          match frac_part with
          | None => None
          | Some (fp, s3) =>
              let exp_part :=
                match s3 with
                | e :: t3 =>
                    if (e =? "e")%char || (e =? "E")%char then
                      let '(sg, t4) :=
                        match t3 with
                        | g :: t4 =>
                            if (g =? "+")%char || (g =? "-")%char
                            then ([g], t4) else ([], t3)
                        | [] => ([], t3)
                        end in
                      let '(ds, r) := digits t4 in
                      match ds with
                      | [] => None
                      | _ :: _ => Some (e :: sg ++ ds, r)
                      end
                    else Some ([], s3)
                | [] => Some ([], s3)
                end in
              match exp_part with
              | None => None
              | Some (ep, s4) => Some (sign ++ ip ++ fp ++ ep, s4)
              end
          end
      end
  end.

Definition isHex (c : ascii) : bool :=
  isDigit c
  || ((0x61 <=? code c) && (code c <=? 0x66))
  || ((0x41 <=? code c) && (code c <=? 0x46)).

Definition isEscape (c : ascii) : bool :=
  (c =? "b")%char || (c =? "f")%char || (c =? "n")%char || (c =? "r")%char
  || (c =? "t")%char || (c =? "\")%char || (c =? "/")%char
  || (code c =? 0x22).

Definition consTo (pre : bytes) (r : option (bytes * bytes))
    : option (bytes * bytes) :=
  match r with
  | Some (content, rest) => Some (pre ++ content, rest)
  | None => None
  end.

(** The scanner states [stateInString] to [stateInStringEscU123], entered
    after the opening quote: the bytes up to the closing quote, still
    quoted, and what follows it. *)
Fixpoint scanString (s : bytes) : option (bytes * bytes) :=
  match s with
  | [] => None
  | c :: t =>
      if code c =? 0x22 then Some ([], t)
      else if (c =? "\")%char then
        match t with
        | e :: t' =>
            if isEscape e then consTo [c; e] (scanString t')
            else if (e =? "u")%char then
              match t' with
              | h1 :: h2 :: h3 :: h4 :: t'' =>
                  if isHex h1 && isHex h2 && isHex h3 && isHex h4
                  then consTo [c; e; h1; h2; h3; h4] (scanString t'')
                  else None
              | _ => None
              end
            else None
        | [] => None
        end
      else if code c <? 0x20 then None
      else consTo [c] (scanString t)
  end.

Definition hexVal (c : ascii) : Z :=
  let z := code c in
  if (0x30 <=? z) && (z <=? 0x39) then z - 0x30
  else if (0x61 <=? z) && (z <=? 0x66) then z - 0x61 + 10
  else if (0x41 <=? z) && (z <=? 0x46) then z - 0x41 + 10
  else -1.

(** [getu4]: the code unit of a leading [\uXXXX], or [-1]. *)
Definition getu4 (s : bytes) : Z :=
  match s with
  | b :: u :: h1 :: h2 :: h3 :: h4 :: _ =>
      if (b =? "\")%char && (u =? "u")%char
         && isHex h1 && isHex h2 && isHex h3 && isHex h4
      then ((hexVal h1 * 16 + hexVal h2) * 16 + hexVal h3) * 16 + hexVal h4
      else -1
  | _ => -1
  end.

Definition unescape (e : ascii) : ascii :=
  if (e =? "b")%char then byte_of 0x08
  else if (e =? "f")%char then byte_of 0x0C
  else if (e =? "n")%char then byte_of 0x0A
  else if (e =? "r")%char then byte_of 0x0D
  else if (e =? "t")%char then byte_of 0x09
  else e.

(** [unquote] on the bytes between the quotes of a scanned string:
    escapes are resolved, a surrogate pair becomes one rune, a lone
    surrogate and every ill-formed UTF-8 byte become U+FFFD.  Every round
    consumes at least one byte. *)
Fixpoint unquote_loop (rounds : nat) (s : bytes) : bytes :=
  match rounds with
  | O => []
  | S k =>
      match s with
      | [] => []
      | c :: t =>
          if (c =? "\")%char then
            match t with
            | [] => []
            | e :: t' =>
                if (e =? "u")%char then
                  let rr := getu4 s in
                  let s1 := drop 6 s in
                  if utf16.IsSurrogate rr then
                    let rr1 := getu4 s1 in
                    let dec := utf16.DecodeRune rr rr1 in
                    if negb (dec =? utf16.ReplacementChar) then
                      utf8.EncodeRune dec ++ unquote_loop k (drop 6 s1)
                    else
                      utf8.EncodeRune utf16.ReplacementChar
                      ++ unquote_loop k s1
                  else utf8.EncodeRune rr ++ unquote_loop k s1
                else unescape e :: unquote_loop k t'
            end
          else if code c <? utf8.RuneSelf then c :: unquote_loop k t
          else
            let '(rr, size) := utf8.DecodeRuneInString s in
            utf8.EncodeRune rr ++ unquote_loop k (drop size s)
      end
  end.

Definition unquote (content : bytes) : bytes :=
  unquote_loop (length content) content.

Definition mapOk {A B : Type} (f : A -> B) (r : Parsed A) : Parsed B :=
  match r with
  | Ok a => Ok (f a)
  | SyntaxErr => SyntaxErr
  | OutOfRounds => OutOfRounds
  end.

(** One value, after optional white space; [depth] counts the arrays and
    objects already open ([len(s.parseState)]). *)
Fixpoint parseValue (rounds : nat) (depth : Z) (s : bytes) {struct rounds}
    : Parsed (Value * bytes) :=
  match rounds with
  | O => OutOfRounds
  | S k =>
      match skipSpace s with
      | [] => SyntaxErr
      | c :: rest =>
          if (c =? "{")%char then
            if maxNestingDepth <? depth + 1 then SyntaxErr
            else
              match skipSpace rest with
              | c' :: rest' =>
                  if (c' =? "}")%char then Ok (Object [], rest')
                  else parseMembers k (depth + 1) rest []
              | [] => SyntaxErr
              end
          else if (c =? "[")%char then
            if maxNestingDepth <? depth + 1 then SyntaxErr
            else
              match skipSpace rest with
              | c' :: rest' =>
                  if (c' =? "]")%char then Ok (Array [], rest')
                  else parseElements k (depth + 1) rest []
              | [] => SyntaxErr
              end
          else if code c =? 0x22 then
            match scanString rest with
            | Some (content, rest') => Ok (String (unquote content), rest')
            | None => SyntaxErr
            end
          else if (c =? "-")%char || isDigit c then
            match scanNumber (c :: rest) with
            | Some (lit, rest') => Ok (Number lit, rest')
            | None => SyntaxErr
            end
          else if strings.HasPrefix (c :: rest) (str "true") then
            Ok (Bool true, drop 4 (c :: rest))
          else if strings.HasPrefix (c :: rest) (str "false") then
            Ok (Bool false, drop 5 (c :: rest))
          else if strings.HasPrefix (c :: rest) (str "null") then
            Ok (Null, drop 4 (c :: rest))
          else SyntaxErr
      end
  end

(** The elements of an array after its first byte: value, then [,] or
    []]. *)
with parseElements (rounds : nat) (depth : Z) (s : bytes) (acc : list Value)
    {struct rounds} : Parsed (Value * bytes) :=
  match rounds with
  | O => OutOfRounds
  | S k =>
      match parseValue k depth s with
      | Ok (v, rest) =>
          match skipSpace rest with
          | c :: rest' =>
              if (c =? ",")%char then parseElements k depth rest' (acc ++ [v])
              else if (c =? "]")%char then Ok (Array (acc ++ [v]), rest')
              else SyntaxErr
          | [] => SyntaxErr
          end
      | SyntaxErr => SyntaxErr
      | OutOfRounds => OutOfRounds
      end
  end

(** The members of an object after its first byte: key, [:], value, then
    [,] or [}]. *)
with parseMembers (rounds : nat) (depth : Z) (s : bytes)
    (acc : list (bytes * Value)) {struct rounds} : Parsed (Value * bytes) :=
  match rounds with
  | O => OutOfRounds
  | S k =>
      match skipSpace s with
      | q :: s1 =>
          if code q =? 0x22 then
            match scanString s1 with
            | Some (content, s2) =>
                match skipSpace s2 with
                | colon :: s3 =>
                    if (colon =? ":")%char then
                      match parseValue k depth s3 with
                      | Ok (v, rest) =>
                          let acc' := acc ++ [(unquote content, v)] in
                          match skipSpace rest with
                          | c :: rest' =>
                              if (c =? ",")%char
                              then parseMembers k depth rest' acc'
                              else if (c =? "}")%char
                              then Ok (Object acc', rest')
                              else SyntaxErr
                          | [] => SyntaxErr
                          end
                      | SyntaxErr => SyntaxErr
                      | OutOfRounds => OutOfRounds
                      end
                    else SyntaxErr
                | [] => SyntaxErr
                end
            | None => SyntaxErr
            end
          else SyntaxErr
      | [] => SyntaxErr
      end
  end.

(** [checkValid] and the reading of the whole input: one value, then only
    white space.  A value of [n] bytes needs fewer than [2*n+2] rounds. *)
Definition parse (data : bytes) : Parsed Value :=
  match parseValue (2 * length data + 2) 0 data with
  | Ok (v, rest) =>
      match skipSpace rest with
      | [] => Ok v
      | _ :: _ => SyntaxErr
      end
  | SyntaxErr => SyntaxErr
  | OutOfRounds => OutOfRounds
  end.

(** *** Numbers as [float64]

    [strconv.ParseFloat(lit, 64)] rounds the decimal [mant * 10^exp10] to
    the nearest binary64, ties to even.  The program only asks whether the
    result is zero, so a [float64] read from a document is kept as the
    decimal it was rounded from. *)
Record float64 : Type := { mant : Z; exp10 : Z }.

Definition digitsVal (ds : bytes) : Z :=
  fold_left (fun acc c => acc * 10 + (code c - 0x30)) ds 0.

(** The decimal a scanned number literal denotes. *)
Definition decimalOf (lit : bytes) : float64 :=
  let '(neg, s1) :=
    match lit with
    | c :: t => if (c =? "-")%char then (true, t) else (false, lit)
    | [] => (false, lit)
    end in
  let '(ip, s2) := digits s1 in
  let '(fp, s3) :=
    match s2 with
    | d :: t2 => if (d =? ".")%char then digits t2 else ([], s2)
    | [] => ([], s2)
    end in
  let e :=
    match s3 with
    | _ :: t3 =>
        match t3 with
        | g :: t4 =>
            if (g =? "-")%char then - digitsVal (fst (digits t4))
            else if (g =? "+")%char then digitsVal (fst (digits t4))
            else digitsVal (fst (digits t3))
        | [] => 0
        end
    | [] => 0
    end in
  let m := digitsVal (ip ++ fp) in
  {| mant := if neg then - m else m; exp10 := e - Z.of_nat (length fp) |}.

(** [|mant * 10^exp10| >= 2^1024 - 2^970]: the value rounds past the
    largest finite binary64 and [ParseFloat] reports a range error. *)
Definition overflows (f : float64) : bool :=
  let m := Z.abs (mant f) in
  let bound := 2 ^ 1024 - 2 ^ 970 in
  if 0 <=? exp10 f then bound <=? m * 10 ^ exp10 f
  else bound * 10 ^ (- exp10 f) <=? m.

(** [f == 0]: the decimal is zero or rounds to zero, that is
    [|mant * 10^exp10| <= 2^-1075]. *)
Definition isZero (f : float64) : bool :=
  let m := Z.abs (mant f) in
  if m =? 0 then true
  else if 0 <=? exp10 f then false
  else m * 2 ^ 1075 <=? 10 ^ (- exp10 f).

(** *** Decoding into [interface{}] *)

(** A Go value held in an [interface{}] after decoding. *)
Inductive Any : Type :=
| ANil
| ABool (b : bool)
| AFloat64 (f : float64)
| AString (s : bytes)
| ASlice (elems : list Any)
| AMap (members : list (bytes * Any)).

(** [valueInterface]: the Go value of a document; a number converts by
    [convertNumber], whose range error leaves [nil] in its place. *)
Fixpoint toAny (v : Value) : Any :=
  match v with
  | Null => ANil
  | Bool b => ABool b
  | Number lit =>
      let f := decimalOf lit in
      if overflows f then ANil else AFloat64 f
  | String s => AString s
  | Array elems => ASlice (map toAny elems)
  | Object members => AMap (map (fun kv => (fst kv, toAny (snd kv))) members)
  end.

(** Some number of the document is out of the [float64] range: the
    decoder saves an [*UnmarshalTypeError] and goes on. *)
Fixpoint hasRangeError (v : Value) : bool :=
  match v with
  | Number lit => overflows (decimalOf lit)
  | Array elems => existsb hasRangeError elems
  | Object members => existsb (fun kv => hasRangeError (snd kv)) members
  | _ => false
  end.

End json.

(** ** Package time *)

Module time.

(** A time zone: [lookup unix] is the offset east of UTC in force at the
    instant [unix] and the span [[start, end_)] of instants it is in force
    for.  [time.Local] is such a value, supplied by the system. *)
Record Location : Type := { lookup : Z -> Z * Z * Z }.

Definition alpha : Z := - 2 ^ 63.
Definition omega : Z := 2 ^ 63 - 1.

Definition UTC : Location := {| lookup := fun _ => (0, alpha, omega) |}.

Definition FixedZone (offset : Z) : Location :=
  {| lookup := fun _ => (offset, alpha, omega) |}.

(** An instant (seconds since 1970-01-01T00:00:00Z, and nanoseconds) with
    the zone it is presented in. *)
Record Time : Type := { unixSec : Z; nsec : Z; loc : Location }.

Definition isLeap (year : Z) : bool :=
  (year mod 4 =? 0) && (negb (year mod 100 =? 0) || (year mod 400 =? 0)).

(** The table [daysBefore]: days of a non-leap year before month [m+1]. *)
Definition daysBefore (m : Z) : Z :=
  nth (Z.to_nat m)
      [0; 31; 59; 90; 120; 151; 181; 212; 243; 273; 304; 334; 365] 0.

Definition daysIn (m year : Z) : Z :=
  if (m =? 2) && isLeap year then 29 else daysBefore m - daysBefore (m - 1).

(** Days from 1970-01-01 to January 1 of [year], proleptic Gregorian. *)
Definition daysSinceEpoch (year : Z) : Z :=
  let y := year - 1 in
  365 * y + y / 4 - y / 100 + y / 400 - 719162.

(** [Date(year, month, day, hour, min, sec, nsec, loc)]. *)
Definition Date (year month day hour min sec nsec : Z) (l : Location) : Time :=
  (* norm(hi, lo, base) is floor division and remainder *)
  let m := month - 1 in
  let year := year + m / 12 in
  let month := m mod 12 + 1 in
  let sec := sec + nsec / 1000000000 in
  let nsec := nsec mod 1000000000 in
  let min := min + sec / 60 in
  let sec := sec mod 60 in
  let hour := hour + min / 60 in
  let min := min mod 60 in
  let day := day + hour / 24 in
  let hour := hour mod 24 in
  let d := daysSinceEpoch year + daysBefore (month - 1)
           + (if isLeap year && (3 <=? month) then 1 else 0)
           + (day - 1) in
  let unix := d * 86400 + hour * 3600 + min * 60 + sec in
  let '(offset, start, end_) := lookup l unix in
  let unix :=
    if offset =? 0 then unix
    else
      let utc := unix - offset in
      let offset :=
        if (utc <? start) || (end_ <=? utc)
        then fst (fst (lookup l utc)) else offset in
      unix - offset in
  {| unixSec := unix; nsec := nsec; loc := l |}.

(** The civil date [(year, month, day)] of a day number counted from
    1970-01-01. *)
Definition civil (days : Z) : Z * Z * Z :=
  let z := days + 719468 in
  let era := z / 146097 in
  let doe := z - era * 146097 in
  let yoe := (doe - doe / 1460 + doe / 36524 - doe / 146096) / 365 in
  let doy := doe - (365 * yoe + yoe / 4 - yoe / 100) in
  let mp := (5 * doy + 2) / 153 in
  let d := doy - (153 * mp + 2) / 5 + 1 in
  let m := if mp <? 10 then mp + 3 else mp - 9 in
  let y := yoe + era * 400 + (if m <=? 2 then 1 else 0) in
  (y, m, d).

(** *** Layouts *)

(** The layout elements the layouts of this program are made of. *)
Inductive std : Type :=
| stdLongYear          (* 2006 *)
| stdZeroMonth         (* 01 *)
| stdZeroDay           (* 02 *)
| stdHour              (* 15 *)
| stdZeroMinute        (* 04 *)
| stdZeroSecond        (* 05 *)
| stdISO8601ColonTZ.   (* Z07:00 *)

Inductive chunk : Type :=
| Lit (c : ascii)
| Std (s : std).

Definition stdTable : list (bytes * std) :=
  [ (str "2006", stdLongYear); (str "01", stdZeroMonth);
    (str "02", stdZeroDay); (str "15", stdHour);
    (str "04", stdZeroMinute); (str "05", stdZeroSecond);
    (str "Z07:00", stdISO8601ColonTZ) ].

Definition stdAt (layout : bytes) : option (bytes * std) :=
  find (fun e => strings.HasPrefix layout (fst e)) stdTable.

(** [nextStdChunk], iterated over a whole layout and restricted to the
    elements above: the other elements the package knows (month and day
    names, [1], [2], [_2], [06], [3], [4], [5], [PM], [MST], the [-07]
    family, fractional seconds) occur in no layout of this program. *)
Fixpoint chunks_loop (rounds : nat) (layout : bytes) : list chunk :=
  match rounds with
  | O => []
  | S k =>
      match layout with
      | [] => []
      | c :: rest =>
          match stdAt layout with
          | Some (lit, s) => Std s :: chunks_loop k (drop (length lit) layout)
          | None => Lit c :: chunks_loop k rest
          end
      end
  end.

Definition chunks (layout : bytes) : list chunk :=
  chunks_loop (length layout) layout.

Definition RFC3339 : bytes := str "2006-01-02T15:04:05Z07:00".

(** *** Parsing *)

Definition isDigit (s : bytes) (i : nat) : bool :=
  match nth_error s i with
  | Some c => (0x30 <=? code c) && (code c <=? 0x39)
  | None => false
  end.

(** [getnum]: one or two digits, exactly two when [fixed]. *)
Definition getnum (s : bytes) (fixed : bool) : option (Z * bytes) :=
  if negb (isDigit s 0) then None
  else if negb (isDigit s 1) then
    if fixed then None else Some (byteAt s 0 - 0x30, drop 1 s)
  else Some ((byteAt s 0 - 0x30) * 10 + (byteAt s 1 - 0x30), drop 2 s).

(** [atoi] on a string that starts with a digit. *)
Definition atoi (s : bytes) : option Z :=
  if forallb (fun c => (0x30 <=? code c) && (code c <=? 0x39)) s
  then Some (fold_left (fun acc c => acc * 10 + (code c - 0x30)) s 0)
  else None.

Fixpoint cutspace (s : bytes) : bytes :=
  match s with
  | c :: s' => if (c =? " ")%char then cutspace s' else s
  | [] => []
  end.

(** [skip] for one byte of layout text: a space of the layout stands for
    any run of spaces of the value, also an empty one at its end. *)
Definition skip1 (value : bytes) (c : ascii) : option bytes :=
  if (c =? " ")%char then
    match value with
    | v :: _ => if negb (v =? " ")%char then None else Some (cutspace value)
    | [] => Some []
    end
  else
    match value with
    | v :: value' => if (v =? c)%char then Some value' else None
    | [] => None
    end.

Definition commaOrPeriod (c : Z) : bool := (c =? 0x2E) || (c =? 0x2C).

(** The fields [parse] collects. *)
Record fields : Type := {
  f_year : Z; f_month : Z; f_day : Z;
  f_hour : Z; f_min : Z; f_sec : Z; f_nsec : Z;
  f_utc : bool;         (* z = UTC *)
  f_zoneOffset : Z      (* -1 when the value names no offset *)
}.

Definition fields0 : fields :=
  {| f_year := 0; f_month := -1; f_day := -1; f_hour := 0; f_min := 0;
     f_sec := 0; f_nsec := 0; f_utc := false; f_zoneOffset := -1 |}.

(** [parseNanoseconds(value, n)] for [value] a period or comma followed by
    [n-1] digits. *)
Definition parseNanoseconds (value : bytes) (n : nat) : Z :=
  let n := Nat.min n 10 in
  let ds := take (n - 1) (drop 1 value) in
  fold_left (fun acc c => acc * 10 + (code c - 0x30)) ds 0
  * 10 ^ Z.of_nat (10 - n).

(** One layout element of the switch of [parse]: the fields and the rest
    of the value, or [None] for a syntax or range error. *)
Definition parseStd (s : std) (f : fields) (value : bytes)
    : option (fields * bytes) :=
  match s with
  | stdLongYear =>
      if (length value <? 4)%nat || negb (isDigit value 0) then None
      else
        match atoi (take 4 value) with
        | Some y =>
            Some ({| f_year := y; f_month := f_month f; f_day := f_day f;
                     f_hour := f_hour f; f_min := f_min f; f_sec := f_sec f;
                     f_nsec := f_nsec f; f_utc := f_utc f;
                     f_zoneOffset := f_zoneOffset f |}, drop 4 value)
        | None => None
        end
  | stdZeroMonth =>
      match getnum value true with
      | Some (m, value') =>
          if (m <=? 0) || (12 <? m) then None
          else
            Some ({| f_year := f_year f; f_month := m; f_day := f_day f;
                     f_hour := f_hour f; f_min := f_min f; f_sec := f_sec f;
                     f_nsec := f_nsec f; f_utc := f_utc f;
                     f_zoneOffset := f_zoneOffset f |}, value')
      | None => None
      end
  | stdZeroDay =>
      match getnum value true with
      | Some (d, value') =>
          Some ({| f_year := f_year f; f_month := f_month f; f_day := d;
                   f_hour := f_hour f; f_min := f_min f; f_sec := f_sec f;
                   f_nsec := f_nsec f; f_utc := f_utc f;
                   f_zoneOffset := f_zoneOffset f |}, value')
      | None => None
      end
  | stdHour =>
      match getnum value false with
      | Some (h, value') =>
          if (h <? 0) || (24 <=? h) then None
          else
            Some ({| f_year := f_year f; f_month := f_month f;
                     f_day := f_day f; f_hour := h; f_min := f_min f;
                     f_sec := f_sec f; f_nsec := f_nsec f; f_utc := f_utc f;
                     f_zoneOffset := f_zoneOffset f |}, value')
      | None => None
      end
  | stdZeroMinute =>
      match getnum value true with
      | Some (m, value') =>
          if (m <? 0) || (60 <=? m) then None
          else
            Some ({| f_year := f_year f; f_month := f_month f;
                     f_day := f_day f; f_hour := f_hour f; f_min := m;
                     f_sec := f_sec f; f_nsec := f_nsec f; f_utc := f_utc f;
                     f_zoneOffset := f_zoneOffset f |}, value')
      | None => None
      end
  | stdZeroSecond =>
      match getnum value true with
      | Some (s, value') =>
          if (s <? 0) || (60 <=? s) then None
          else
            (* a fractional second of the value that the layout does not
               announce is read and dropped from the rest *)
            let '(ns, value'') :=
              if (2 <=? length value')%nat && commaOrPeriod (byteAt value' 0)
                 && isDigit value' 1
              then
                let n := (1 + length (fst (json.digits (drop 1 value'))))%nat in
                (parseNanoseconds value' n, drop n value')
              else (f_nsec f, value') in
            Some ({| f_year := f_year f; f_month := f_month f;
                     f_day := f_day f; f_hour := f_hour f; f_min := f_min f;
                     f_sec := s; f_nsec := ns; f_utc := f_utc f;
                     f_zoneOffset := f_zoneOffset f |}, value'')
      | None => None
      end
  | stdISO8601ColonTZ =>
      if (1 <=? length value)%nat && (byteAt value 0 =? 0x5A) then
        Some ({| f_year := f_year f; f_month := f_month f; f_day := f_day f;
                 f_hour := f_hour f; f_min := f_min f; f_sec := f_sec f;
                 f_nsec := f_nsec f; f_utc := true;
                 f_zoneOffset := f_zoneOffset f |}, drop 1 value)
      else if (length value <? 6)%nat then None
      else if negb (byteAt value 3 =? 0x3A) then None
      else
        let sign := byteAt value 0 in
        match getnum (take 2 (drop 1 value)) true,
              getnum (take 2 (drop 4 value)) true with
        | Some (hr, _), Some (mm, _) =>
            if (24 <? hr) || (60 <? mm) then None
            else
              let off := (hr * 60 + mm) * 60 in
              if sign =? 0x2B then
                Some ({| f_year := f_year f; f_month := f_month f;
                         f_day := f_day f; f_hour := f_hour f;
                         f_min := f_min f; f_sec := f_sec f;
                         f_nsec := f_nsec f; f_utc := f_utc f;
                         f_zoneOffset := off |}, drop 6 value)
              else if sign =? 0x2D then
                Some ({| f_year := f_year f; f_month := f_month f;
                         f_day := f_day f; f_hour := f_hour f;
                         f_min := f_min f; f_sec := f_sec f;
                         f_nsec := f_nsec f; f_utc := f_utc f;
                         f_zoneOffset := - off |}, drop 6 value)
              else None
        | _, _ => None
        end
  end.

(** The loop of [parse] over the elements of the layout; at its end the
    value must be used up. *)
Fixpoint parseChunks (cs : list chunk) (f : fields) (value : bytes)
    : option fields :=
  match cs with
  | [] => match value with [] => Some f | _ :: _ => None end
  | Lit c :: cs' =>
      match skip1 value c with
      | Some value' => parseChunks cs' f value'
      | None => None
      end
  | Std s :: cs' =>
      match parseStd s f value with
      | Some (f', value') => parseChunks cs' f' value'
      | None => None
      end
  end.

(** [ParseInLocation(layout, value, loc)]; [None] is a [*ParseError]. *)
Definition ParseInLocation (layout value : bytes) (l : Location)
    : option Time :=
  match parseChunks (chunks layout) fields0 value with
  | None => None
  | Some f =>
      let month := if f_month f <? 0 then 1 else f_month f in
      let day := if f_day f <? 0 then 1 else f_day f in
      if (day <? 1) || (daysIn month (f_year f) <? day) then None
      else if f_utc f then
        Some (Date (f_year f) month day (f_hour f) (f_min f) (f_sec f)
                   (f_nsec f) UTC)
      else if negb (f_zoneOffset f =? -1) then
        let t := Date (f_year f) month day (f_hour f) (f_min f) (f_sec f)
                      (f_nsec f) UTC in
        let u := unixSec t - f_zoneOffset f in
        (* use the local zone when it has this offset at that instant,
           a fixed zone of that offset otherwise *)
        if fst (fst (lookup l u)) =? f_zoneOffset f
        then Some {| unixSec := u; nsec := nsec t; loc := l |}
        else Some {| unixSec := u; nsec := nsec t;
                     loc := FixedZone (f_zoneOffset f) |}
      else
        Some (Date (f_year f) month day (f_hour f) (f_min f) (f_sec f)
                   (f_nsec f) l)
  end.

(** *** Formatting *)

Definition digit (d : Z) : ascii := byte_of (0x30 + d).

(** The decimal digits of [u >= 0]; 20 rounds cover a 64-bit value. *)
Fixpoint decimal_loop (rounds : nat) (u : Z) : bytes :=
  match rounds with
  | O => []
  | S k =>
      if u <? 10 then [digit u]
      else decimal_loop k (u / 10) ++ [digit (u mod 10)]
  end.

(** [appendInt(nil, x, width)]: sign, then the digits padded with zeros
    to [width]. *)
Definition appendInt (x : Z) (width : nat) : bytes :=
  let u := Z.abs x in
  let ds := decimal_loop 20 u in
  (if x <? 0 then [byte_of 0x2D] else [])
  ++ repeat (digit 0) (width - length ds) ++ ds.

Definition formatStd (s : std) (t : Time) : bytes :=
  let offset := fst (fst (lookup (loc t) (unixSec t))) in
  let abs := unixSec t + offset in
  let '(year, month, day) := civil (abs / 86400) in
  let secs := abs mod 86400 in
  match s with
  | stdLongYear => appendInt year 4
  | stdZeroMonth => appendInt month 2
  | stdZeroDay => appendInt day 2
  | stdHour => appendInt (secs / 3600) 2
  | stdZeroMinute => appendInt (secs mod 3600 / 60) 2
  | stdZeroSecond => appendInt (secs mod 60) 2
  | stdISO8601ColonTZ =>
      if offset =? 0 then [byte_of 0x5A]
      else
        let zone := offset / 60 in
        (if zone <? 0 then [byte_of 0x2D] else [byte_of 0x2B])
        ++ appendInt (Z.abs zone / 60) 2 ++ [byte_of 0x3A]
        ++ appendInt (Z.abs zone mod 60) 2
  end.

(** [t.Format(layout)]. *)
Definition Format (t : Time) (layout : bytes) : bytes :=
  flat_map (fun c => match c with
                     | Lit b => [b]
                     | Std s => formatStd s t
                     end) (chunks layout).

End time.

(** ** Package net/url (what [http.NewRequest] runs on a webhook address) *)

Module url.

(** [stringContainsCTLByte]: some byte is below 0x20 or is 0x7f. *)
Definition stringContainsCTLByte (s : bytes) : bool :=
  existsb (fun b => (code b <? 0x20) || (code b =? 0x7f)) s.

Definition ishex (c : ascii) : bool :=
  ((0x30 <=? code c) && (code c <=? 0x39))
  || ((0x61 <=? code c) && (code c <=? 0x66))
  || ((0x41 <=? code c) && (code c <=? 0x46)).

(** [strings.Cut(rawURL, "#")]: what stands before the first [#], and
    what stands after it. *)
Fixpoint cutFragment (rawURL : bytes) : bytes * bytes :=
  match rawURL with
  | [] => ([], [])
  | c :: rest =>
      if code c =? 0x23 then ([], rest)
      else let '(u, frag) := cutFragment rest in (c :: u, frag)
  end.

(** The first loop of [unescape] in the mode of a fragment returns no
    [EscapeError]: every [%] is followed by two hexadecimal digits. *)
Fixpoint unescapes (s : bytes) : bool :=
  match s with
  | [] => true
  | c :: rest =>
      if code c =? 0x25 then
        match rest with
        | h1 :: h2 :: rest' => ishex h1 && ishex h2 && unescapes rest'
        | _ => false
        end
      else unescapes rest
  end.

(** [Parse(rawURL)] returns no error, for a [rawURL] that starts with one
    of the two webhook addresses of the program, up to the [=] of its query
    parameter.  [Parse] cuts the fragment off, refuses a control byte in
    what stands before it, and refuses a fragment that does not unescape.
    The scheme, the authority and the path are then those of the constant
    address, which [parse] accepts, and what follows the first [?] becomes
    the raw query without a check. *)
Definition Parse_ok (rawURL : bytes) : bool :=
  let '(u, frag) := cutFragment rawURL in
  if stringContainsCTLByte u then false
  else if (length frag =? 0)%nat then true
  else unescapes frag.

End url.

(** * The program: main.go *)

(** [q "..."] is a Go string literal in which every apostrophe of the text
    written here stands for a double quote. *)
Definition q (s : string) : bytes :=
  map (fun c => if (c =? "'")%char then byte_of 0x22 else c) (str s).

(** The newline of a Go string literal. *)
Definition nl : bytes := [byte_of 0x0A].

(** ** Data structures *)

Record AQIData : Type := {
  PositionName : bytes;
  Quality : bytes;
  AQI : bytes;
  O3 : bytes;
  NO2 : bytes;
  PM10 : bytes;
  PM25 : bytes;
  SO2 : bytes;
  CO : bytes;
  Latitude : bytes;
  Longitude : bytes;
  TimePoint : bytes;
  StationCode : bytes;
  PrimaryPollutant : bytes
}.

(** The zero value of [AQIData]. *)
Definition AQIData0 : AQIData :=
  {| PositionName := []; Quality := []; AQI := []; O3 := []; NO2 := [];
     PM10 := []; PM25 := []; SO2 := []; CO := []; Latitude := [];
     Longitude := []; TimePoint := []; StationCode := [];
     PrimaryPollutant := [] |}.

Record MarkdownContent : Type := { Content : bytes }.

Record WechatWorkWebhook : Type := {
  wx_MsgType : bytes;
  wx_Text : bytes;                  (* TextContent.Content *)
  wx_Markdown : MarkdownContent
}.

Record DingTalkMarkdown : Type := { Title : bytes; Text : bytes }.

Record DingTalkAt : Type := {
  AtMobiles : list bytes;
  AtUserIds : list bytes;
  IsAtAll : bool
}.

Record DingTalkWebhook : Type := {
  dt_MsgType : bytes;
  dt_Markdown : DingTalkMarkdown;
  dt_At : DingTalkAt
}.

(** ** Constants and configuration *)

Definition url : bytes :=
  str "https://air.cnemc.cn:18007/CityData/GetAQIDataPublishLive?cityName=%E5%B9%BF%E5%B7%9E%E5%B8%82".

(** Station names exempt from alerting (exact match). *)
Definition ignorePositionNames : gset bytes := {[ str "帽峰山森林公园" ]}.

Record Config : Type := {
  WechatWebhookKey : bytes;
  DingTalkAccessToken : bytes;
  HTTPClientTimeoutSec : Z
}.

(** ** Errors *)

(** The [error] values the program sees. *)
Inductive error : Type :=
| ErrNew (msg : bytes)
    (* errors.New(msg) *)
| ErrFetchStatus (status : Z) (body : bytes)
    (* fmt.Errorf("api returned http status %d: %s", status, body) *)
| ErrWebhookStatus (channel : bytes) (status : Z) (body : bytes)
    (* fmt.Errorf("<channel> webhook http status %d: %s", status, body) *)
| ErrWebhookErrcode (channel : bytes) (ec : json.float64) (body : bytes)
    (* fmt.Errorf("<channel> webhook errcode=%v, body=%s", ec, body) *)
| ErrJSONSyntax
    (* *json.SyntaxError *)
| ErrJSONType
    (* *json.UnmarshalTypeError *)
| ErrTimeParse
    (* *time.ParseError *)
| ErrNet (cause : Z).
    (* an error of net/http or of reading a response body: no connection,
       the client's timeout, a reset; the environment chooses it *)

(** ** The environment: HTTP and the run-time system *)

Inductive Payload : Type :=
| NoBody
| WechatBody (w : WechatWorkWebhook)
| DingTalkBody (d : DingTalkWebhook).

(** A request handed to [client.Do].  [req_Body] is the value given to
    [json.Marshal], whose encoding of these structs cannot fail. *)
Record Request : Type := {
  req_Method : bytes;
  req_URL : bytes;
  req_ContentType : bytes;
  req_Body : Payload
}.

(** What [client.Do] comes back with: an error, or a response with its
    status, the bytes of its body that can be read, and the error that ends
    the reading if it is not the end of the body. *)
Inductive Reply : Type :=
| NetError (e : error)
| Response (StatusCode : Z) (body : bytes) (readErr : option error).

(** The order in which one [range] over a map visits its entries. *)
Abbreviation MapOrder :=
  (gmap bytes json.Value -> list (bytes * json.Value)).

(** One run's environment: the reply to the [n]-th request the process
    sends, and the order of the map iteration that follows it. *)
Record World : Type := {
  http_do : nat -> Request -> Reply;
  range_order : nat -> MapOrder
}.

(** A map order is one the language allows when it visits every entry of
    the map once. *)
Definition validOrder (order : MapOrder) : Prop :=
  forall m, Permutation (order m) (map_to_list m).

(** What the process does that can be observed. *)
Inductive Event : Type :=
| EvDo (req : Request)              (* client.Do(req) *)
| EvSleep (d : Z)                   (* time.Sleep(d), d in nanoseconds *)
| EvPrintln (line : bytes)          (* fmt.Println, log.Println *)
| EvLogError (what : bytes) (e : error)   (* log.Printf("<what>: %v", e) *)
| EvFatal (e : error)               (* log.Fatalf(...): exit status 1 *)
| EvCount (n : Z)                   (* fmt.Printf of the final count *)
| EvPanic.                          (* a run-time panic: exit status 2 *)

Record Run : Type := { calls : nat; trace : list Event }.

Definition Run0 : Run := {| calls := 0; trace := [] |}.

(** Computations that send requests, sleep and print. *)
Definition M (A : Type) : Type := Run -> A * Run.

Definition ret {A : Type} (a : A) : M A := fun r => (a, r).

Definition bind {A B : Type} (m : M A) (k : A -> M B) : M B :=
  fun r => let '(a, r') := m r in k a r'.

Declare Scope go_scope.
Delimit Scope go_scope with go.
Notation "'let*' x ':=' m 'in' k" := (bind m (fun x => k))
  (at level 10, x pattern, m at level 100, k at level 200) : go_scope.
Notation "m ';;' k" := (bind m (fun _ => k))
  (at level 100, k at level 200, right associativity) : go_scope.

Definition emit (e : Event) : M unit :=
  fun r => (tt, {| calls := calls r; trace := trace r ++ [e] |}).

(** How a call of a sender ends: it returns its [error], or it panics
    and the process ends with it. *)
Inductive Sent : Type :=
| Returned (err : option error)
| Panicked.

Definition Millisecond : Z := 1000000.

Definition Sleep (d : Z) : M unit := emit (EvSleep d).

(** ** Decoding a station array with encoding/json *)

(** The exported fields of [AQIData] and the names of their [json] tags. *)
Inductive Field : Type :=
| FPositionName | FQuality | FAQI | FO3 | FNO2 | FPM10 | FPM25 | FSO2 | FCO
| FLatitude | FLongitude | FTimePoint | FStationCode | FPrimaryPollutant.

Definition allFields : list Field :=
  [FPositionName; FQuality; FAQI; FO3; FNO2; FPM10; FPM25; FSO2; FCO;
   FLatitude; FLongitude; FTimePoint; FStationCode; FPrimaryPollutant].

Definition fieldName (f : Field) : bytes :=
  match f with
  | FPositionName => str "PositionName"
  | FQuality => str "Quality"
  | FAQI => str "AQI"
  | FO3 => str "O3"
  | FNO2 => str "NO2"
  | FPM10 => str "PM10"
  | FPM25 => str "PM2_5"
  | FSO2 => str "SO2"
  | FCO => str "CO"
  | FLatitude => str "Latitude"
  | FLongitude => str "Longitude"
  | FTimePoint => str "TimePoint"
  | FStationCode => str "StationCode"
  | FPrimaryPollutant => str "PrimaryPollutant"
  end.

Definition setField (f : Field) (v : bytes) (st : AQIData) : AQIData :=
  match f with
  | FPositionName =>
      {| PositionName := v; Quality := Quality st; AQI := AQI st; O3 := O3 st;
         NO2 := NO2 st; PM10 := PM10 st; PM25 := PM25 st; SO2 := SO2 st;
         CO := CO st; Latitude := Latitude st; Longitude := Longitude st;
         TimePoint := TimePoint st; StationCode := StationCode st;
         PrimaryPollutant := PrimaryPollutant st |}
  | FQuality =>
      {| PositionName := PositionName st; Quality := v; AQI := AQI st;
         O3 := O3 st; NO2 := NO2 st; PM10 := PM10 st; PM25 := PM25 st;
         SO2 := SO2 st; CO := CO st; Latitude := Latitude st;
         Longitude := Longitude st; TimePoint := TimePoint st;
         StationCode := StationCode st;
         PrimaryPollutant := PrimaryPollutant st |}
  | FAQI =>
      {| PositionName := PositionName st; Quality := Quality st; AQI := v;
         O3 := O3 st; NO2 := NO2 st; PM10 := PM10 st; PM25 := PM25 st;
         SO2 := SO2 st; CO := CO st; Latitude := Latitude st;
         Longitude := Longitude st; TimePoint := TimePoint st;
         StationCode := StationCode st;
         PrimaryPollutant := PrimaryPollutant st |}
  | FO3 =>
      {| PositionName := PositionName st; Quality := Quality st;
         AQI := AQI st; O3 := v; NO2 := NO2 st; PM10 := PM10 st;
         PM25 := PM25 st; SO2 := SO2 st; CO := CO st;
         Latitude := Latitude st; Longitude := Longitude st;
         TimePoint := TimePoint st; StationCode := StationCode st;
         PrimaryPollutant := PrimaryPollutant st |}
  | FNO2 =>
      {| PositionName := PositionName st; Quality := Quality st;
         AQI := AQI st; O3 := O3 st; NO2 := v; PM10 := PM10 st;
         PM25 := PM25 st; SO2 := SO2 st; CO := CO st;
         Latitude := Latitude st; Longitude := Longitude st;
         TimePoint := TimePoint st; StationCode := StationCode st;
         PrimaryPollutant := PrimaryPollutant st |}
  | FPM10 =>
      {| PositionName := PositionName st; Quality := Quality st;
         AQI := AQI st; O3 := O3 st; NO2 := NO2 st; PM10 := v;
         PM25 := PM25 st; SO2 := SO2 st; CO := CO st;
         Latitude := Latitude st; Longitude := Longitude st;
         TimePoint := TimePoint st; StationCode := StationCode st;
         PrimaryPollutant := PrimaryPollutant st |}
  | FPM25 =>
      {| PositionName := PositionName st; Quality := Quality st;
         AQI := AQI st; O3 := O3 st; NO2 := NO2 st; PM10 := PM10 st;
         PM25 := v; SO2 := SO2 st; CO := CO st;
         Latitude := Latitude st; Longitude := Longitude st;
         TimePoint := TimePoint st; StationCode := StationCode st;
         PrimaryPollutant := PrimaryPollutant st |}
  | FSO2 =>
      {| PositionName := PositionName st; Quality := Quality st;
         AQI := AQI st; O3 := O3 st; NO2 := NO2 st; PM10 := PM10 st;
         PM25 := PM25 st; SO2 := v; CO := CO st;
         Latitude := Latitude st; Longitude := Longitude st;
         TimePoint := TimePoint st; StationCode := StationCode st;
         PrimaryPollutant := PrimaryPollutant st |}
  | FCO =>
      {| PositionName := PositionName st; Quality := Quality st;
         AQI := AQI st; O3 := O3 st; NO2 := NO2 st; PM10 := PM10 st;
         PM25 := PM25 st; SO2 := SO2 st; CO := v;
         Latitude := Latitude st; Longitude := Longitude st;
         TimePoint := TimePoint st; StationCode := StationCode st;
         PrimaryPollutant := PrimaryPollutant st |}
  | FLatitude =>
      {| PositionName := PositionName st; Quality := Quality st;
         AQI := AQI st; O3 := O3 st; NO2 := NO2 st; PM10 := PM10 st;
         PM25 := PM25 st; SO2 := SO2 st; CO := CO st;
         Latitude := v; Longitude := Longitude st;
         TimePoint := TimePoint st; StationCode := StationCode st;
         PrimaryPollutant := PrimaryPollutant st |}
  | FLongitude =>
      {| PositionName := PositionName st; Quality := Quality st;
         AQI := AQI st; O3 := O3 st; NO2 := NO2 st; PM10 := PM10 st;
         PM25 := PM25 st; SO2 := SO2 st; CO := CO st;
         Latitude := Latitude st; Longitude := v;
         TimePoint := TimePoint st; StationCode := StationCode st;
         PrimaryPollutant := PrimaryPollutant st |}
  | FTimePoint =>
      {| PositionName := PositionName st; Quality := Quality st;
         AQI := AQI st; O3 := O3 st; NO2 := NO2 st; PM10 := PM10 st;
         PM25 := PM25 st; SO2 := SO2 st; CO := CO st;
         Latitude := Latitude st; Longitude := Longitude st;
         TimePoint := v; StationCode := StationCode st;
         PrimaryPollutant := PrimaryPollutant st |}
  | FStationCode =>
      {| PositionName := PositionName st; Quality := Quality st;
         AQI := AQI st; O3 := O3 st; NO2 := NO2 st; PM10 := PM10 st;
         PM25 := PM25 st; SO2 := SO2 st; CO := CO st;
         Latitude := Latitude st; Longitude := Longitude st;
         TimePoint := TimePoint st; StationCode := v;
         PrimaryPollutant := PrimaryPollutant st |}
  | FPrimaryPollutant =>
      {| PositionName := PositionName st; Quality := Quality st;
         AQI := AQI st; O3 := O3 st; NO2 := NO2 st; PM10 := PM10 st;
         PM25 := PM25 st; SO2 := SO2 st; CO := CO st;
         Latitude := Latitude st; Longitude := Longitude st;
         TimePoint := TimePoint st; StationCode := StationCode st;
         PrimaryPollutant := v |}
  end.

(** [foldRune] as far as a name of ASCII letters, digits and underscores
    can tell: a letter folds to its capital, and the two runes beyond
    ASCII whose fold class holds an ASCII letter, U+017F (long s) and
    U+212A (Kelvin sign), fold to [S] and [K]. *)
Definition foldRune (r : Z) : Z :=
  if (0x61 <=? r) && (r <=? 0x7A) then r - 0x20
  else if r =? 0x17F then 0x53
  else if r =? 0x212A then 0x4B
  else r.

Definition foldName (name : bytes) : bytes :=
  flat_map (fun r => utf8.EncodeRune (foldRune r)) (utf8.runes name).

(** The field an object key selects: the one whose name is the key, else
    the one whose name is the key up to case folding. *)
Definition fieldOfKey (key : bytes) : option Field :=
  match find (fun f => eqb_bytes (fieldName f) key) allFields with
  | Some f => Some f
  | None =>
      find (fun f => eqb_bytes (foldName (fieldName f)) (foldName key))
           allFields
  end.

(** One member of an object decoded into a station: a string sets its
    field, [null] and an unknown key do nothing, any other value is an
    [UnmarshalTypeError] (the flag) that leaves the field as it was. *)
Definition decodeMember (acc : AQIData * bool) (kv : bytes * json.Value)
    : AQIData * bool :=
  let '(st, bad) := acc in
  match fieldOfKey (fst kv) with
  | None => (st, bad)
  | Some f =>
      match snd kv with
      | json.String s => (setField f s st, bad)
      | json.Null => (st, bad)
      | _ => (st, true)
      end
  end.

(** One element of an array decoded into the station already held at its
    index. *)
Definition decodeStation (v : json.Value) (st : AQIData) : AQIData * bool :=
  match v with
  | json.Null => (st, false)
  | json.Object members => fold_left decodeMember members (st, false)
  | _ => (st, true)
  end.

(** A slice of stations as [json.Unmarshal] sees it: its elements, and the
    stations left in its backing array past its length by an earlier,
    longer decode (the capacity beyond them is zero). *)
Record Slice : Type := { elems : list AQIData; spare : list AQIData }.

Definition nilSlice : Slice := {| elems := []; spare := [] |}.

(** The elements of a JSON array decoded in order, the [i]-th into the
    [i]-th station of the backing array, a zero station past its end. *)
Fixpoint decodeElems (vs : list json.Value) (backing : list AQIData)
    : list AQIData * bool :=
  match vs with
  | [] => ([], false)
  | v :: vs' =>
      let '(st, bad) := decodeStation v (hd AQIData0 backing) in
      let '(sts, bad') := decodeElems vs' (tl backing) in
      (st :: sts, bad || bad')
  end.

(** [json.Unmarshal(v, &arr)] for a document [v] that is well formed:
    the new contents of [arr], and whether an [UnmarshalTypeError] was
    saved.  [null] sets [arr] to nil; an empty array replaces it by a new
    empty slice; an array is decoded element by element over what [arr]
    holds, and its length becomes that of the array; any other document is
    a type error and leaves [arr] alone. *)
Definition unmarshalStations (v : json.Value) (arr : Slice) : Slice * bool :=
  match v with
  | json.Null => (nilSlice, false)
  | json.Array [] => (nilSlice, false)
  | json.Array vs =>
      let backing := elems arr ++ spare arr in
      let '(sts, bad) := decodeElems vs backing in
      ({| elems := sts; spare := drop (length vs) backing |}, bad)
  | _ => (arr, true)
  end.

(** [json.Unmarshal(v, &arr)] for [v] a [json.RawMessage] taken from a
    document: the sub-document is kept in parsed form. *)
Definition Unmarshal_raw (v : json.Value) (arr : Slice) : Slice * option error :=
  let '(arr', bad) := unmarshalStations v arr in
  (arr', if bad then Some ErrJSONType else None).

(** [json.Unmarshal(data, &arr)] with [arr] of type [[]AQIData]. *)
Definition Unmarshal_stations (data : bytes) (arr : Slice)
    : Slice * option error :=
  match json.parse data with
  | json.Ok v => Unmarshal_raw v arr
  | _ => (arr, Some ErrJSONSyntax)
  end.

(** [json.Unmarshal(data, &obj)] with [obj] of type
    [map[string]json.RawMessage], nil before the call: a later member
    replaces an earlier one of the same key. *)
Definition Unmarshal_object (data : bytes)
    : gmap bytes json.Value * option error :=
  match json.parse data with
  | json.Ok (json.Object members) =>
      (fold_left (fun m kv => <[fst kv := snd kv]> m) members ∅, None)
  | json.Ok json.Null => (∅, None)
  | json.Ok _ => (∅, Some ErrJSONType)
  | _ => (∅, Some ErrJSONSyntax)
  end.

(** [json.Unmarshal(data, &respObj)] with [respObj] of type
    [map[string]interface{}], nil before the call. *)
Definition Unmarshal_any (data : bytes) : gmap bytes json.Any * option error :=
  match json.parse data with
  | json.Ok (json.Object members) =>
      (fold_left (fun m kv => <[fst kv := json.toAny (snd kv)]> m) members ∅,
       if json.hasRangeError (json.Object members)
       then Some ErrJSONType else None)
  | json.Ok json.Null => (∅, None)
  | json.Ok _ => (∅, Some ErrJSONType)
  | _ => (∅, Some ErrJSONSyntax)
  end.

Section Program.

(** [unicode.ToLower] on a rune: data of the Go distribution. *)
Variable unicode_ToLower : Z -> Z.

(** [time.Local]: the time zone of the machine. *)
Variable Local : time.Location.

(** The replies and map orders of this run. *)
Variable world : World.

Local Open Scope go_scope.

(** ** Fetching and decoding *)

(** [client.Do(req)]: the request is sent, the environment replies. *)
Definition client_Do (req : Request) : M Reply :=
  fun r =>
    (http_do world (calls r) req,
     {| calls := S (calls r); trace := trace r ++ [EvDo req] |}).

Definition wrapperKeys : list bytes :=
  [str "Data"; str "data"; str "Rows"; str "rows"; str "Table"; str "table";
   str "records"; str "Records"].

(** [for _, k := range keys { if v, ok := obj[k]; ok { if err :=
    json.Unmarshal(v, &arr); err == nil { return arr, nil } } }]:
    [inl] is the return from inside the loop, [inr] the state of [arr]
    when the loop ends. *)
Fixpoint tryKeys (obj : gmap bytes json.Value) (keys : list bytes)
    (arr : Slice) : list AQIData + Slice :=
  match keys with
  | [] => inr arr
  | k :: keys' =>
      match obj !! k with
      | Some v =>
          let '(arr', err) := Unmarshal_raw v arr in
          match err with
          | None => inl (elems arr')
          | Some _ => tryKeys obj keys' arr'
          end
      | None => tryKeys obj keys' arr
      end
  end.

(** [for _, v := range obj { if json.Unmarshal(v, &arr) == nil { return
    arr, nil } }] over the entries in the order of this iteration. *)
Fixpoint tryValues (entries : list (bytes * json.Value)) (arr : Slice)
    : list AQIData + Slice :=
  match entries with
  | [] => inr arr
  | (_, v) :: entries' =>
      let '(arr', err) := Unmarshal_raw v arr in
      match err with
      | None => inl (elems arr')
      | Some _ => tryValues entries' arr'
      end
  end.

Definition errCannotDecode : error :=
  ErrNew (str "cannot decode response as expected JSON array").

(** The part of [fetchAQIData] from [var arr []AQIData] on: the body
    [raw] is read as a station array under one of the accepted shapes. *)
Definition decodeResponse (order : MapOrder) (raw : bytes)
    : list AQIData * option error :=
  let arr := nilSlice in
  (* 1) the array itself *)
  let '(arr, err) := Unmarshal_stations raw arr in
  match err with
  | None => (elems arr, None)
  | Some _ =>
      (* 2) an object that wraps it *)
      let '(obj, err) := Unmarshal_object raw in
      match err with
      | None =>
          match tryKeys obj wrapperKeys arr with
          | inl data => (data, None)
          | inr arr =>
              match tryValues (order obj) arr with
              | inl data => (data, None)
              | inr _ => ([], Some errCannotDecode)
              end
          end
      | Some _ => ([], Some errCannotDecode)
      end
  end.

Definition fetchRequest : Request :=
  {| req_Method := str "GET"; req_URL := url; req_ContentType := [];
     req_Body := NoBody |}.

(** [fetchAQIData(ctx, client)].  [http.NewRequestWithContext] does not
    fail on the constant method and URL. *)
Definition fetchAQIData : M (list AQIData * option error) :=
  fun r =>
    (let* reply := client_Do fetchRequest in
     match reply with
     | NetError e => ret ([], Some e)
     | Response StatusCode body readErr =>
         if negb (StatusCode =? 200) then
           ret ([], Some (ErrFetchStatus StatusCode (take 2048 body)))
         else
           match readErr with
           | Some e => ret ([], Some e)
           | None => ret (decodeResponse (range_order world (calls r)) body)
           end
     end) r.

(** ** Missing values and time *)

Definition isMissingValue (s : bytes) : bool :=
  let s := strings.TrimSpace s in
  if eqb_bytes s [] then true
  else
    let l := strings.ToLower unicode_ToLower s in
    if eqb_bytes l (str "-") || eqb_bytes l (str "—")
       || eqb_bytes l (str "na") || eqb_bytes l (str "n/a")
       || eqb_bytes l (str "null")
    then true
    else if strings.Contains s (str "—") || strings.Contains s (str "缺失")
    then true
    else false.

Definition hasMissingData (st : AQIData) : bool :=
  isMissingValue (AQI st) ||
  isMissingValue (PM25 st) ||
  isMissingValue (PM10 st) ||
  isMissingValue (O3 st) ||
  isMissingValue (NO2 st) ||
  isMissingValue (SO2 st) ||
  isMissingValue (CO st).

Definition getMissingFactors (st : AQIData) : list bytes :=
  let missing : list bytes := [] in
  let missing :=
    if isMissingValue (AQI st) then missing ++ [str "AQI"] else missing in
  let missing :=
    if isMissingValue (PM25 st) then missing ++ [str "PM2.5"] else missing in
  let missing :=
    if isMissingValue (PM10 st) then missing ++ [str "PM10"] else missing in
  let missing :=
    if isMissingValue (O3 st) then missing ++ [str "O3"] else missing in
  let missing :=
    if isMissingValue (NO2 st) then missing ++ [str "NO2"] else missing in
  let missing :=
    if isMissingValue (SO2 st) then missing ++ [str "SO2"] else missing in
  let missing :=
    if isMissingValue (CO st) then missing ++ [str "CO"] else missing in
  missing.

Definition layouts : list bytes :=
  [ time.RFC3339;
    str "2006-01-02T15:04:05";
    str "2006-01-02 15:04:05";
    str "2006/01/02 15:04:05";
    str "2006-01-02" ].

(** The loop of [parseTimeFlexible] over the layouts: the first time that
    parses, else the last error. *)
Fixpoint parseTimeFlexible_loop (ls : list bytes) (ts : bytes)
    (lastErr : option error) : time.Time + option error :=
  match ls with
  | [] => inr lastErr
  | l :: ls' =>
      match time.ParseInLocation l ts Local with
      | Some t => inl t
      | None => parseTimeFlexible_loop ls' ts (Some ErrTimeParse)
      end
  end.

Definition parseTimeFlexible (ts : bytes) : time.Time + option error :=
  let ts := strings.TrimSpace ts in
  if eqb_bytes ts [] then inr (Some (ErrNew (str "empty time")))
  else parseTimeFlexible_loop layouts ts None.

Definition formatTimeForAlert (ps : list AQIData) : bytes :=
  match ps with
  | [] => str "Unknown"
  | p0 :: _ =>
      match parseTimeFlexible (TimePoint p0) with
      | inl t => time.Format t (str "2006-01-02 15:04:05")
      | inr _ => TimePoint p0
      end
  end.

Definition formatMissingFactors (factors : list bytes) : bytes :=
  if (length factors =? 0)%nat then str "无"
  else strings.Join factors (str "、").

(** ** Sending alerts *)

(** The check of the application-level error code both senders make on
    the body of a reply with status 200. *)
Definition checkErrcode (channel body : bytes) : option error :=
  let '(respObj, err) := Unmarshal_any body in
  match err with
  | None =>
      match respObj !! str "errcode" with
      | Some ec =>
          match ec with
          | json.AFloat64 fv =>
              if negb (json.isZero fv)
              then Some (ErrWebhookErrcode channel fv body)
              else None
          | _ => None
          end
      | None => None
      end
  | Some _ => None
  end.

(** The text [sendAlertToWechatWork] builds. *)
Definition wechatContent (problemStations : list AQIData) : bytes :=
  let formattedTime := formatTimeForAlert problemStations in
  let markdownContent :=
    str "## 🚨 广州市空气质量监测站点数据异常警报(" ++ formattedTime
    ++ str ")" ++ nl in
  let markdownContent :=
    markdownContent ++ str "以下站点存在数据缺失问题，请及时关注：" ++ nl ++ nl in
  let markdownContent :=
    fold_left
      (fun markdownContent station =>
         let missingFactors := getMissingFactors station in
         markdownContent
         ++ (str "**" ++ PositionName station ++ str "**" ++ nl
             ++ q "<font color='warning'>缺失因子: "
             ++ formatMissingFactors missingFactors ++ str "</font>"
             ++ nl ++ nl))
      problemStations markdownContent in
  markdownContent ++ str "> 请相关技术人员尽快检查设备状态和数据传输链路。".

(** [sendAlertToWechatWork(problemStations, webhookKey, client)].  The
    source drops the error of [http.NewRequest]: when the address does not
    parse, [req] is nil and [req.Header.Set] panics on it, before any
    request is sent. *)
Definition sendAlertToWechatWork (problemStations : list AQIData)
    (webhookKey : bytes) : M Sent :=
  if (length problemStations =? 0)%nat || eqb_bytes webhookKey [] then
    ret (Returned None)
  else
    let webhookURL :=
      str "https://qyapi.weixin.qq.com/cgi-bin/webhook/send?key="
      ++ webhookKey in
    let webhookData :=
      {| wx_MsgType := str "markdown"; wx_Text := [];
         wx_Markdown := {| Content := wechatContent problemStations |} |} in
    if negb (url.Parse_ok webhookURL) then
      emit EvPanic ;; ret Panicked
    else
      let* reply :=
        client_Do {| req_Method := str "POST"; req_URL := webhookURL;
                     req_ContentType := str "application/json";
                     req_Body := WechatBody webhookData |} in
      match reply with
      | NetError e => ret (Returned (Some e))
      | Response StatusCode resp_body _ =>
          let body := take 4096 resp_body in
          if negb (StatusCode =? 200) then
            ret (Returned
                   (Some (ErrWebhookStatus (str "wechat") StatusCode body)))
          else ret (Returned (checkErrcode (str "wechat") body))
      end.

(** The title and the text [sendAlertToDingTalk] builds. *)
Definition dingTalkTitle (problemStations : list AQIData) : bytes :=
  str "广州市空气质量监测站点数据异常警报("
  ++ formatTimeForAlert problemStations ++ str ")".

Definition dingTalkText (problemStations : list AQIData) : bytes :=
  let formattedTime := formatTimeForAlert problemStations in
  let text := str "### 🚨 广州市空气质量监测站点数据异常警报" ++ nl in
  let text := text ++ str "#### " ++ formattedTime ++ nl in
  let text :=
    text ++ str "以下站点存在数据缺失问题，请及时关注：" ++ nl ++ nl in
  let text :=
    fold_left
      (fun text station =>
         let missingFactors := getMissingFactors station in
         text
         ++ (str "- **" ++ PositionName station ++ str "**" ++ nl
             ++ str "  - 缺失因子: "
             ++ formatMissingFactors missingFactors ++ nl ++ nl))
      problemStations text in
  text ++ str "> 请相关技术人员尽快检查设备状态和数据传输链路。".

(** [sendAlertToDingTalk(problemStations, accessToken, client)], with the
    same nil [req] when the address does not parse. *)
Definition sendAlertToDingTalk (problemStations : list AQIData)
    (accessToken : bytes) : M Sent :=
  if (length problemStations =? 0)%nat || eqb_bytes accessToken [] then
    ret (Returned None)
  else
    let webhookURL :=
      str "https://oapi.dingtalk.com/robot/send?access_token="
      ++ accessToken in
    let webhookData :=
      {| dt_MsgType := str "markdown";
         dt_Markdown := {| Title := dingTalkTitle problemStations;
                           Text := dingTalkText problemStations |};
         dt_At := {| AtMobiles := []; AtUserIds := []; IsAtAll := false |}
      |} in
    if negb (url.Parse_ok webhookURL) then
      emit EvPanic ;; ret Panicked
    else
      let* reply :=
        client_Do {| req_Method := str "POST"; req_URL := webhookURL;
                     req_ContentType := str "application/json";
                     req_Body := DingTalkBody webhookData |} in
      match reply with
      | NetError e => ret (Returned (Some e))
      | Response StatusCode resp_body _ =>
          let body := take 4096 resp_body in
          if negb (StatusCode =? 200) then
            ret (Returned
                   (Some (ErrWebhookStatus (str "dingtalk") StatusCode body)))
          else ret (Returned (checkErrcode (str "dingtalk") body))
      end.

(** ** main *)

(** The retry loop of [main]:
    [for i := 0; i < 3; i++ { data, err = fetchAQIData(ctx, client);
    if err == nil { break }; wait := time.Duration(500*(1<<i)) *
    time.Millisecond; time.Sleep(wait) }], entered at [i = 3 - rounds]. *)
Fixpoint fetchLoop (rounds : nat) (i : Z)
    (data : list AQIData) (err : option error)
    : M (list AQIData * option error) :=
  match rounds with
  | O => ret (data, err)
  | S k =>
      let* (data, err) := fetchAQIData in
      match err with
      | None => ret (data, err)
      | Some _ =>
          let wait := 500 * Z.shiftl 1 i * Millisecond in
          Sleep wait ;;
          fetchLoop k (i + 1) data err
      end
  end.

Definition fetchWithRetry : M (list AQIData * option error) :=
  fetchLoop 3 0 [] None.

(** The selection loop of [main]: stations on the ignore list are
    skipped, the others are kept when they miss data. *)
Definition selectStep (problemStations : list AQIData) (station : AQIData)
    : list AQIData :=
  if bool_decide (PositionName station ∈ ignorePositionNames)
  then problemStations
  else if hasMissingData station then problemStations ++ [station]
  else problemStations.

Definition selectProblemStations (data : list AQIData) : list AQIData :=
  fold_left selectStep data [].

(** [main], from the configuration [getConfig] returned.  A sender that
    panics ends the process: what follows its call does not run. *)
Definition main (cfg : Config) : M unit :=
  (if eqb_bytes (WechatWebhookKey cfg) []
      && eqb_bytes (DingTalkAccessToken cfg) []
   then emit (EvPrintln (str "警告: 未配置任何 webhook（环境变量 WEBHOOK_KEY / DINGTALK_ACCESS_TOKEN 或 .env），程序将仅进行数据抓取与检测。"))
   else ret tt) ;;
  let* (data, err) := fetchWithRetry in
  match err with
  | Some e => emit (EvFatal e)
  | None =>
      let problemStations := selectProblemStations data in
      if (length problemStations =? 0)%nat then
        emit (EvPrintln (str "所有（非忽略名单）站点数据正常"))
      else
        let* running :=
          if negb (eqb_bytes (WechatWebhookKey cfg) []) then
            let* sent :=
              sendAlertToWechatWork problemStations (WechatWebhookKey cfg) in
            match sent with
            | Panicked => ret false
            | Returned (Some e) =>
                emit (EvLogError (str "Failed to send alert to WeChat Work") e) ;;
                ret true
            | Returned None =>
                emit (EvPrintln (str "已成功发送警报到企业微信")) ;; ret true
            end
          else ret true in
        if negb running then ret tt
        else
          let* running :=
            if negb (eqb_bytes (DingTalkAccessToken cfg) []) then
              let* sent :=
                sendAlertToDingTalk problemStations (DingTalkAccessToken cfg) in
              match sent with
              | Panicked => ret false
              | Returned (Some e) =>
                  emit (EvLogError (str "Failed to send alert to DingTalk") e) ;;
                  ret true
              | Returned None =>
                  emit (EvPrintln (str "已成功发送警报到钉钉")) ;; ret true
              end
            else ret true in
          if negb running then ret tt
          else emit (EvCount (Z.of_nat (length problemStations)))
  end.

End Program.


(** * Definitions the statements and the proofs use *)

Import utf8.

Definition cont (p : Z) : bool := (0x80 <=? p) && (p <=? 0xBF).
Definition accLo (p0 : Z) : Z :=
  if p0 =? 0xE0 then 0xA0 else if p0 =? 0xF0 then 0x90 else 0x80.
Definition accHi (p0 : Z) : Z :=
  if p0 =? 0xED then 0x9F else if p0 =? 0xF4 then 0x8F else 0xBF.

Definition decodeSpec (n : nat) (p0 p1 p2 p3 : Z) : Z * nat :=
  if p0 <? 0x80 then (p0, 1%nat)
  else if (0xC2 <=? p0) && (p0 <=? 0xDF) then
    if (2 <=? n)%nat && cont p1
    then ((p0 - 0xC0) * 64 + (p1 - 0x80), 2%nat) else (RuneError, 1%nat)
  else if (0xE0 <=? p0) && (p0 <=? 0xEF) then
    if (3 <=? n)%nat && (accLo p0 <=? p1) && (p1 <=? accHi p0) && cont p2
    then ((p0 - 0xE0) * 4096 + (p1 - 0x80) * 64 + (p2 - 0x80), 3%nat)
    else (RuneError, 1%nat)
  else if (0xF0 <=? p0) && (p0 <=? 0xF4) then
    if (4 <=? n)%nat && (accLo p0 <=? p1) && (p1 <=? accHi p0) && cont p2
       && cont p3
    then ((p0 - 0xF0) * 262144 + (p1 - 0x80) * 4096 + (p2 - 0x80) * 64
          + (p3 - 0x80), 4%nat)
    else (RuneError, 1%nat)
  else (RuneError, 1%nat).

(** Code sequences of the UTF-8 encodings of the white-space runes. *)
Definition wsCodes (ps : list Z) : Prop :=
  match ps with
  | [a] => a = 0x09 \/ a = 0x0A \/ a = 0x0B \/ a = 0x0C \/ a = 0x0D \/ a = 0x20
  | [a; b] => a = 0xC2 /\ (b = 0x85 \/ b = 0xA0)
  | [a; b; c] =>
      (a = 0xE1 /\ b = 0x9A /\ c = 0x80)
      \/ (a = 0xE2 /\ b = 0x80
          /\ (0x80 <= c <= 0x8A \/ c = 0xA8 \/ c = 0xA9 \/ c = 0xAF))
      \/ (a = 0xE2 /\ b = 0x81 /\ c = 0x9F)
      \/ (a = 0xE3 /\ b = 0x80 /\ c = 0x80)
  | _ => False
  end.

Definition spaceChunk (w : bytes) : Prop := wsCodes (map code w).


(** The two markers [isMissingValue] searches for. *)
Definition needle (n : bytes) : Prop := n = str "—" \/ n = str "缺失".


(** The seven fields the missing-value checks read, with the names they
    are reported under, in reporting order. *)
Definition checkedFields (st : AQIData) : list (bytes * bytes) :=
  [ (str "AQI", AQI st); (str "PM2.5", PM25 st); (str "PM10", PM10 st);
    (str "O3", O3 st); (str "NO2", NO2 st); (str "SO2", SO2 st);
    (str "CO", CO st) ].

Definition factorNames : list bytes :=
  [str "AQI"; str "PM2.5"; str "PM10"; str "O3"; str "NO2"; str "SO2"; str "CO"].

(** The six pollutant fields of a station. *)
Definition pollutantFields (st : AQIData) : list bytes :=
  [O3 st; NO2 st; PM10 st; PM25 st; SO2 st; CO st].

(** The tokens that, once lower-cased, stand for a missing value. *)
Definition missingTokens : list bytes :=
  [str "-"; str "—"; str "na"; str "n/a"; str "null"].

(** A station whose six pollutant readings are numbers and whose AQI is
    empty. *)
Definition stationWithoutAQI : AQIData :=
  {| PositionName := str "S1"; Quality := str "优"; AQI := [];
     O3 := str "35"; NO2 := str "35"; PM10 := str "35"; PM25 := str "35";
     SO2 := str "35"; CO := str "35"; Latitude := []; Longitude := [];
     TimePoint := str "2024-03-01T08:00:00"; StationCode := [];
     PrimaryPollutant := [] |}.

(** The texts of both channels with the rendering of the factor list left
    open. *)
Definition wechatContentWith (render : list bytes -> bytes)
    (formattedTime : bytes) (factors : AQIData -> list bytes)
    (problemStations : list AQIData) : bytes :=
  fold_left
    (fun markdownContent station =>
       markdownContent
       ++ (str "**" ++ PositionName station ++ str "**" ++ nl
           ++ q "<font color='warning'>缺失因子: "
           ++ render (factors station) ++ str "</font>" ++ nl ++ nl))
    problemStations
    ((str "## 🚨 广州市空气质量监测站点数据异常警报(" ++ formattedTime
      ++ str ")" ++ nl)
     ++ str "以下站点存在数据缺失问题，请及时关注：" ++ nl ++ nl)
  ++ str "> 请相关技术人员尽快检查设备状态和数据传输链路。".

Definition dingTalkTextWith (render : list bytes -> bytes)
    (formattedTime : bytes) (factors : AQIData -> list bytes)
    (problemStations : list AQIData) : bytes :=
  fold_left
    (fun text station =>
       text
       ++ (str "- **" ++ PositionName station ++ str "**" ++ nl
           ++ str "  - 缺失因子: " ++ render (factors station) ++ nl ++ nl))
    problemStations
    (((str "### 🚨 广州市空气质量监测站点数据异常警报" ++ nl)
      ++ str "#### " ++ formattedTime ++ nl)
     ++ str "以下站点存在数据缺失问题，请及时关注：" ++ nl ++ nl)
  ++ str "> 请相关技术人员尽快检查设备状态和数据传输链路。".


(** What the [n]-th request of a run brings back when it is a fetch: the
    result of [fetchAQIData] as a function of the environment alone. *)
Definition attempt (w : World) (n : nat) : list AQIData * option error :=
  match http_do w n fetchRequest with
  | NetError e => ([], Some e)
  | Response StatusCode body readErr =>
      if negb (StatusCode =? 200) then
        ([], Some (ErrFetchStatus StatusCode (take 2048 body)))
      else
        match readErr with
        | Some e => ([], Some e)
        | None => decodeResponse (range_order w n) body
        end
  end.

Definition failed (w : World) (n : nat) : bool :=
  match snd (attempt w n) with Some _ => true | None => false end.

(** The run [r] after the events [evs], [n] of them requests. *)
Definition after (r : Run) (n : nat) (evs : list Event) : Run :=
  {| calls := calls r + n; trace := trace r ++ evs |}.

(** The number of requests among some events. *)
Definition requests (evs : list Event) : nat :=
  length (List.filter (fun e => match e with EvDo _ => true | _ => false end) evs).

(** An environment whose server answers every request with status 200 and
    a body that is not JSON. *)
Definition garbageWorld : World :=
  {| http_do := fun _ _ => Response 200 (str "garbage") None;
     range_order := fun _ => map_to_list |}.

(** An environment whose server is down for the first two requests and
    answers the third with one station. *)
Definition flakyWorld : World :=
  {| http_do := fun n _ =>
       match n with
       | 0%nat | 1%nat => NetError (ErrNet 1)
       | _ => Response 200 (q "[{'PositionName':'X','AQI':'—','O3':'35'}]") None
       end;
     range_order := fun _ => map_to_list |}.

(** An environment that fails every request with its own error. *)
Definition deadWorld : World :=
  {| http_do := fun n _ => NetError (ErrNet (Z.of_nat n));
     range_order := fun _ => map_to_list |}.


(** A document decodes as a station array when [json.Unmarshal] into a
    [[]AQIData] saves no type error for it. *)
Definition decodes (v : json.Value) : bool :=
  negb (snd (unmarshalStations v nilSlice)).

(** The map [json.Unmarshal] builds from the members of an object. *)
Definition objectOf (members : list (bytes * json.Value))
    : gmap bytes json.Value :=
  fold_left (fun m kv => <[fst kv := snd kv]> m) members ∅.


(** The decoder in the words of its specification: the payload itself if
    it decodes; else, for an object, the value of the first wrapper key in
    the priority order that is present and decodes; else the first of the
    remaining values, in the order of the iteration, that decodes. *)
Definition decoderChoice (order : MapOrder) (raw : bytes)
    : option json.Value :=
  match json.parse raw with
  | json.Ok v =>
      if decodes v then Some v
      else
        match v with
        | json.Object members =>
            let obj := objectOf members in
            match List.find decodes (omap (fun k => obj !! k) wrapperKeys) with
            | Some c => Some c
            | None =>
                List.find decodes
                  (map snd (List.filter
                              (fun kv => negb (bool_decide (fst kv ∈ wrapperKeys)))
                              (order obj)))
            end
        | _ => None
        end
  | _ => None
  end.

(** A payload with two array-valued members under keys that are not
    wrapper keys. *)
Definition twoArrays : bytes :=
  q "{'a':[{'PositionName':'X'}],'b':[{'PositionName':'Y'}]}".

(** Two orders a [range] over a map may take. *)
Definition orderForward : MapOrder := fun m => map_to_list m.
Definition orderBackward : MapOrder := fun m => reverse (map_to_list m).

(** A payload whose first wrapper key holds an array with a type error and
    whose second holds a well-typed array. *)
Definition wrappedTwice : bytes :=
  q "{'Data':[{'PositionName':'A','AQI':5}],'data':[{'O3':'—'}]}".

(** A payload like it, with [null] for the station of the second
    array. *)
Definition wrappedNull : bytes :=
  q "{'Data':[{'PositionName':'A','AQI':5}],'data':[null]}".

(** The value of a payload's member, when the payload is an object. *)
Definition memberOf (raw key : bytes) : option json.Value :=
  match json.parse raw with
  | json.Ok (json.Object members) => objectOf members !! key
  | _ => None
  end.

(** The addresses the senders post to. *)
Definition wechatURL (key : bytes) : bytes :=
  str "https://qyapi.weixin.qq.com/cgi-bin/webhook/send?key=" ++ key.

Definition dingTalkURL (token : bytes) : bytes :=
  str "https://oapi.dingtalk.com/robot/send?access_token=" ++ token.

(** The bytes read of a reply carry an application-level error: they are
    a JSON object in which no number lies outside the range of float64 and
    whose member [errcode], the last of that name, is a number that is not
    zero as a float64. *)
Definition appError (read : bytes) : Prop :=
  exists members lit,
    json.parse read = json.Ok (json.Object members)
    /\ json.hasRangeError (json.Object members) = false
    /\ objectOf members !! str "errcode" = Some (json.Number lit)
    /\ json.isZero (json.decimalOf lit) = false.

(** A body reports an error code in the plain sense: it is a JSON object
    with a member [errcode] that is a number other than zero. *)
Definition reportsError (body : bytes) : Prop :=
  exists members lit,
    json.parse body = json.Ok (json.Object members)
    /\ In (str "errcode", json.Number lit) members
    /\ json.mant (json.decimalOf lit) <> 0.

(** An environment that gives the same reply to every request. *)
Definition replyWorld (reply : Reply) : World :=
  {| http_do := fun _ _ => reply; range_order := fun _ => map_to_list |}.

(** A reply body of 4130 bytes that reports the error code 40001. *)
Definition longErrorBody : bytes :=
  q "{'errcode':40001,'errmsg':'" ++ repeat (byte_of 0x61) 4100 ++ q "'}".

(** A short reply body that reports the error code 93000. *)
Definition shortErrorBody : bytes := q "{'errcode':93000,'errmsg':'invalid'}".

(** A reply body whose error code is 1 and that holds a number no float64
    can hold; one whose error code is too small for a float64; one that
    names the error code twice. *)
Definition rangeErrorBody : bytes := q "{'errcode':1,'x':1e999}".
Definition tinyErrorBody : bytes := q "{'errcode':1e-400}".
Definition twiceErrorBody : bytes := q "{'errcode':1,'errcode':0}".

(** Both senders return no error when the reply to their request has
    status 200 and the given body. *)
Definition bothSucceed (body : bytes) : Prop :=
  let w := replyWorld (Response 200 body None) in
  forall tbl Local,
    fst (sendAlertToWechatWork tbl Local w [stationWithoutAQI] (str "key") Run0)
    = Returned None
    /\ fst (sendAlertToDingTalk tbl Local w [stationWithoutAQI] (str "token") Run0)
       = Returned None.

(** An environment whose server reports a station with missing readings,
    whose WeChat Work webhook then answers with status 500, and whose
    DingTalk webhook accepts. *)
Definition wechatDownWorld : World :=
  {| http_do := fun n _ =>
       match n with
       | 0%nat => Response 200 (q "[{'PositionName':'X','AQI':'—','O3':'35'}]") None
       | 1%nat => Response 500 (str "busy") None
       | _ => Response 200 (q "{'errcode':0,'errmsg':'ok'}") None
       end;
     range_order := fun _ => map_to_list |}.






(** The request [sendAlertToWechatWork] hands to [client.Do]. *)
Definition wechatRequest (tbl : Z -> Z) (Local : time.Location)
    (ps : list AQIData) (key : bytes) : Request :=
  {| req_Method := str "POST";
     req_URL := wechatURL key;
     req_ContentType := str "application/json";
     req_Body :=
       WechatBody {| wx_MsgType := str "markdown"; wx_Text := [];
                     wx_Markdown := {| Content := wechatContent tbl Local ps |}
                  |} |}.

(** The request [sendAlertToDingTalk] hands to [client.Do]. *)
Definition dingTalkRequest (tbl : Z -> Z) (Local : time.Location)
    (ps : list AQIData) (token : bytes) : Request :=
  {| req_Method := str "POST";
     req_URL := dingTalkURL token;
     req_ContentType := str "application/json";
     req_Body :=
       DingTalkBody
         {| dt_MsgType := str "markdown";
            dt_Markdown := {| Title := dingTalkTitle Local ps;
                              Text := dingTalkText tbl Local ps |};
            dt_At := {| AtMobiles := []; AtUserIds := []; IsAtAll := false |}
         |} |}.


(** The requests among some events that post to a webhook, and those
    that fetch. *)
Definition isPost (e : Event) : bool :=
  match e with
  | EvDo req => eqb_bytes (req_Method req) (str "POST")
  | _ => false
  end.

Definition isGet (e : Event) : bool :=
  match e with
  | EvDo req => eqb_bytes (req_Method req) (str "GET")
  | _ => false
  end.

(** The block of the WeChat text for one station, and of the DingTalk
    text. *)
Definition wechatBlock (tbl : Z -> Z) (station : AQIData) : bytes :=
  str "**" ++ PositionName station ++ str "**" ++ nl
  ++ q "<font color='warning'>缺失因子: "
  ++ formatMissingFactors (getMissingFactors tbl station) ++ str "</font>"
  ++ nl ++ nl.

Definition dingTalkBlock (tbl : Z -> Z) (station : AQIData) : bytes :=
  str "- **" ++ PositionName station ++ str "**" ++ nl
  ++ str "  - 缺失因子: "
  ++ formatMissingFactors (getMissingFactors tbl station) ++ nl ++ nl.

(** What [main] prints or logs at its start when no webhook is
    configured. *)
Definition startEvents (cfg : Config) : list Event :=
  if eqb_bytes (WechatWebhookKey cfg) []
     && eqb_bytes (DingTalkAccessToken cfg) []
  then [EvPrintln (str "警告: 未配置任何 webhook（环境变量 WEBHOOK_KEY / DINGTALK_ACCESS_TOKEN 或 .env），程序将仅进行数据抓取与检测。")]
  else [].

(** What [main] prints or logs after a dispatch. *)
Definition reportEvent (what ok : bytes) (outcome : option error) : Event :=
  match outcome with
  | Some e => EvLogError what e
  | None => EvPrintln ok
  end.

(** The number of credentials a configuration holds. *)
Definition channels (cfg : Config) : nat :=
  (if eqb_bytes (WechatWebhookKey cfg) [] then 0 else 1)
  + (if eqb_bytes (DingTalkAccessToken cfg) [] then 0 else 1).

(** A configuration with both credentials, and one with none. *)
Definition bothChannels : Config :=
  {| WechatWebhookKey := str "key"; DingTalkAccessToken := str "token";
     HTTPClientTimeoutSec := 10 |}.

Definition noChannel : Config :=
  {| WechatWebhookKey := []; DingTalkAccessToken := [];
     HTTPClientTimeoutSec := 10 |}.

(** A configuration whose WeChat Work key holds a line feed, and one
    whose DingTalk token ends in a fragment with a stray per cent sign. *)
Definition brokenKey : Config :=
  {| WechatWebhookKey := str "ke" ++ nl ++ str "y";
     DingTalkAccessToken := str "token"; HTTPClientTimeoutSec := 10 |}.

Definition brokenToken : Config :=
  {| WechatWebhookKey := str "key"; DingTalkAccessToken := str "token#50%";
     HTTPClientTimeoutSec := 10 |}.

(** The run of [main] from a call of [sendAlertToDingTalk] on: the
    panic, or the request, the line that reports its outcome and the
    count. *)
Definition dingTalkRun (tbl : Z -> Z) (Local : time.Location) (w : World)
    (cfg : Config) (ps : list AQIData) (r2 : Run) : Run :=
  if eqb_bytes (DingTalkAccessToken cfg) [] then
    after r2 0 [EvCount (Z.of_nat (length ps))]
  else
    match fst (sendAlertToDingTalk tbl Local w ps (DingTalkAccessToken cfg) r2)
    with
    | Panicked => after r2 0 [EvPanic]
    | Returned err =>
        after r2 1
          [EvDo (dingTalkRequest tbl Local ps (DingTalkAccessToken cfg));
           reportEvent (str "Failed to send alert to DingTalk")
             (str "已成功发送警报到钉钉") err;
           EvCount (Z.of_nat (length ps))]
    end.

(** The run of [main] after the fetch, for the stations [ps] it
    selected: for each channel that has a credential, WeChat Work first,
    the request and a line that reports its outcome, then the count; a
    sender that panics ends the run. *)
Definition alertRun (tbl : Z -> Z) (Local : time.Location) (w : World)
    (cfg : Config) (ps : list AQIData) (r1 : Run) : Run :=
  if eqb_bytes (WechatWebhookKey cfg) [] then dingTalkRun tbl Local w cfg ps r1
  else
    match fst (sendAlertToWechatWork tbl Local w ps (WechatWebhookKey cfg) r1)
    with
    | Panicked => after r1 0 [EvPanic]
    | Returned err =>
        dingTalkRun tbl Local w cfg ps
          (after r1 1
             [EvDo (wechatRequest tbl Local ps (WechatWebhookKey cfg));
              reportEvent (str "Failed to send alert to WeChat Work")
                (str "已成功发送警报到企业微信") err])
    end.

(** The fetch of a run of [main], and the stations it goes on to
    select. *)
Definition fetched (w : World) (cfg : Config)
    : (list AQIData * option error) * Run :=
  fetchWithRetry w (after Run0 0 (startEvents cfg)).

Definition problems (tbl : Z -> Z) (w : World) (cfg : Config) : list AQIData :=
  selectProblemStations tbl (fst (fst (fetched w cfg))).

(** The line [main] prints when no station is selected. *)
Definition allNormal : Event :=
  EvPrintln (str "所有（非忽略名单）站点数据正常").

(** An environment whose server reports one station, on the ignore list,
    without its AQI. *)
Definition ignoredWorld : World :=
  replyWorld
    (Response 200 (q "[{'PositionName':'帽峰山森林公园','AQI':'—'}]") None).

(** A document that holds no station: [null], or the empty array. *)
Definition emptyDoc (v : json.Value) : Prop := v = json.Null \/ v = json.Array [].

(** A reply body without stations: such a document itself, or an object
    that holds one under the first wrapper key. *)
Definition emptyPayload (body : bytes) : Prop :=
  exists v, json.parse body = json.Ok v
    /\ (emptyDoc v
        \/ exists members d, v = json.Object members
             /\ objectOf members !! str "Data" = Some d /\ emptyDoc d).

(** An environment whose server answers with an object whose data is
    [null]. *)
Definition nullWorld : World :=
  replyWorld (Response 200 (q "{'Success':true,'Data':null}") None).

(** The value of a field of a station. *)
Definition getField (f : Field) (st : AQIData) : bytes :=
  match f with
  | FPositionName => PositionName st
  | FQuality => Quality st
  | FAQI => AQI st
  | FO3 => O3 st
  | FNO2 => NO2 st
  | FPM10 => PM10 st
  | FPM25 => PM25 st
  | FSO2 => SO2 st
  | FCO => CO st
  | FLatitude => Latitude st
  | FLongitude => Longitude st
  | FTimePoint => TimePoint st
  | FStationCode => StationCode st
  | FPrimaryPollutant => PrimaryPollutant st
  end.

(** The object that gives every field of a station as a string, under
    the key [keyOf] chooses for the field. *)
Definition stationDoc (keyOf : Field -> bytes) (st : AQIData) : json.Value :=
  json.Object
    (map (fun f => (keyOf f, json.String (getField f st))) allFields).

(** The name of a field in lower case. *)
Definition lowerName (f : Field) : bytes :=
  map strings.lowerASCII (fieldName f).

(** A decimal reading: digits and periods, at least one byte. *)
Definition isDecimal (s : bytes) : Prop :=
  s <> []
  /\ Forall (fun c => (0x30 <= code c <= 0x39) \/ code c = 0x2E) s.

(** A station whose seven readings are numbers. *)
Definition stationComplete : AQIData :=
  {| PositionName := str "S2"; Quality := str "优"; AQI := str "42";
     O3 := str "35"; NO2 := str "12"; PM10 := str "40"; PM25 := str "18.5";
     SO2 := str "6"; CO := str "0.7"; Latitude := []; Longitude := [];
     TimePoint := str "2024-03-01T08:00:00"; StationCode := [];
     PrimaryPollutant := [] |}.


(** * Properties *)


Lemma code_range c : 0 <= code c < 256.
Proof.
  unfold code. pose proof (N_ascii_bounded c) as H. lia.
Qed.

Lemma code_inj c d : code c = code d -> c = d.
Proof.
  unfold code. intros H. apply N2Z.inj in H.
  rewrite <- (ascii_N_embedding c), <- (ascii_N_embedding d). now rewrite H.
Qed.

Lemma ascii_eqb_code c d : Ascii.eqb c d = (code c =? code d).
Proof.
  destruct (Ascii.eqb_spec c d) as [->|Hne].
  - now rewrite Z.eqb_refl.
  - symmetry. apply Z.eqb_neq. intros H. now apply Hne, code_inj.
Qed.

Lemma lor_add x b k :
  0 <= k -> 0 <= x -> x mod 2 ^ k = 0 -> 0 <= b < 2 ^ k -> Z.lor x b = x + b.
Proof.
  intros Hk Hx Hmod Hb. symmetry. apply Z.add_nocarry_lor.
  apply Z.bits_inj'. intros n Hn. rewrite Z.land_spec, Z.bits_0.
  destruct (Z.lt_ge_cases n k) as [Hlt|Hge].
  - assert (Hx' : x = x / 2 ^ k * 2 ^ k).
    { pose proof (Z.div_mod x (2 ^ k) ltac:(lia)). lia. }
    rewrite Hx', Z.mul_pow2_bits_low by lia. reflexivity.
  - apply andb_false_intro2.
    destruct (Z.eq_dec b 0) as [->|Hb0]; [apply Z.bits_0|].
    apply Z.bits_above_log2; [lia|].
    assert (Z.log2 b < k) by (apply Z.log2_lt_pow2; lia). lia.
Qed.

Lemma land_mask p m k : m = 2 ^ k - 1 -> 0 <= k -> Z.land p m = p mod 2 ^ k.
Proof.
  intros -> Hk. replace (2 ^ k - 1) with (Z.ones k) by (rewrite Z.ones_equiv; lia).
  apply Z.land_ones. lia.
Qed.

Import utf8.

Lemma bits2 p0 p1 : 0xC0 <= p0 <= 0xDF -> 0x80 <= p1 <= 0xBF ->
  Z.lor (Z.shiftl (Z.land p0 mask2) 6) (Z.land p1 maskx) = (p0 - 0xC0) * 64 + (p1 - 0x80).
Proof.
  intros H0 H1. unfold mask2, maskx.
  rewrite (land_mask p0 31 5 eq_refl), (land_mask p1 63 6 eq_refl) by lia.
  rewrite Z.shiftl_mul_pow2 by lia.
  assert (p0 mod 2 ^ 5 = p0 - 0xC0).
  { symmetry. apply (Z.mod_unique_pos _ _ 6). lia. lia. }
  assert (p1 mod 2 ^ 6 = p1 - 0x80).
  { symmetry. apply (Z.mod_unique_pos _ _ 2). lia. lia. }
  rewrite H, H2. rewrite (lor_add _ _ 6); try lia.
  rewrite Z.mod_mul; lia.
Qed.

Lemma bits3 p0 p1 p2 : 0xE0 <= p0 <= 0xEF -> 0x80 <= p1 <= 0xBF -> 0x80 <= p2 <= 0xBF ->
  Z.lor (Z.lor (Z.shiftl (Z.land p0 mask3) 12) (Z.shiftl (Z.land p1 maskx) 6)) (Z.land p2 maskx)
  = (p0 - 0xE0) * 4096 + (p1 - 0x80) * 64 + (p2 - 0x80).
Proof.
  intros H0 H1 H2. unfold mask3, maskx.
  rewrite (land_mask p0 15 4 eq_refl), (land_mask p1 63 6 eq_refl), (land_mask p2 63 6 eq_refl) by lia.
  rewrite !Z.shiftl_mul_pow2 by lia.
  assert (E0 : p0 mod 2 ^ 4 = p0 - 0xE0).
  { symmetry. apply (Z.mod_unique_pos _ _ 14). lia. lia. }
  assert (E1 : p1 mod 2 ^ 6 = p1 - 0x80).
  { symmetry. apply (Z.mod_unique_pos _ _ 2). lia. lia. }
  assert (E2 : p2 mod 2 ^ 6 = p2 - 0x80).
  { symmetry. apply (Z.mod_unique_pos _ _ 2). lia. lia. }
  rewrite E0, E1, E2.
  rewrite (lor_add ((p0 - 224) * 2 ^ 12) _ 12); try lia.
  2:{ rewrite Z.mod_mul; lia. }
  rewrite (lor_add _ _ 6); try lia.
  replace ((p0 - 224) * 2 ^ 12 + (p1 - 128) * 2 ^ 6) with (((p0 - 224) * 2 ^ 6 + (p1 - 128)) * 2 ^ 6) by lia.
  rewrite Z.mod_mul; lia.
Qed.

Lemma bits4 p0 p1 p2 p3 : 0xF0 <= p0 <= 0xF7 -> 0x80 <= p1 <= 0xBF -> 0x80 <= p2 <= 0xBF -> 0x80 <= p3 <= 0xBF ->
  Z.lor (Z.lor (Z.lor (Z.shiftl (Z.land p0 mask4) 18) (Z.shiftl (Z.land p1 maskx) 12)) (Z.shiftl (Z.land p2 maskx) 6)) (Z.land p3 maskx)
  = (p0 - 0xF0) * 262144 + (p1 - 0x80) * 4096 + (p2 - 0x80) * 64 + (p3 - 0x80).
Proof.
  intros H0 H1 H2 H3. unfold mask4, maskx.
  rewrite (land_mask p0 7 3 eq_refl), (land_mask p1 63 6 eq_refl), (land_mask p2 63 6 eq_refl), (land_mask p3 63 6 eq_refl) by lia.
  rewrite !Z.shiftl_mul_pow2 by lia.
  assert (E0 : p0 mod 2 ^ 3 = p0 - 0xF0).
  { symmetry. apply (Z.mod_unique_pos _ _ 30). lia. lia. }
  assert (E1 : p1 mod 2 ^ 6 = p1 - 0x80).
  { symmetry. apply (Z.mod_unique_pos _ _ 2). lia. lia. }
  assert (E2 : p2 mod 2 ^ 6 = p2 - 0x80).
  { symmetry. apply (Z.mod_unique_pos _ _ 2). lia. lia. }
  assert (E3 : p3 mod 2 ^ 6 = p3 - 0x80).
  { symmetry. apply (Z.mod_unique_pos _ _ 2). lia. lia. }
  rewrite E0, E1, E2, E3.
  rewrite (lor_add ((p0 - 240) * 2 ^ 18) _ 18); try lia.
  2:{ rewrite Z.mod_mul; lia. }
  rewrite (lor_add _ ((p2 - 128) * 2 ^ 6) 12); try lia.
  2:{ replace ((p0 - 240) * 2 ^ 18 + (p1 - 128) * 2 ^ 12) with (((p0 - 240) * 2 ^ 6 + (p1 - 128)) * 2 ^ 12) by lia.
      rewrite Z.mod_mul; lia. }
  rewrite (lor_add _ _ 6); try lia.
  replace ((p0 - 240) * 2 ^ 18 + (p1 - 128) * 2 ^ 12 + (p2 - 128) * 2 ^ 6) with (((p0 - 240) * 2 ^ 12 + (p1 - 128) * 2 ^ 6 + (p2 - 128)) * 2 ^ 6) by lia.
  rewrite Z.mod_mul; lia.
Qed.

Lemma first_cases p0 : 0 <= p0 < 256 ->
  (p0 < 0x80 /\ first p0 = as_) \/
  ((0x80 <= p0 < 0xC2 \/ 0xF5 <= p0) /\ first p0 = xx) \/
  (0xC2 <= p0 <= 0xDF /\ first p0 = s1) \/
  (p0 = 0xE0 /\ first p0 = s2) \/
  ((0xE1 <= p0 <= 0xEC \/ 0xEE <= p0 <= 0xEF) /\ first p0 = s3) \/
  (p0 = 0xED /\ first p0 = s4) \/
  (p0 = 0xF0 /\ first p0 = s5) \/
  (0xF1 <= p0 <= 0xF3 /\ first p0 = s6) \/
  (p0 = 0xF4 /\ first p0 = s7).
Proof.
  intros H. unfold first.
  repeat match goal with
  | |- context [?a <? ?b] => destruct (Z.ltb_spec a b)
  | |- context [?a =? ?b] => destruct (Z.eqb_spec a b)
  end; lia.
Qed.

Ltac ev t := let v := eval vm_compute in t in change t with v.

Ltac split_tests :=
  repeat (match goal with
  | |- context [?a =? ?b] => destruct (Z.eqb_spec a b)
  | |- context [(?a <? ?b)%nat] => destruct (Nat.ltb_spec a b)
  | |- context [(?a <=? ?b)%nat] => destruct (Nat.leb_spec a b)
  | |- context [?a <? ?b] => destruct (Z.ltb_spec a b)
  | |- context [?a <=? ?b] => destruct (Z.leb_spec a b)
  end; try lia; cbn [orb andb negb fst snd]).

Lemma decodeAt_spec n p0 p1 p2 p3 :
  0 <= p0 < 256 -> 0 <= p1 < 256 -> 0 <= p2 < 256 -> 0 <= p3 < 256 ->
  decodeAt n p0 p1 p2 p3 = decodeSpec n p0 p1 p2 p3.
Proof.
  intros H0 H1 H2 H3. unfold decodeAt.
  destruct (first_cases p0 H0) as
    [[Hr Hf]|[[Hr Hf]|[[Hr Hf]|[[Hr Hf]|[[Hr Hf]|[[Hr Hf]|[[Hr Hf]|[[Hr Hf]|[Hr Hf]]]]]]]]];
    rewrite Hf; cbv zeta.
  - ev (as_ <=? as_). ev (as_ =? xx). cbv iota.
    unfold decodeSpec. split_tests; reflexivity.
  - ev (as_ <=? xx). ev (xx =? xx). cbv iota.
    unfold decodeSpec, cont. split_tests; reflexivity.
  - ev (as_ <=? s1). ev (Z.to_nat (Z.land s1 7)).
    ev (acceptRanges (Z.shiftr s1 4)). cbv iota. cbn [fst snd].
    ev (2 <=? 2)%nat. unfold decodeSpec, cont. split_tests; try reflexivity;
    rewrite bits2 by lia; reflexivity.
  - ev (as_ <=? s2). ev (Z.to_nat (Z.land s2 7)).
    ev (acceptRanges (Z.shiftr s2 4)). cbv iota. cbn [fst snd].
    ev (3 <=? 2)%nat. ev (3 <=? 3)%nat. unfold locb, hicb.
    unfold decodeSpec, cont, accLo, accHi. split_tests; try reflexivity;
    rewrite bits3 by lia; reflexivity.
  - ev (as_ <=? s3). ev (Z.to_nat (Z.land s3 7)).
    ev (acceptRanges (Z.shiftr s3 4)). cbv iota. cbn [fst snd].
    ev (3 <=? 2)%nat. ev (3 <=? 3)%nat. unfold locb, hicb.
    unfold decodeSpec, cont, accLo, accHi. split_tests; try reflexivity;
    rewrite bits3 by lia; reflexivity.
  - ev (as_ <=? s4). ev (Z.to_nat (Z.land s4 7)).
    ev (acceptRanges (Z.shiftr s4 4)). cbv iota. cbn [fst snd].
    ev (3 <=? 2)%nat. ev (3 <=? 3)%nat. unfold locb, hicb.
    unfold decodeSpec, cont, accLo, accHi. split_tests; try reflexivity;
    rewrite bits3 by lia; reflexivity.
  - ev (as_ <=? s5). ev (Z.to_nat (Z.land s5 7)).
    ev (acceptRanges (Z.shiftr s5 4)). cbv iota. cbn [fst snd].
    ev (4 <=? 2)%nat. ev (4 <=? 3)%nat. unfold locb, hicb.
    unfold decodeSpec, cont, accLo, accHi. split_tests; try reflexivity;
    rewrite bits4 by lia; reflexivity.
  - ev (as_ <=? s6). ev (Z.to_nat (Z.land s6 7)).
    ev (acceptRanges (Z.shiftr s6 4)). cbv iota. cbn [fst snd].
    ev (4 <=? 2)%nat. ev (4 <=? 3)%nat. unfold locb, hicb.
    unfold decodeSpec, cont, accLo, accHi. split_tests; try reflexivity;
    rewrite bits4 by lia; reflexivity.
  - ev (as_ <=? s7). ev (Z.to_nat (Z.land s7 7)).
    ev (acceptRanges (Z.shiftr s7 4)). cbv iota. cbn [fst snd].
    ev (4 <=? 2)%nat. ev (4 <=? 3)%nat. unfold locb, hicb.
    unfold decodeSpec, cont, accLo, accHi. split_tests; try reflexivity;
    rewrite bits4 by lia; reflexivity.
Qed.

Lemma IsSpace_cases r : unicode.IsSpace r = true ->
  r = 0x09 \/ r = 0x0A \/ r = 0x0B \/ r = 0x0C \/ r = 0x0D \/ r = 0x20
  \/ r = 0x85 \/ r = 0xA0 \/ r = 0x1680 \/ 0x2000 <= r <= 0x200A
  \/ r = 0x2028 \/ r = 0x2029 \/ r = 0x202F \/ r = 0x205F \/ r = 0x3000.
Proof.
  unfold unicode.IsSpace. intros H.
  repeat match type of H with
  | context [?a =? ?b] => destruct (Z.eqb_spec a b); [lia|]
  | context [?a <=? ?b] => destruct (Z.leb_spec a b)
  end; cbn in H; try discriminate; lia.
Qed.

Lemma DecodeRune_spec c0 rest :
  let s := c0 :: rest in
  DecodeRuneInString s
  = decodeSpec (length s) (byteAt s 0) (byteAt s 1) (byteAt s 2) (byteAt s 3).
Proof.
  intros s. unfold DecodeRuneInString, s.
  apply decodeAt_spec; unfold byteAt; apply code_range.
Qed.

Lemma decode_size_pos s r w :
  s <> [] -> DecodeRuneInString s = (r, w) -> (1 <= w <= length s)%nat.
Proof.
  intros Hs H. destruct s as [|c0 rest]; [congruence|].
  rewrite DecodeRune_spec in H. unfold decodeSpec in H.
  repeat match type of H with
  | context [if ?b then _ else _] => destruct b eqn:?
  end; injection H as <- <-; cbn [length]; try lia;
  repeat match goal with
  | E : _ && _ = true |- _ => apply andb_prop in E; destruct E
  | E : (_ <=? _)%nat = true |- _ => apply Nat.leb_le in E
  end; cbn [length] in *; lia.
Qed.

Ltac bool_hyps :=
  repeat match goal with
  | E : _ && _ = true |- _ => apply andb_prop in E; destruct E
  | E : (_ <=? _)%nat = true |- _ => apply Nat.leb_le in E
  | E : (_ <=? _) = true |- _ => apply Z.leb_le in E
  | E : (_ <? _) = true |- _ => apply Z.ltb_lt in E
  | E : (_ <? _) = false |- _ => apply Z.ltb_ge in E
  | E : (_ =? _) = true |- _ => apply Z.eqb_eq in E
  | E : (_ =? _) = false |- _ => apply Z.eqb_neq in E
  end.

Lemma decode_space s r w :
  DecodeRuneInString s = (r, w) -> unicode.IsSpace r = true ->
  (1 <= w <= length s)%nat /\ spaceChunk (take w s).
Proof.
  intros H Hsp.
  destruct s as [|c0 rest].
  { cbn in H. injection H as <- <-. discriminate. }
  split; [eapply decode_size_pos; eauto; discriminate|].
  rewrite DecodeRune_spec in H. unfold decodeSpec, cont, accLo, accHi in H.
  pose proof (code_range c0) as R0.
  apply IsSpace_cases in Hsp.
  repeat match type of H with
  | context [if ?b then _ else _] => destruct b eqn:?
  end; injection H as <- <-; bool_hyps; unfold RuneError in *; try lia.
  - (* one byte *)
    unfold spaceChunk. cbn [take firstn]. rewrite take_0. cbn [map wsCodes].
    unfold byteAt in *. cbn [nth] in *. lia.
  - (* two bytes *)
    destruct rest as [|c1 rest]; [cbn [length] in *; lia|].
    unfold spaceChunk. cbn [take firstn]. rewrite take_0. cbn [map wsCodes].
    unfold byteAt in *; cbn [nth] in *. lia.
  - (* three bytes *)
    destruct rest as [|c1 [|c2 rest]]; [cbn [length] in *; lia..|].
    unfold spaceChunk. cbn [take firstn]. rewrite take_0. cbn [map wsCodes].
    unfold byteAt in *; cbn [nth] in *.
    pose proof (code_range c1). pose proof (code_range c2).
    repeat match goal with
    | E : context [if ?a =? ?b then _ else _] |- _ =>
        destruct (Z.eqb_spec a b)
    end; lia.
  - (* four bytes: the rune is past U+FFFF *)
    unfold byteAt in *; cbn [nth] in *.
    repeat match goal with
    | E : context [if ?a =? ?b then _ else _] |- _ =>
        destruct (Z.eqb_spec a b)
    end; lia.
Qed.


Import strings.

Lemma HasPrefix_nil s : HasPrefix s [] = true.
Proof. destruct s; reflexivity. Qed.

Lemma HasPrefix_spec s p : HasPrefix s p = true <-> exists b, s = p ++ b.
Proof.
  revert s. induction p as [|x p IH]; intros s.
  - split; [intros _; now exists s|intros _; destruct s; reflexivity].
  - destruct s as [|c s]; cbn [HasPrefix].
    + split; [discriminate|intros [b Hb]; discriminate].
    + rewrite andb_true_iff, IH. split.
      * intros [Hc [b ->]]. apply Ascii.eqb_eq in Hc. subst. now exists b.
      * intros [b Hb]. injection Hb as -> ->. split; [apply Ascii.eqb_refl|now exists b].
Qed.

Lemma Contains_spec s n : Contains s n = true <-> exists a b, s = a ++ n ++ b.
Proof.
  induction s as [|c s IH]; cbn [Contains].
  - rewrite orb_false_r, HasPrefix_spec. split.
    + intros [b Hb]. now exists [], b.
    + intros [a [b Hab]]. destruct a; [now exists b|discriminate].
  - rewrite orb_true_iff, HasPrefix_spec, IH. split.
    + intros [[b Hb]|[a [b Hab]]].
      * now exists [], b.
      * exists (c :: a), b. now rewrite Hab.
    + intros [a [b Hab]]. destruct a as [|a0 a].
      * left. now exists b.
      * right. injection Hab as -> ->. now exists a, b.
Qed.

Lemma Contains_app_l a b n : Contains b n = true -> Contains (a ++ b) n = true.
Proof.
  rewrite !Contains_spec. intros [x [y ->]]. exists (a ++ x), y.
  now rewrite <- app_assoc.
Qed.

Lemma Contains_app_r a b n : Contains a n = true -> Contains (a ++ b) n = true.
Proof.
  rewrite !Contains_spec. intros [x [y ->]]. exists x, (y ++ b).
  now rewrite <- !app_assoc.
Qed.

Lemma Contains_take_mono s n (i j : nat) :
  (i <= j)%nat -> Contains (take i s) n = true -> Contains (take j s) n = true.
Proof.
  intros Hij H.
  replace (take i s) with (take i (take j s)) in H by (rewrite take_take; f_equal; lia).
  rewrite <- (take_drop i (take j s)). now apply Contains_app_r.
Qed.

Lemma Contains_take s n (i : nat) :
  Contains (take i s) n = true -> Contains s n = true.
Proof.
  intros H. rewrite <- (take_drop i s). now apply Contains_app_r.
Qed.

Lemma HasPrefix_In w m y : HasPrefix w m = true -> In y m -> In y w.
Proof.
  rewrite HasPrefix_spec. intros [b ->] Hy. apply in_or_app. now left.
Qed.

Lemma HasPrefix_app_last n x l w :
  HasPrefix (l ++ w) (n ++ [x]) = true -> ~ In x w ->
  HasPrefix l (n ++ [x]) = true.
Proof.
  revert n. induction l as [|c l IH]; intros n H Hx.
  - exfalso. apply Hx. eapply HasPrefix_In; [exact H|].
    apply in_or_app. right. now left.
  - destruct n as [|a n]; cbn in *.
    + apply andb_prop in H as [H _]. rewrite H, HasPrefix_nil. reflexivity.
    + apply andb_prop in H as [H1 H2]. rewrite H1. cbn. now apply IH.
Qed.

Lemma Contains_nil_needle n x : Contains [] (n ++ [x]) = false.
Proof. destruct n; reflexivity. Qed.

Lemma Contains_short w n x :
  ~ In x w -> Contains w (n ++ [x]) = false.
Proof.
  intros Hx. destruct (Contains w (n ++ [x])) eqn:E; [|reflexivity].
  exfalso. apply Contains_spec in E as [a [b ->]]. apply Hx.
  apply in_or_app. right. apply in_or_app. left. apply in_or_app. right. now left.
Qed.

Lemma Contains_app_last n x pre w :
  ~ In x w -> Contains (pre ++ w) (n ++ [x]) = Contains pre (n ++ [x]).
Proof.
  intros Hx. induction pre as [|c pre IH].
  - cbn [app]. rewrite Contains_short by assumption.
    symmetry. apply Contains_nil_needle.
  - cbn [app Contains]. rewrite IH. f_equal.
    destruct (HasPrefix (c :: pre ++ w) (n ++ [x])) eqn:E.
    + symmetry. change (c :: pre ++ w) with ((c :: pre) ++ w) in E.
      now apply HasPrefix_app_last in E.
    + destruct (HasPrefix (c :: pre) (n ++ [x])) eqn:E'; [|reflexivity].
      apply HasPrefix_spec in E' as [b Hb].
      assert (HasPrefix (c :: pre ++ w) (n ++ [x]) = true).
      { apply HasPrefix_spec. exists (b ++ w).
        change (c :: pre ++ w) with ((c :: pre) ++ w). rewrite Hb.
        now rewrite <- app_assoc. }
      congruence.
Qed.

Lemma needle_last n : needle n ->
  exists n' x, n = n' ++ [x] /\ (code x = 0x94 \/ code x = 0xB1).
Proof.
  intros [->| ->].
  - exists (take 2 (str "—")), (byte_of 0x94). split; [reflexivity|now left].
  - exists (take 5 (str "缺失")), (byte_of 0xB1). split; [reflexivity|now right].
Qed.

Lemma spaceChunk_bytes w c :
  spaceChunk w -> In c w -> code c <> 0x94 /\ code c <> 0xB1.
Proof.
  unfold spaceChunk. intros H Hc.
  destruct w as [|a [|b [|d [|e w]]]]; cbn in H; try contradiction;
    cbn in Hc; intuition (subst; lia).
Qed.

Lemma chunk_drop_right pre w n :
  needle n -> spaceChunk w -> Contains (pre ++ w) n = Contains pre n.
Proof.
  intros Hn Hw. destruct (needle_last n Hn) as [n' [x [-> Hx]]].
  apply Contains_app_last. intros Hin.
  destruct (spaceChunk_bytes w x Hw Hin). lia.
Qed.

Lemma HasPrefix_cons_ne c s p n :
  code c <> code p -> HasPrefix (c :: s) (p :: n) = false.
Proof.
  intros H. cbn. rewrite ascii_eqb_code.
  destruct (Z.eqb_spec (code c) (code p)); [contradiction|reflexivity].
Qed.

Lemma chunk_drop_left w rest n :
  needle n -> spaceChunk w -> Contains (w ++ rest) n = Contains rest n.
Proof.
  unfold spaceChunk. intros Hn Hw.
  assert (E2 : code (byte_of 0xE2) = 0xE2) by reflexivity.
  assert (E7 : code (byte_of 0xE7) = 0xE7) by reflexivity.
  assert (B80 : code (byte_of 0x80) = 0x80) by reflexivity.
  assert (B94 : code (byte_of 0x94) = 0x94) by reflexivity.
  destruct w as [|a [|b [|d [|e w]]]]; cbn [map wsCodes] in Hw; try contradiction.
  - (* one ASCII byte *)
    cbn [app Contains].
    destruct Hn as [->| ->]; cbv [str list_ascii_of_string]; rewrite HasPrefix_cons_ne; try reflexivity;
      change (code "226"%char) with 0xE2; change (code "231"%char) with 0xE7; lia.
  - cbn [app Contains]. destruct Hw as [Ha Hb].
    destruct Hn as [->| ->]; cbv [str list_ascii_of_string].
    + rewrite !HasPrefix_cons_ne; try reflexivity.
      all: change (code "226"%char) with 0xE2; lia.
    + rewrite !HasPrefix_cons_ne; try reflexivity.
      all: change (code "231"%char) with 0xE7; lia.
  - cbn [app Contains].
    destruct Hn as [->| ->]; cbv [str list_ascii_of_string].
    + rewrite (HasPrefix_cons_ne b), (HasPrefix_cons_ne d);
        try (change (code "226"%char) with 0xE2; lia).
      rewrite !orb_false_l.
      match goal with |- ?h || _ = _ => replace h with false; [reflexivity|] end.
      symmetry. cbn. rewrite !ascii_eqb_code.
      change (code "226"%char) with 0xE2. change (code "128"%char) with 0x80.
      change (code "148"%char) with 0x94.
      destruct (Z.eqb_spec (code a) 0xE2); [|reflexivity].
      destruct (Z.eqb_spec (code b) 0x80); [|reflexivity].
      destruct (Z.eqb_spec (code d) 0x94); [|reflexivity]. lia.
    + rewrite !HasPrefix_cons_ne; try reflexivity.
      all: change (code "231"%char) with 0xE7; lia.
Qed.


Import strings.

Lemma byteAt_app_l (a b : bytes) i :
  (i < length a)%nat -> byteAt (a ++ b) i = byteAt a i.
Proof. intros H. unfold byteAt. now rewrite app_nth1. Qed.

Lemma decodeSpec_ascii n p0 p1 p2 p3 :
  p0 < 0x80 -> decodeSpec n p0 p1 p2 p3 = (p0, 1%nat).
Proof. intros H. unfold decodeSpec. destruct (Z.ltb_spec p0 128); [reflexivity|lia]. Qed.

Ltac split_in H :=
  repeat (match type of H with
  | context [?a =? ?b] => destruct (Z.eqb_spec a b)
  | context [(?a <=? ?b)%nat] => destruct (Nat.leb_spec a b)
  | context [?a <? ?b] => destruct (Z.ltb_spec a b)
  | context [?a <=? ?b] => destruct (Z.leb_spec a b)
  end; try lia; cbn [orb andb negb fst snd] in H).

(** A rune decoded from exactly the bytes of [a] is not cut short when
    more bytes follow. *)
Lemma decode_ext a b r w r' w' :
  a <> [] -> DecodeRuneInString a = (r, w) -> length a = w ->
  DecodeRuneInString (a ++ b) = (r', w') -> (w <= w')%nat.
Proof.
  intros Ha H Hlen H'.
  assert (Hab : a ++ b <> []) by (destruct a; [congruence|discriminate]).
  pose proof (decode_size_pos _ _ _ Hab H') as Hw'.
  destruct a as [|c0 a']; [congruence|].
  change ((c0 :: a') ++ b) with (c0 :: (a' ++ b)) in H'.
  rewrite DecodeRune_spec in H, H'.
  change (c0 :: a' ++ b) with ((c0 :: a') ++ b) in H'.
  set (s := c0 :: a') in *.
  assert (Hn : (length (s ++ b) >= w)%nat) by (rewrite length_app; lia).
  destruct w as [|[|[|[|[|w]]]]]; try lia.
  - (* two bytes *)
    rewrite ?(byteAt_app_l s b 0), ?(byteAt_app_l s b 1) in H' by (rewrite Hlen; lia).
    unfold decodeSpec, cont, accLo, accHi in H, H'.
    split_in H; injection H as <-; try lia.
    all: split_in H'; injection H' as <- <-; lia.
  - (* three bytes *)
    rewrite ?(byteAt_app_l s b 0), ?(byteAt_app_l s b 1), ?(byteAt_app_l s b 2) in H'
      by (rewrite Hlen; lia).
    unfold decodeSpec, cont, accLo, accHi in H, H'.
    split_in H; injection H as <-; try lia.
    all: split_in H'; injection H' as <- <-; lia.
  - (* four bytes *)
    rewrite ?(byteAt_app_l s b 0), ?(byteAt_app_l s b 1), ?(byteAt_app_l s b 2),
      ?(byteAt_app_l s b 3)
      in H' by (rewrite Hlen; lia).
    unfold decodeSpec, cont, accLo, accHi in H, H'.
    split_in H; injection H as <-; try lia.
    all: split_in H'; injection H' as <- <-; lia.
  - (* more: no rune is that long *)
    unfold decodeSpec in H.
    repeat match type of H with
    | context [if ?c then _ else _] => destruct c
    end; injection H as <- Hw; discriminate.
Qed.


Import strings.

Lemma lastStart_le k s st lim : lastStart k s st lim <= st.
Proof.
  revert st. induction k as [|k IH]; intros st; cbn [lastStart]; [lia|].
  destruct (st <? lim); [lia|].
  destruct (RuneStart _); [lia|]. specialize (IH (st - 1)). lia.
Qed.

Lemma drop_last_byte (s : bytes) :
  s <> [] -> drop (length s - 1) s = [nth (length s - 1) s zero].
Proof.
  destruct s as [|c s] using rev_ind; [congruence|]. intros _. clear IHs.
  rewrite length_app. cbn [length].
  replace (length s + 1 - 1)%nat with (length s) by lia.
  rewrite drop_app_length. rewrite app_nth2 by lia.
  now rewrite Nat.sub_diag.
Qed.

Lemma decode_last_cases s r size :
  s <> [] -> DecodeLastRuneInString s = (r, size) ->
  (size = 1%nat
   /\ (r = RuneError
       \/ (r = byteAt s (length s - 1) /\ r < RuneSelf)))
  \/ ((1 <= size <= length s)%nat
      /\ DecodeRuneInString (drop (length s - size) s) = (r, size)
      /\ RuneSelf <= byteAt s (length s - 1)).
Proof.
  intros Hs H. unfold DecodeLastRuneInString in H.
  assert (Hlen : (1 <= length s)%nat) by (destruct s; [congruence|cbn; lia]).
  destruct (Z.eqb_spec (Z.of_nat (length s)) 0) as [E|_]; [lia|].
  replace (Z.to_nat (Z.of_nat (length s) - 1)) with (length s - 1)%nat in H by lia.
  destruct (Z.ltb_spec (byteAt s (length s - 1)) RuneSelf) as [Hlt|Hge].
  { injection H as <- <-. left. split; [reflexivity|]. right. split; [reflexivity|lia]. }
  set (st0 := lastStart UTFMax s (Z.of_nat (length s) - 1 - 1)
                (Z.max (Z.of_nat (length s) - Z.of_nat UTFMax) 0)) in H.
  assert (Hst0 : st0 <= Z.of_nat (length s) - 2).
  { unfold st0. pose proof (lastStart_le UTFMax s (Z.of_nat (length s) - 1 - 1)
      (Z.max (Z.of_nat (length s) - Z.of_nat UTFMax) 0)). lia. }
  set (start := if st0 <? 0 then 0 else st0) in H.
  assert (Hstart : 0 <= start < Z.of_nat (length s)).
  { unfold start. destruct (Z.ltb_spec st0 0); lia. }
  destruct (DecodeRuneInString (drop (Z.to_nat start) s)) as [r1 size1] eqn:Hd.
  destruct (Z.eqb_spec (start + Z.of_nat size1) (Z.of_nat (length s))) as [E|E];
    cbn [negb] in H; injection H as <- <-.
  - right. 
    assert (Hne : drop (Z.to_nat start) s <> []).
    { intros Hnil. apply (f_equal length) in Hnil. rewrite length_drop in Hnil.
      cbn in Hnil. lia. }
    pose proof (decode_size_pos _ _ _ Hne Hd) as Hsz.
    replace (length s - size1)%nat with (Z.to_nat start) by lia.
    repeat split; try lia. exact Hd.
  - left. split; [reflexivity|]. now left.
Qed.

Lemma decode_last_size s r size :
  s <> [] -> DecodeLastRuneInString s = (r, size) -> (1 <= size <= length s)%nat.
Proof.
  intros Hs H. destruct (decode_last_cases s r size Hs H) as [[-> _]|[Hsz _]].
  - destruct s; [congruence|cbn; lia].
  - exact Hsz.
Qed.

Lemma asciiSpace_chunk c :
  asciiSpace (code c) = true -> spaceChunk [c].
Proof.
  unfold asciiSpace, spaceChunk. cbn [map wsCodes]. intros H.
  repeat match type of H with
  | context [?a =? ?b] => destruct (Z.eqb_spec a b); [lia|]
  end. discriminate.
Qed.

Lemma decode_last_space s r size :
  DecodeLastRuneInString s = (r, size) -> unicode.IsSpace r = true ->
  (1 <= size <= length s)%nat /\ spaceChunk (drop (length s - size) s).
Proof.
  intros H Hsp.
  destruct s as [|c0 s0] eqn:Es.
  { cbn in H. injection H as <- <-. discriminate. }
  rewrite <- Es in *. assert (Hs : s <> []) by (rewrite Es; discriminate).
  split; [eapply decode_last_size; eauto|].
  destruct (decode_last_cases s r size Hs H) as [[-> [->|[Hr Hlt]]]|[Hsz [Hd _]]].
  - discriminate.
  - rewrite drop_last_byte by assumption.
    unfold spaceChunk. cbn [map wsCodes]. fold (byteAt s (length s - 1)).
    rewrite <- Hr. apply IsSpace_cases in Hsp. unfold RuneSelf in Hlt. lia.
  - destruct (decode_space _ _ _ Hd Hsp) as [_ Hch].
    rewrite take_ge in Hch; [exact Hch|]. rewrite length_drop. lia.
Qed.


Import strings.

Lemma Contains_nil_needle' n : needle n -> Contains [] n = false.
Proof.
  intros Hn. destruct (needle_last n Hn) as [n' [x [-> _]]].
  apply Contains_nil_needle.
Qed.

Lemma indexFunc_loop_trim n rounds rest i :
  needle n -> (length rest <= rounds)%nat ->
  let res := indexFunc_loop rounds rest i unicode.IsSpace false in
  (res = -1 /\ Contains rest n = false)
  \/ (exists k : nat, res = i + Z.of_nat k /\ (k <= length rest)%nat
      /\ Contains (drop k rest) n = Contains rest n).
Proof.
  intros Hn. revert rest i.
  induction rounds as [|rounds IH]; intros rest i Hlen; cbn zeta.
  - destruct rest; [|cbn in Hlen; lia]. left. split; [reflexivity|].
    now apply Contains_nil_needle'.
  - cbn [indexFunc_loop]. destruct rest as [|c rest'] eqn:Erest.
    { left. split; [reflexivity|]. now apply Contains_nil_needle'. }
    rewrite <- Erest in *.
    destruct (DecodeRuneInString rest) as [r w] eqn:Hd.
    destruct (unicode.IsSpace r) eqn:Hsp; cbn [Bool.eqb].
    + destruct (decode_space _ _ _ Hd Hsp) as [Hw Hch].
      assert (Hcut : Contains rest n = Contains (drop w rest) n).
      { rewrite <- (take_drop w rest) at 1. now apply chunk_drop_left. }
      specialize (IH (drop w rest) (i + Z.of_nat w)).
      rewrite length_drop in IH. specialize (IH ltac:(lia)). cbn zeta in IH.
      destruct IH as [[-> Hc]|[k [-> [Hk Hc]]]].
      * left. split; [reflexivity|]. congruence.
      * right. exists (w + k)%nat. split; [lia|]. split; [lia|].
        rewrite drop_drop in Hc. congruence.
    + right. exists 0%nat. split; [lia|]. split; [lia|]. reflexivity.
Qed.

Lemma TrimLeftFunc_contains n s :
  needle n -> Contains (TrimLeftFunc s unicode.IsSpace) n = Contains s n.
Proof.
  intros Hn. unfold TrimLeftFunc, indexFunc.
  destruct (indexFunc_loop_trim n (length s) s 0 Hn (Nat.le_refl _))
    as [[-> Hc]|[k [-> [Hk Hc]]]].
  - cbn. rewrite Hc. now apply Contains_nil_needle'.
  - destruct (Z.eqb_spec (0 + Z.of_nat k) (-1)); [lia|].
    replace (Z.to_nat (0 + Z.of_nat k)) with k by lia. exact Hc.
Qed.

Lemma lastIndexFunc_loop_trim n rounds pre :
  needle n -> (length pre <= rounds)%nat ->
  let res := lastIndexFunc_loop rounds pre unicode.IsSpace false in
  (res = -1 /\ Contains pre n = false)
  \/ (exists (i size : nat) r,
        res = Z.of_nat i /\ (1 <= size)%nat /\ (i + size <= length pre)%nat
        /\ DecodeLastRuneInString (take (i + size) pre) = (r, size)
        /\ Contains (take (i + size) pre) n = Contains pre n).
Proof.
  intros Hn. revert pre.
  induction rounds as [|rounds IH]; intros pre Hlen; cbn zeta.
  - destruct pre; [|cbn in Hlen; lia]. left. split; [reflexivity|].
    now apply Contains_nil_needle'.
  - cbn [lastIndexFunc_loop]. destruct pre as [|c pre'] eqn:Epre.
    { left. split; [reflexivity|]. now apply Contains_nil_needle'. }
    rewrite <- Epre in *. assert (Hne : pre <> []) by (rewrite Epre; discriminate).
    destruct (DecodeLastRuneInString pre) as [r size] eqn:Hd.
    pose proof (decode_last_size _ _ _ Hne Hd) as Hsz.
    destruct (unicode.IsSpace r) eqn:Hsp; cbn [Bool.eqb].
    + destruct (decode_last_space _ _ _ Hd Hsp) as [_ Hch].
      assert (Hcut : Contains pre n = Contains (take (length pre - size) pre) n).
      { rewrite <- (take_drop (length pre - size) pre) at 1.
        now apply chunk_drop_right. }
      specialize (IH (take (length pre - size) pre)).
      rewrite length_take in IH. specialize (IH ltac:(lia)). cbn zeta in IH.
      destruct IH as [[-> Hc]|[i [size' [r' [-> [Hs1 [Hs2 [Hd' Hc]]]]]]]].
      * left. split; [reflexivity|]. congruence.
      * right. exists i, size', r'. split; [reflexivity|].
        rewrite take_take in Hd', Hc.
        replace (Nat.min (i + size') (length pre - size)) with (i + size')%nat
          in Hd', Hc by lia.
        repeat split; try lia; congruence.
    + right. exists (length pre - size)%nat, size, r.
      rewrite length_take.
      replace (length pre - size + size)%nat with (length pre) by lia.
      rewrite take_ge by lia.
      repeat split; try lia. exact Hd.
Qed.

Lemma byteAt_drop (s : bytes) i j : byteAt (drop i s) j = byteAt s (i + j).
Proof.
  unfold byteAt. f_equal. revert s. induction i as [|i IH]; intros s; [reflexivity|].
  destruct s as [|c s]; cbn [drop Nat.add nth].
  - now destruct j.
  - apply IH.
Qed.

Lemma byteAt_take (s : bytes) m j : (j < m)%nat -> byteAt (take m s) j = byteAt s j.
Proof.
  unfold byteAt. intros H. f_equal. revert s j H.
  induction m as [|m IH]; intros s j H; [lia|].
  destruct s as [|c s]; [reflexivity|]. cbn [take nth].
  destruct j; [reflexivity|]. apply IH. lia.
Qed.

Lemma TrimRightFunc_contains n s :
  needle n -> Contains (TrimRightFunc s unicode.IsSpace) n = Contains s n.
Proof.
  intros Hn. unfold TrimRightFunc, lastIndexFunc.
  destruct (lastIndexFunc_loop_trim n (length s) s Hn (Nat.le_refl _))
    as [[-> Hc]|[i [size [r [-> [Hs1 [Hs2 [Hd Hc]]]]]]]].
  - cbn [Z.leb andb]. change (Z.to_nat (-1 + 1)) with 0%nat.
    rewrite take_0, Hc. now apply Contains_nil_needle'.
  - destruct (Z.leb_spec 0 (Z.of_nat i)); [|lia]. cbn [andb].
    rewrite Nat2Z.id.
    set (pf := take (i + size) s) in *.
    assert (Hpf : pf <> []).
    { intros E. apply (f_equal length) in E. unfold pf in E.
      rewrite length_take in E. cbn in E. lia. }
    assert (Hlenpf : length pf = (i + size)%nat).
    { unfold pf. rewrite length_take. lia. }
    assert (Hsand : forall j : nat, (i + size <= j)%nat ->
              Contains (take j s) n = Contains s n).
    { intros j Hj. destruct (Contains s n) eqn:E.
      - apply (Contains_take_mono s n (i + size) j Hj). exact Hc.
      - destruct (Contains (take j s) n) eqn:E'; [|reflexivity].
        apply Contains_take in E'. congruence. }
    destruct (decode_last_cases pf r size Hpf Hd) as [[-> Hr]|[Hsz [Hd' Hlast]]].
    + (* the last rune is one byte *)
      destruct (Z.leb_spec RuneSelf (byteAt s i)).
      * destruct (DecodeRuneInString (drop i s)) as [r2 wid] eqn:Hd2.
        assert (Hne : drop i s <> []).
        { intros E. apply (f_equal length) in E. rewrite length_drop in E.
          cbn in E. lia. }
        pose proof (decode_size_pos _ _ _ Hne Hd2).
        replace (Z.to_nat (Z.of_nat i + Z.of_nat wid)) with (i + wid)%nat by lia.
        apply Hsand. lia.
      * replace (Z.to_nat (Z.of_nat i + 1)) with (i + 1)%nat by lia.
        apply Hsand. lia.
    + rewrite Hlenpf in Hd'. replace (i + size - size)%nat with i in Hd' by lia.
      set (a := drop i pf) in *.
      assert (Hlena : length a = size).
      { unfold a. rewrite length_drop. lia. }
      assert (Ha : a <> []).
      { intros E. rewrite E in Hlena. cbn in Hlena. lia. }
      assert (Hsplit : drop i s = a ++ drop (i + size) s).
      { unfold a, pf. rewrite <- (take_drop size (drop i s)) at 1.
        rewrite drop_drop. f_equal. rewrite take_drop_commute. reflexivity. }
      assert (Ha0 : byteAt a 0 = byteAt s i).
      { unfold a, pf. rewrite byteAt_drop, byteAt_take by lia. f_equal. lia. }
      destruct (Z.leb_spec RuneSelf (byteAt s i)).
      * destruct (DecodeRuneInString (drop i s)) as [r2 wid] eqn:Hd2.
        assert (Hne : drop i s <> []).
        { intros E. apply (f_equal length) in E. rewrite length_drop in E.
          cbn in E. lia. }
        pose proof (decode_size_pos _ _ _ Hne Hd2).
        rewrite Hsplit in Hd2.
        pose proof (decode_ext _ _ _ _ _ _ Ha Hd' Hlena Hd2).
        replace (Z.to_nat (Z.of_nat i + Z.of_nat wid)) with (i + wid)%nat by lia.
        apply Hsand. lia.
      * (* an ASCII byte starts a rune of one byte *)
        destruct a as [|a0 a']; [congruence|].
        rewrite DecodeRune_spec, decodeSpec_ascii in Hd'
          by (rewrite Ha0; unfold RuneSelf in *; lia).
        injection Hd' as _ <-.
        replace (Z.to_nat (Z.of_nat i + 1)) with (i + 1)%nat by lia.
        apply Hsand. lia.
Qed.

Lemma TrimFunc_contains n s :
  needle n -> Contains (TrimFunc s unicode.IsSpace) n = Contains s n.
Proof.
  intros Hn. unfold TrimFunc.
  now rewrite TrimRightFunc_contains, TrimLeftFunc_contains.
Qed.

Lemma TrimSpace_stop_contains n rs :
  needle n -> Contains (TrimSpace_stop rs) n = Contains (rev rs) n.
Proof.
  intros Hn. induction rs as [|c rs IH]; [reflexivity|].
  cbn [TrimSpace_stop].
  destruct (RuneSelf <=? code c); [now apply TrimRightFunc_contains|].
  destruct (asciiSpace (code c)) eqn:Hsp; [|reflexivity].
  rewrite IH. cbn [rev]. symmetry. apply chunk_drop_right; [assumption|].
  now apply asciiSpace_chunk.
Qed.

(** Trimming white space neither removes nor creates an occurrence of a
    marker. *)
Lemma TrimSpace_contains n s :
  needle n -> Contains (TrimSpace s) n = Contains s n.
Proof.
  intros Hn. induction s as [|c s IH]; [reflexivity|].
  cbn [TrimSpace].
  destruct (RuneSelf <=? code c); [now apply TrimFunc_contains|].
  destruct (asciiSpace (code c)) eqn:Hsp.
  - rewrite IH. symmetry. change (c :: s) with ([c] ++ s).
    apply chunk_drop_left; [assumption|]. now apply asciiSpace_chunk.
  - rewrite TrimSpace_stop_contains by assumption. now rewrite rev_involutive.
Qed.


(** ** The bounds of the loops

    The loops of the packages are written with a number of rounds.  The
    lemmas of this part show that the number each caller passes is enough:
    more rounds give the same result, and the reading of a document never
    stops for want of rounds. *)

Lemma runes_loop_rounds n s :
  (length s <= n)%nat -> runes_loop n s = runes s.
Proof.
  unfold runes. remember (length s) as m eqn:Hm.
  revert n s Hm. induction m as [m IH] using lt_wf_ind. intros n s Hm Hn.
  destruct s as [|c rest].
  - cbn in Hm. subst m. destruct n; reflexivity.
  - destruct n as [|n]; [cbn in Hm; lia|].
    destruct m as [|m]; [discriminate Hm|].
    cbn [runes_loop].
    destruct (DecodeRuneInString (c :: rest)) as [r w] eqn:Hd.
    assert (Hw : (1 <= w <= length (c :: rest))%nat)
      by (eapply decode_size_pos; eauto; discriminate).
    f_equal.
    assert (Hl : (length (drop w (c :: rest)) < S m)%nat)
      by (rewrite length_drop; lia).
    rewrite (IH _ Hl n _ eq_refl) by lia.
    symmetry. apply (IH _ Hl m _ eq_refl). lia.
Qed.

Lemma indexFunc_loop_rounds n s i f truth :
  (length s <= n)%nat ->
  strings.indexFunc_loop n s i f truth
  = strings.indexFunc_loop (length s) s i f truth.
Proof.
  remember (length s) as m eqn:Hm.
  revert n s i Hm. induction m as [m IH] using lt_wf_ind. intros n s i Hm Hn.
  destruct s as [|c rest].
  - cbn in Hm. subst m. destruct n; reflexivity.
  - destruct n as [|n]; [cbn in Hm; lia|].
    destruct m as [|m]; [discriminate Hm|].
    cbn [strings.indexFunc_loop].
    destruct (DecodeRuneInString (c :: rest)) as [r w] eqn:Hd.
    assert (Hw : (1 <= w <= length (c :: rest))%nat)
      by (eapply decode_size_pos; eauto; discriminate).
    destruct (Bool.eqb (f r) truth); [reflexivity|].
    assert (Hl : (length (drop w (c :: rest)) < S m)%nat)
      by (rewrite length_drop; lia).
    rewrite (IH _ Hl n _ _ eq_refl) by lia.
    symmetry. apply (IH _ Hl m _ _ eq_refl). lia.
Qed.

Lemma lastIndexFunc_loop_rounds n s f truth :
  (length s <= n)%nat ->
  strings.lastIndexFunc_loop n s f truth = strings.lastIndexFunc s f truth.
Proof.
  unfold strings.lastIndexFunc. remember (length s) as m eqn:Hm.
  revert n s Hm. induction m as [m IH] using lt_wf_ind. intros n s Hm Hn.
  destruct s as [|c rest].
  - cbn in Hm. subst m. destruct n; reflexivity.
  - destruct n as [|n]; [cbn in Hm; lia|].
    destruct m as [|m]; [discriminate Hm|].
    cbn [strings.lastIndexFunc_loop].
    destruct (DecodeLastRuneInString (c :: rest)) as [r w] eqn:Hd.
    assert (Hw : (1 <= w <= length (c :: rest))%nat)
      by (eapply decode_last_size; eauto; discriminate).
    destruct (Bool.eqb (f r) truth); [reflexivity|].
    assert (Hl : (length (take (length (c :: rest) - w) (c :: rest)) < S m)%nat)
      by (rewrite length_take; lia).
    rewrite (IH _ Hl n _ eq_refl) by lia.
    symmetry. apply (IH _ Hl m _ eq_refl). lia.
Qed.

(** The backward scan of [DecodeLastRuneInString] visits at most three
    offsets. *)
Lemma lastStart_rounds n m s start lim :
  start - lim < Z.of_nat n -> start - lim < Z.of_nat m ->
  lastStart n s start lim = lastStart m s start lim.
Proof.
  revert m start. induction n as [|n IH]; intros m start Hn Hm.
  - destruct m as [|m]; [reflexivity|]. cbn [lastStart].
    destruct (start <? lim) eqn:E; [reflexivity|]. lia.
  - destruct m as [|m].
    + cbn [lastStart]. destruct (start <? lim) eqn:E; [reflexivity|]. lia.
    + cbn [lastStart]. destruct (start <? lim) eqn:E; [reflexivity|].
      destruct (RuneStart _); [reflexivity|]. apply IH; lia.
Qed.

Lemma DecodeLastRune_rounds n s :
  (3 <= n)%nat ->
  let end_ := Z.of_nat (length s) in
  lastStart n s (end_ - 2) (Z.max (end_ - Z.of_nat UTFMax) 0)
  = lastStart UTFMax s (end_ - 2) (Z.max (end_ - Z.of_nat UTFMax) 0).
Proof.
  intros Hn end_. apply lastStart_rounds; unfold UTFMax; lia.
Qed.

Lemma unquote_loop_rounds n s :
  (length s <= n)%nat -> json.unquote_loop n s = json.unquote s.
Proof.
  unfold json.unquote. remember (length s) as m eqn:Hm.
  revert n s Hm. induction m as [m IH] using lt_wf_ind. intros n s Hm Hn.
  assert (step : forall k k' s', (length s' < m)%nat ->
            (length s' <= k)%nat -> (length s' <= k')%nat ->
            json.unquote_loop k s' = json.unquote_loop k' s').
  { intros k k' s' Hlt Hk Hk'.
    rewrite (IH _ Hlt k s' eq_refl Hk). symmetry.
    apply (IH _ Hlt k' s' eq_refl Hk'). }
  destruct s as [|c t].
  - cbn in Hm. subst m. destruct n; reflexivity.
  - destruct n as [|n]; [cbn in Hm; lia|].
    destruct m as [|m]; [discriminate Hm|].
    cbn [length] in Hm, Hn.
    cbn [json.unquote_loop].
    destruct (c =? "\")%char.
    + destruct t as [|e t']; [reflexivity|]. cbn [length] in Hm, Hn.
      destruct (e =? "u")%char.
      * assert (H6 : (length (drop 6 (c :: e :: t')) <= length t' - 4)%nat)
          by (rewrite length_drop; cbn [length]; lia).
        assert (H12 : (length (drop 6 (drop 6 (c :: e :: t')))
                       <= length t' - 4)%nat)
          by (rewrite length_drop; lia).
        destruct (utf16.IsSurrogate _).
        -- destruct (negb _); f_equal; apply step; lia.
        -- f_equal; apply step; lia.
      * f_equal. apply step; lia.
    + destruct (code c <? RuneSelf).
      * f_equal. apply step; lia.
      * destruct (DecodeRuneInString (c :: t)) as [rr size] eqn:Hd.
        assert (Hw : (1 <= size <= length (c :: t))%nat)
          by (eapply decode_size_pos; eauto; discriminate).
        cbn [length] in Hw.
        f_equal. apply step; rewrite length_drop; cbn [length]; lia.
Qed.

Lemma stdAt_length layout lit s :
  time.stdAt layout = Some (lit, s) -> (1 <= length lit)%nat.
Proof.
  unfold time.stdAt. intros H. apply find_some in H as [H _].
  cbn in H.
  repeat (destruct H as [H|H]; [injection H as <- _; cbn; lia|]).
  destruct H.
Qed.

Lemma chunks_loop_rounds n layout :
  (length layout <= n)%nat -> time.chunks_loop n layout = time.chunks layout.
Proof.
  unfold time.chunks. remember (length layout) as m eqn:Hm.
  revert n layout Hm. induction m as [m IH] using lt_wf_ind.
  intros n s Hm Hn.
  assert (step : forall k k' s', (length s' < m)%nat ->
            (length s' <= k)%nat -> (length s' <= k')%nat ->
            time.chunks_loop k s' = time.chunks_loop k' s').
  { intros k k' s' Hlt Hk Hk'.
    rewrite (IH _ Hlt k s' eq_refl Hk). symmetry.
    apply (IH _ Hlt k' s' eq_refl Hk'). }
  destruct s as [|c t].
  - cbn in Hm. subst m. destruct n; reflexivity.
  - destruct n as [|n]; [cbn in Hm; lia|].
    destruct m as [|m]; [discriminate Hm|].
    cbn [length] in Hm, Hn.
    cbn [time.chunks_loop].
    destruct (time.stdAt (c :: t)) as [[lit s]|] eqn:Hs.
    + apply stdAt_length in Hs.
      f_equal. apply step; rewrite length_drop; cbn [length]; lia.
    + f_equal. apply step; lia.
Qed.

(** Twenty rounds write every value below [10^20], which covers the
    64-bit values [appendInt] is called with. *)
Lemma decimal_loop_rounds n m u :
  (1 <= n <= m)%nat -> 0 <= u < 10 ^ Z.of_nat n ->
  time.decimal_loop m u = time.decimal_loop n u.
Proof.
  revert m u. induction n as [|n IH]; intros m u Hnm Hu; [lia|].
  destruct m as [|m]; [lia|].
  cbn [time.decimal_loop].
  destruct (u <? 10) eqn:E; [reflexivity|].
  apply Z.ltb_ge in E.
  destruct n as [|n]; [change (10 ^ Z.of_nat 1) with 10 in Hu; lia|].
  f_equal. apply IH; [lia|].
  split; [apply Z.div_pos; lia|].
  apply Z.div_lt_upper_bound; [lia|].
  replace (Z.of_nat (S (S n))) with (Z.succ (Z.of_nat (S n))) in Hu by lia.
  rewrite Z.pow_succ_r in Hu by lia. lia.
Qed.

Lemma appendInt_rounds x n :
  (20 <= n)%nat -> Z.abs x < 2 ^ 64 ->
  time.decimal_loop n (Z.abs x) = time.decimal_loop 20 (Z.abs x).
Proof.
  intros Hn Hx. apply decimal_loop_rounds; [lia|].
  split; [lia|]. eapply Z.lt_trans; [exact Hx|]. reflexivity.
Qed.


Lemma skipSpace_length s : (length (json.skipSpace s) <= length s)%nat.
Proof.
  induction s as [|c s IH]; cbn [json.skipSpace length]; [lia|].
  destruct (json.isSpace c); cbn [length]; lia.
Qed.

Lemma digits_length s ds r :
  json.digits s = (ds, r) -> (length r <= length s)%nat.
Proof.
  revert ds r. induction s as [|c s IH]; intros ds r H; cbn [json.digits] in H.
  - injection H as <- <-. cbn; lia.
  - destruct (json.isDigit c).
    + destruct (json.digits s) as [ds' r'] eqn:E. injection H as <- <-.
      specialize (IH _ _ eq_refl). cbn [length]. lia.
    + injection H as <- <-. lia.
Qed.

Lemma scanString_length s content r :
  json.scanString s = Some (content, r) -> (length r < length s)%nat.
Proof.
  remember (length s) as m eqn:Hm.
  revert s content r Hm. induction m as [m IH] using lt_wf_ind.
  intros s content r Hm H.
  assert (step : forall pre s' content' r',
            (length s' < m)%nat ->
            json.consTo pre (json.scanString s') = Some (content', r') ->
            (length r' < length s')%nat).
  { intros pre s' content' r' Hlt Hc.
    destruct (json.scanString s') as [[c0 r0]|] eqn:E; [|discriminate Hc].
    cbn in Hc. injection Hc as _ <-.
    eapply (IH _ Hlt); [reflexivity|exact E]. }
  destruct s as [|c t]; [discriminate H|].
  cbn [json.scanString] in H. cbn [length] in Hm. subst m.
  destruct (code c =? 34).
  - injection H as _ <-. lia.
  - destruct (c =? "\")%char.
    + destruct t as [|e t']; [discriminate H|]. cbn [length] in *.
      destruct (json.isEscape e).
      * apply step in H; lia.
      * destruct (e =? "u")%char; [|discriminate H].
        destruct t' as [|h1 [|h2 [|h3 [|h4 t'']]]]; try discriminate H.
        destruct (_ && _); [|discriminate H].
        cbn [length] in *. apply step in H; lia.
    + destruct (code c <? 32); [discriminate H|].
      apply step in H; lia.
Qed.

Lemma scanNumber_length s lit r :
  json.scanNumber s = Some (lit, r) -> (length r < length s)%nat.
Proof.
  unfold json.scanNumber. intros H.
  destruct (match s with
            | [] => ([], s)
            | c :: t => if (c =? "-")%char then ([c], t) else ([], s)
            end) as [sign s1] eqn:Hsign.
  assert (H1 : (length s1 <= length s)%nat).
  { destruct s as [|c t]; [injection Hsign as <- <-; lia|].
    destruct (c =? "-")%char; injection Hsign as <- <-; cbn [length]; lia. }
  destruct s1 as [|c t]; [discriminate H|].
  match type of H with
  | match ?x with _ => _ end = _ => destruct x as [[ip s2]|] eqn:Hip
  end; [|discriminate H].
  assert (H2 : (length s2 <= length t)%nat).
  { destruct (c =? "0")%char; [injection Hip as <- <-; lia|].
    destruct (json.isDigit c); [|discriminate Hip].
    destruct (json.digits t) as [ds r0] eqn:E. injection Hip as <- <-.
    eapply digits_length; eauto. }
  match type of H with
  | match ?x with _ => _ end = _ => destruct x as [[fp s3]|] eqn:Hfp
  end; [|discriminate H].
  assert (H3 : (length s3 <= length s2)%nat).
  { destruct s2 as [|d t2]; [injection Hfp as <- <-; lia|].
    destruct (d =? ".")%char; [|injection Hfp as <- <-; lia].
    destruct (json.digits t2) as [ds r0] eqn:E.
    destruct ds; [discriminate Hfp|]. injection Hfp as <- <-.
    apply digits_length in E. cbn [length]. lia. }
  match type of H with
  | match ?x with _ => _ end = _ => destruct x as [[ep s4]|] eqn:Hep
  end; [|discriminate H].
  assert (H4 : (length s4 <= length s3)%nat).
  { destruct s3 as [|e t3]; [injection Hep as <- <-; lia|].
    destruct (_ || _); [|injection Hep as <- <-; lia].
    match type of Hep with
    | (let '(_, _) := ?x in _) = _ => destruct x as [sg t4] eqn:Hsg
    end.
    assert (length t4 <= length t3)%nat.
    { destruct t3 as [|g t4']; [injection Hsg as <- <-; lia|].
      destruct (_ || _); injection Hsg as <- <-; cbn [length]; lia. }
    destruct (json.digits t4) as [ds r0] eqn:E.
    destruct ds; [discriminate Hep|]. injection Hep as <- <-.
    apply digits_length in E. cbn [length]. lia. }
  injection H as _ <-. cbn [length] in H1. lia.
Qed.

(** A value takes at least one byte, and a value of [n] bytes is read in
    [2*n+1] rounds: the members of an object and the elements of an array
    take one round more. *)
Lemma parse_progress n :
  (forall d s,
      ((2 * length s < n)%nat -> json.parseValue n d s <> json.OutOfRounds)
      /\ (forall v r, json.parseValue n d s = json.Ok (v, r) ->
                      (length r < length s)%nat))
  /\ (forall d s acc,
      ((2 * length s + 1 < n)%nat ->
       json.parseElements n d s acc <> json.OutOfRounds)
      /\ (forall v r, json.parseElements n d s acc = json.Ok (v, r) ->
                      (length r < length s)%nat))
  /\ (forall d s acc,
      ((2 * length s + 1 < n)%nat ->
       json.parseMembers n d s acc <> json.OutOfRounds)
      /\ (forall v r, json.parseMembers n d s acc = json.Ok (v, r) ->
                      (length r < length s)%nat)).
Proof.
  induction n as [|n [IHv [IHe IHm]]].
  { repeat split; try lia; cbn; discriminate. }
  split; [|split].
  - (* parseValue *)
    intros d s. cbn [json.parseValue].
    pose proof (skipSpace_length s) as Hs.
    destruct (json.skipSpace s) as [|c rest] eqn:Es.
    { split; discriminate. }
    cbn [length] in Hs.
    destruct (c =? "{")%char.
    { destruct (json.maxNestingDepth <? d + 1); [split; discriminate|].
      pose proof (skipSpace_length rest) as Hr.
      destruct (json.skipSpace rest) as [|c' rest'] eqn:Er;
        [split; discriminate|].
      cbn [length] in Hr.
      destruct (c' =? "}")%char.
      - split; [discriminate|]. intros v r H. injection H as _ <-. lia.
      - destruct (IHm (d + 1) rest []) as [Hm1 Hm2]. split.
        + intros Hn. apply Hm1. lia.
        + intros v r H. apply Hm2 in H. lia. }
    destruct (c =? "[")%char.
    { destruct (json.maxNestingDepth <? d + 1); [split; discriminate|].
      pose proof (skipSpace_length rest) as Hr.
      destruct (json.skipSpace rest) as [|c' rest'] eqn:Er;
        [split; discriminate|].
      cbn [length] in Hr.
      destruct (c' =? "]")%char.
      - split; [discriminate|]. intros v r H. injection H as _ <-. lia.
      - destruct (IHe (d + 1) rest []) as [He1 He2]. split.
        + intros Hn. apply He1. lia.
        + intros v r H. apply He2 in H. lia. }
    destruct (code c =? 34).
    { destruct (json.scanString rest) as [[content rest']|] eqn:E;
        [|split; discriminate].
      apply scanString_length in E.
      split; [discriminate|]. intros v r H. injection H as _ <-. lia. }
    destruct (_ || _).
    { destruct (json.scanNumber (c :: rest)) as [[lit rest']|] eqn:E;
        [|split; discriminate].
      apply scanNumber_length in E. cbn [length] in E.
      split; [discriminate|]. intros v r H. injection H as _ <-. lia. }
    repeat match goal with
    | |- context [if strings.HasPrefix ?a ?b then _ else _] =>
        destruct (strings.HasPrefix a b);
        [split; [discriminate|]; intros v r H; injection H as _ <-;
         rewrite length_drop; cbn [length]; lia|]
    end.
    split; discriminate.
  - (* parseElements *)
    intros d s acc. cbn [json.parseElements].
    destruct (IHv d s) as [Hv1 Hv2].
    destruct (json.parseValue n d s) as [[v rest]| |] eqn:Ev.
    + specialize (Hv2 _ _ eq_refl).
      pose proof (skipSpace_length rest) as Hr.
      destruct (json.skipSpace rest) as [|c rest'] eqn:Er;
        [split; discriminate|].
      cbn [length] in Hr.
      destruct (c =? ",")%char.
      * destruct (IHe d rest' (acc ++ [v])) as [He1 He2]. split.
        -- intros Hn. apply He1. lia.
        -- intros v' r H. apply He2 in H. lia.
      * destruct (c =? "]")%char; [|split; discriminate].
        split; [discriminate|]. intros v' r H. injection H as _ <-. lia.
    + split; discriminate.
    + split; [|discriminate]. intros Hn _. apply Hv1; [lia|reflexivity].
  - (* parseMembers *)
    intros d s acc. cbn [json.parseMembers].
    pose proof (skipSpace_length s) as Hs.
    destruct (json.skipSpace s) as [|q s1] eqn:Es; [split; discriminate|].
    cbn [length] in Hs.
    destruct (code q =? 34); [|split; discriminate].
    destruct (json.scanString s1) as [[content s2]|] eqn:E;
      [|split; discriminate].
    apply scanString_length in E.
    pose proof (skipSpace_length s2) as Hs2.
    destruct (json.skipSpace s2) as [|colon s3] eqn:Es2;
      [split; discriminate|].
    cbn [length] in Hs2.
    destruct (colon =? ":")%char; [|split; discriminate].
    destruct (IHv d s3) as [Hv1 Hv2].
    destruct (json.parseValue n d s3) as [[v rest]| |] eqn:Ev.
    + specialize (Hv2 _ _ eq_refl).
      pose proof (skipSpace_length rest) as Hr.
      destruct (json.skipSpace rest) as [|c rest'] eqn:Er;
        [split; discriminate|].
      cbn [length] in Hr.
      destruct (c =? ",")%char.
      * destruct (IHm d rest' (acc ++ [(json.unquote content, v)]))
          as [Hm1 Hm2]. split.
        -- intros Hn. apply Hm1. lia.
        -- intros v' r H. apply Hm2 in H. lia.
      * destruct (c =? "}")%char; [|split; discriminate].
        split; [discriminate|]. intros v' r H. injection H as _ <-. lia.
    + split; discriminate.
    + split; [|discriminate]. intros Hn _. apply Hv1; [lia|reflexivity].
Qed.

(** The reading of a document never stops for want of rounds. *)
Lemma parse_rounds data : json.parse data <> json.OutOfRounds.
Proof.
  unfold json.parse.
  destruct (proj1 (parse_progress (2 * length data + 2))
              0 data) as [H _].
  destruct (json.parseValue _ 0 data) as [[v rest]| |] eqn:E.
  - destruct (json.skipSpace rest); discriminate.
  - discriminate.
  - exfalso. apply H; [lia|reflexivity].
Qed.

(** More rounds do not change an outcome. *)
Lemma parse_more_rounds n :
  (forall m d s, (n <= m)%nat ->
      json.parseValue n d s <> json.OutOfRounds ->
      json.parseValue m d s = json.parseValue n d s)
  /\ (forall m d s acc, (n <= m)%nat ->
      json.parseElements n d s acc <> json.OutOfRounds ->
      json.parseElements m d s acc = json.parseElements n d s acc)
  /\ (forall m d s acc, (n <= m)%nat ->
      json.parseMembers n d s acc <> json.OutOfRounds ->
      json.parseMembers m d s acc = json.parseMembers n d s acc).
Proof.
  induction n as [|n [IHv [IHe IHm]]].
  { repeat split; intros; cbn in *; congruence. }
  split; [|split].
  - intros [|m] d s Hm; [lia|]. cbn [json.parseValue].
    destruct (json.skipSpace s) as [|c rest]; [reflexivity|].
    destruct (c =? "{")%char.
    { destruct (_ <? _); [reflexivity|].
      destruct (json.skipSpace rest) as [|c' rest']; [reflexivity|].
      destruct (c' =? "}")%char; [reflexivity|]. apply IHm. lia. }
    destruct (c =? "[")%char.
    { destruct (_ <? _); [reflexivity|].
      destruct (json.skipSpace rest) as [|c' rest']; [reflexivity|].
      destruct (c' =? "]")%char; [reflexivity|]. apply IHe. lia. }
    reflexivity.
  - intros [|m] d s acc Hm; [lia|]. cbn [json.parseElements]. intros H.
    rewrite (IHv m d s) by (try lia; intros E; rewrite E in H; congruence).
    destruct (json.parseValue n d s) as [[v rest]| |]; try reflexivity.
    destruct (json.skipSpace rest) as [|c rest']; [reflexivity|].
    destruct (c =? ",")%char; [|reflexivity]. apply IHe; [lia|exact H].
  - intros [|m] d s acc Hm; [lia|]. cbn [json.parseMembers]. intros H.
    destruct (json.skipSpace s) as [|q s1]; [reflexivity|].
    destruct (code q =? 34); [|reflexivity].
    destruct (json.scanString s1) as [[content s2]|]; [|reflexivity].
    destruct (json.skipSpace s2) as [|colon s3]; [reflexivity|].
    destruct (colon =? ":")%char; [|reflexivity].
    rewrite (IHv m d s3) by (try lia; intros E; rewrite E in H; congruence).
    destruct (json.parseValue n d s3) as [[v rest]| |]; try reflexivity.
    destruct (json.skipSpace rest) as [|c rest']; [reflexivity|].
    destruct (c =? ",")%char; [|reflexivity]. apply IHm; [lia|exact H].
Qed.

(** The outcome of [parse] is the outcome of every larger number of
    rounds. *)
Lemma parse_any_rounds data n :
  (2 * length data + 2 <= n)%nat ->
  json.parseValue n 0 data = json.parseValue (2 * length data + 2) 0 data.
Proof.
  intros Hn. apply (proj1 (parse_more_rounds _)); [exact Hn|].
  apply (proj1 (parse_progress _)). lia.
Qed.


Lemma eqb_bytes_spec a b : eqb_bytes a b = true <-> a = b.
Proof.
  revert b. induction a as [|x a IH]; intros [|y b]; cbn; try (split; congruence).
  rewrite andb_true_iff, IH, Ascii.eqb_eq. split; [intros [-> ->]; reflexivity|].
  intros H. injection H as -> ->. auto.
Qed.

Lemma eqb_bytes_refl a : eqb_bytes a a = true.
Proof. now apply eqb_bytes_spec. Qed.

Section MissingValues.

Variable unicode_ToLower : Z -> Z.

Local Abbreviation isMissingValue := (isMissingValue unicode_ToLower).
Local Abbreviation hasMissingData := (hasMissingData unicode_ToLower).
Local Abbreviation getMissingFactors := (getMissingFactors unicode_ToLower).
Local Abbreviation selectProblemStations :=
  (selectProblemStations unicode_ToLower).

(** C1.  The classifier answers "missing" exactly for a value that is
    empty once trimmed, or whose trimmed lower-case form is one of the
    tokens, or that holds the em-dash or the marker anywhere (in the value
    as given, not only in its trimmed form); "35" is present. *)
Theorem C1_isMissingValue_spec :
  (forall s : bytes,
     isMissingValue s = true <->
     strings.TrimSpace s = []
     \/ In (strings.ToLower unicode_ToLower (strings.TrimSpace s)) missingTokens
     \/ strings.Contains s (str "—") = true
     \/ strings.Contains s (str "缺失") = true)
  /\ isMissingValue (str "35") = false.
Proof.
  split; [|vm_compute; reflexivity].
  intros s. unfold isMissingValue, isMissingValue.
  rewrite <- (TrimSpace_contains (str "—") s) by (now left).
  rewrite <- (TrimSpace_contains (str "缺失") s) by (now right).
  set (t := strings.TrimSpace s). set (l := strings.ToLower unicode_ToLower t).
  destruct (eqb_bytes t []) eqn:Et.
  { apply eqb_bytes_spec in Et. tauto. }
  assert (Hne : t <> []).
  { intros E. rewrite E in Et. discriminate. }
  unfold missingTokens. cbn [In].
  destruct (eqb_bytes l (str "-")) eqn:E1;
    [apply eqb_bytes_spec in E1; symmetry in E1; cbn [orb];
     split; [intros _|reflexivity]; tauto|].
  destruct (eqb_bytes l (str "—")) eqn:E2;
    [apply eqb_bytes_spec in E2; symmetry in E2; cbn [orb];
     split; [intros _|reflexivity]; tauto|].
  destruct (eqb_bytes l (str "na")) eqn:E3;
    [apply eqb_bytes_spec in E3; symmetry in E3; cbn [orb];
     split; [intros _|reflexivity]; tauto|].
  destruct (eqb_bytes l (str "n/a")) eqn:E4;
    [apply eqb_bytes_spec in E4; symmetry in E4; cbn [orb];
     split; [intros _|reflexivity]; tauto|].
  destruct (eqb_bytes l (str "null")) eqn:E5;
    [apply eqb_bytes_spec in E5; symmetry in E5; cbn [orb];
     split; [intros _|reflexivity]; tauto|].
  cbn [orb].
  assert (Hl : forall tok, eqb_bytes l tok = false -> tok <> l).
  { intros tok E Heq. subst tok. rewrite eqb_bytes_refl in E. discriminate. }
  apply Hl in E1, E2, E3, E4, E5.
  destruct (strings.Contains t (str "—")); [tauto|].
  destruct (strings.Contains t (str "缺失")); [tauto|].
  cbn. split; [discriminate|]. intuition congruence.
Qed.

(** C2, as amended.  A station misses data exactly when one of the seven
    checked fields (the AQI index and the six pollutants) is classified
    missing. *)
Theorem C2_hasMissingData_seven_fields (r : AQIData) :
  hasMissingData r = true <->
  exists v, In v (AQI r :: pollutantFields r) /\ isMissingValue v = true.
Proof.
  unfold hasMissingData, hasMissingData, pollutantFields.
  fold isMissingValue. rewrite !orb_true_iff. cbn [In]. split.
  - intros H. decompose [or] H;
      match goal with
      | Hv : isMissingValue ?v = true |- _ =>
          exists v; split; [tauto|exact Hv]
      end.
  - intros [v [Hin Hv]]. decompose [or] Hin; subst; tauto.
Qed.

Lemma getMissingFactors_filter (st : AQIData) :
  getMissingFactors st
  = map fst (List.filter (fun p => isMissingValue (snd p)) (checkedFields st)).
Proof.
  unfold getMissingFactors, getMissingFactors, checkedFields.
  fold isMissingValue. cbn [List.filter snd].
  destruct (isMissingValue (AQI st)), (isMissingValue (PM25 st)),
    (isMissingValue (PM10 st)), (isMissingValue (O3 st)),
    (isMissingValue (NO2 st)), (isMissingValue (SO2 st)),
    (isMissingValue (CO st)); reflexivity.
Qed.

Lemma selectProblemStations_filter (data : list AQIData) :
  selectProblemStations data
  = filter (fun st => (PositionName st ∉ ignorePositionNames)
                      /\ hasMissingData st = true) data.
Proof.
  unfold selectProblemStations, selectProblemStations.
  assert (H : forall acc,
    fold_left (selectStep unicode_ToLower) data acc
    = acc ++ filter (fun st => (PositionName st ∉ ignorePositionNames)
                               /\ hasMissingData st = true) data).
  { induction data as [|st data IH]; intros acc; cbn [fold_left].
    - now rewrite app_nil_r.
    - rewrite IH. unfold selectStep. fold hasMissingData.
      rewrite filter_cons.
      destruct (decide (PositionName st ∈ ignorePositionNames)) as [Hin|Hin].
      + rewrite bool_decide_eq_true_2 by assumption.
        rewrite decide_False by tauto. reflexivity.
      + rewrite bool_decide_eq_false_2 by assumption.
        destruct (hasMissingData st) eqn:E.
        * rewrite decide_True by tauto. now rewrite <- app_assoc.
        * rewrite decide_False by (intros [_ ?]; discriminate). reflexivity. }
  apply (H []).
Qed.

(** C3.  The selection keeps, in the order received, the stations whose
    name is not on the ignore list and that miss data; a station on the
    ignore list is never kept; the factors of a station are the names of
    its missing fields in the order AQI, PM2.5, PM10, O3, NO2, SO2, CO. *)
Theorem C3_problem_selector (data : list AQIData) :
  selectProblemStations data
  = filter (fun st => (PositionName st ∉ ignorePositionNames)
                      /\ hasMissingData st = true) data
  /\ selectProblemStations data `sublist_of` data
  /\ (forall st, PositionName st ∈ ignorePositionNames ->
                 st ∉ selectProblemStations data)
  /\ (forall st,
        getMissingFactors st
        = map fst (List.filter (fun p => isMissingValue (snd p))
                               (checkedFields st))
        /\ map fst (checkedFields st) = factorNames).
Proof.
  rewrite selectProblemStations_filter. split; [reflexivity|].
  split; [apply sublist_filter|]. split.
  - intros st Hin Hsel. apply list_elem_of_filter in Hsel. tauto.
  - intros st. split; [apply getMissingFactors_filter|reflexivity].
Qed.

Lemma getMissingFactors_nonempty (r : AQIData) :
  hasMissingData r = true <-> getMissingFactors r <> [].
Proof.
  unfold hasMissingData, hasMissingData,
    getMissingFactors, getMissingFactors.
  fold isMissingValue.
  destruct (isMissingValue (AQI r)), (isMissingValue (PM25 r)),
    (isMissingValue (PM10 r)), (isMissingValue (O3 r)),
    (isMissingValue (NO2 r)), (isMissingValue (SO2 r)),
    (isMissingValue (CO r)); cbn; split; congruence.
Qed.

Lemma formatMissingFactors_nonempty (fs : list bytes) :
  fs <> [] -> formatMissingFactors fs = strings.Join fs (str "、").
Proof. destruct fs; [congruence|reflexivity]. Qed.

Lemma fold_left_ext_in {A B : Type} (f g : A -> B -> A) (l : list B) (a : A) :
  (forall x b, In b l -> f x b = g x b) -> fold_left f l a = fold_left g l a.
Proof.
  revert a. induction l as [|b l IH]; intros a H; [reflexivity|].
  cbn. rewrite H by (now left). apply IH. intros x b' Hb'. apply H. now right.
Qed.

(** C10.  A station misses data exactly when its factor list is not
    empty; the factor list is a subsequence of the fixed list of names;
    so every selected station has a factor, and in the texts built from
    the selected stations the placeholder of [formatMissingFactors] never
    appears: the texts are those built with [strings.Join] alone. *)
Theorem C10_factors_nonempty :
  (forall r, hasMissingData r = true <-> getMissingFactors r <> [])
  /\ (forall r, getMissingFactors r `sublist_of` factorNames)
  /\ (forall data st, st ∈ selectProblemStations data ->
        getMissingFactors st <> []
        /\ formatMissingFactors (getMissingFactors st)
           = strings.Join (getMissingFactors st) (str "、"))
  /\ (forall Local data,
        let ps := selectProblemStations data in
        wechatContent unicode_ToLower Local ps
        = wechatContentWith (fun fs => strings.Join fs (str "、"))
            (formatTimeForAlert Local ps) getMissingFactors ps
        /\ dingTalkText unicode_ToLower Local ps
           = dingTalkTextWith (fun fs => strings.Join fs (str "、"))
               (formatTimeForAlert Local ps) getMissingFactors ps).
Proof.
  assert (Hsel : forall data st, st ∈ selectProblemStations data ->
            getMissingFactors st <> []).
  { intros data st Hin. rewrite selectProblemStations_filter in Hin.
    apply list_elem_of_filter in Hin as [[_ Hm] _].
    now apply getMissingFactors_nonempty. }
  split; [exact getMissingFactors_nonempty|]. split.
  - intros r. rewrite getMissingFactors_filter.
    change factorNames with (map fst (checkedFields r)).
    apply fmap_sublist.
    induction (checkedFields r) as [|p l IH]; cbn [List.filter].
    + constructor.
    + destruct (isMissingValue (snd p)); now constructor.
  - split.
    + intros data st Hin. split; [eauto|].
      apply formatMissingFactors_nonempty. eauto.
    + intros Local data ps. split.
      * unfold wechatContent, wechatContentWith. f_equal.
        rewrite <- !app_assoc. apply fold_left_ext_in.
        intros x b Hb. fold getMissingFactors.
        rewrite formatMissingFactors_nonempty; [reflexivity|].
        apply (Hsel data). now apply list_elem_of_In.
      * unfold dingTalkText, dingTalkTextWith. f_equal.
        rewrite <- !app_assoc. apply fold_left_ext_in.
        intros x b Hb. fold getMissingFactors.
        rewrite formatMissingFactors_nonempty; [reflexivity|].
        apply (Hsel data). now apply list_elem_of_In.
Qed.

End MissingValues.


Lemma fetchAQIData_run (w : World) (r : Run) :
  fetchAQIData w r = (attempt w (calls r), after r 1 [EvDo fetchRequest]).
Proof.
  unfold fetchAQIData, attempt, bind, client_Do, ret, after.
  rewrite Nat.add_1_r.
  destruct (http_do w (calls r) fetchRequest) as [e|sc body re]; [reflexivity|].
  destruct (negb (sc =? 200)); [reflexivity|].
  destruct re; reflexivity.
Qed.

Lemma after_after r n evs m evs' :
  after (after r n evs) m evs' = after r (n + m) (evs ++ evs').
Proof. unfold after. cbn. f_equal; [lia|now rewrite <- app_assoc]. Qed.

Lemma calls_after r n evs : calls (after r n evs) = (calls r + n)%nat.
Proof. reflexivity. Qed.

Lemma Sleep_run d r : Sleep d r = (tt, after r 0 [EvSleep d]).
Proof. unfold Sleep, emit, after. now rewrite Nat.add_0_r. Qed.

(** One round of the retry loop. *)
Lemma fetchLoop_step (w : World) k i data err r :
  fetchLoop w (S k) i data err r
  = if failed w (calls r)
    then fetchLoop w k (i + 1) (fst (attempt w (calls r)))
           (snd (attempt w (calls r)))
           (after r 1 [EvDo fetchRequest;
                       EvSleep (500 * Z.shiftl 1 i * Millisecond)])
    else (attempt w (calls r), after r 1 [EvDo fetchRequest]).
Proof.
  cbn [fetchLoop]. unfold bind at 1. rewrite fetchAQIData_run.
  unfold failed. destruct (attempt w (calls r)) as [d [e|]]; cbn [fst snd].
  - unfold bind. rewrite Sleep_run, after_after. reflexivity.
  - reflexivity.
Qed.

(** The retry loop unrolled. *)
Lemma fetchWithRetry_unfold (w : World) (r : Run) :
  let n := calls r in
  let req := EvDo fetchRequest in
  let ms := Millisecond in
  fetchWithRetry w r
  = (if negb (failed w n) then
       (attempt w n, after r 1 [req])
     else if negb (failed w (n + 1)) then
       (attempt w (n + 1), after r 2 [req; EvSleep (500 * ms); req])
     else if negb (failed w (n + 2)) then
       (attempt w (n + 2),
        after r 3 [req; EvSleep (500 * ms); req; EvSleep (1000 * ms); req])
     else
       (attempt w (n + 2),
        after r 3 [req; EvSleep (500 * ms); req; EvSleep (1000 * ms); req;
                   EvSleep (2000 * ms)])).
Proof.
  intros n req ms.
  unfold fetchWithRetry. rewrite fetchLoop_step. fold n.
  destruct (failed w n) eqn:F0; cbn [negb]; [|reflexivity].
  rewrite fetchLoop_step, calls_after. fold n.
  destruct (failed w (n + 1)) eqn:F1; cbn [negb].
  2:{ rewrite after_after. reflexivity. }
  rewrite fetchLoop_step, !after_after, calls_after. fold n.
  replace (n + (1 + 1))%nat with (n + 2)%nat by lia.
  destruct (failed w (n + 2)) eqn:F2; cbn [negb].
  - cbn [fetchLoop]. unfold ret.
    destruct (attempt w (n + 2)). reflexivity.
  - reflexivity.
Qed.

(** C4.  The loop sends at most three requests.  It stops at the first
    attempt that succeeds; after a failed attempt of index [i] it sleeps
    [500ms * 2^i], that is 500ms, 1s and 2s, before it goes on; when all
    three attempts fail it has sent exactly three requests and returns the
    error of the third. *)
Theorem C4_retry_policy (w : World) (r : Run) :
  let n := calls r in
  let req := EvDo fetchRequest in
  let ms := Millisecond in
  fetchWithRetry w r
  = (if negb (failed w n) then
       (attempt w n, after r 1 [req])
     else if negb (failed w (n + 1)) then
       (attempt w (n + 1), after r 2 [req; EvSleep (500 * ms); req])
     else if negb (failed w (n + 2)) then
       (attempt w (n + 2),
        after r 3 [req; EvSleep (500 * ms); req; EvSleep (1000 * ms); req])
     else
       (attempt w (n + 2),
        after r 3 [req; EvSleep (500 * ms); req; EvSleep (1000 * ms); req;
                   EvSleep (2000 * ms)]))
  /\ (calls (snd (fetchWithRetry w r)) <= n + 3)%nat
  /\ (forall i, 0 <= i -> 500 * Z.shiftl 1 i * ms = 500 * ms * 2 ^ i)
  /\ (failed w n = true -> failed w (n + 1) = true ->
      failed w (n + 2) = true ->
      calls (snd (fetchWithRetry w r)) = (n + 3)%nat
      /\ snd (fst (fetchWithRetry w r)) = snd (attempt w (n + 2))
      /\ snd (fst (fetchWithRetry w r)) <> None).
Proof.
  intros n req ms.
  pose proof (fetchWithRetry_unfold w r) as E. cbv zeta in E. fold n in E.
  split; [exact E|]. split; [|split].
  - rewrite E.
    destruct (failed w n), (failed w (n + 1)), (failed w (n + 2));
      cbn; fold n; lia.
  - intros i Hi. rewrite Z.shiftl_mul_pow2 by lia. lia.
  - intros F0 F1 F2. rewrite E, F0, F1, F2. cbn [negb fst snd after calls].
    split; [reflexivity|]. split; [reflexivity|].
    unfold failed in F2. destruct (snd (attempt w (n + 2))); discriminate.
Qed.

(** C7, as amended.  The retry loop does not tell a decode error from a
    transport or status error: when the body of an attempt was fetched but
    cannot be decoded, the loop sleeps and fetches again, and the decode
    error is surfaced only once it is the error of the third attempt. *)
Theorem C7_decode_error_retried (w : World) (r : Run) (body : bytes) :
  http_do w (calls r) fetchRequest = Response 200 body None ->
  snd (decodeResponse (range_order w (calls r)) body) <> None ->
  (exists rest,
     trace (snd (fetchWithRetry w r))
     = trace r ++ [EvDo fetchRequest; EvSleep (500 * Millisecond);
                   EvDo fetchRequest] ++ rest)
  /\ (calls r + 2 <= calls (snd (fetchWithRetry w r)))%nat
  /\ (failed w (calls r + 1) = true -> failed w (calls r + 2) = true ->
      calls (snd (fetchWithRetry w r)) = (calls r + 3)%nat
      /\ snd (fst (fetchWithRetry w r)) = snd (attempt w (calls r + 2))).
Proof.
  intros Hreply Hdec.
  assert (F0 : failed w (calls r) = true).
  { unfold failed, attempt. rewrite Hreply. cbn.
    destruct (snd (decodeResponse _ body)); [reflexivity|congruence]. }
  pose proof (fetchWithRetry_unfold w r) as E. cbv zeta in E.
  rewrite E, F0. cbn [negb].
  destruct (failed w (calls r + 1)) eqn:F1, (failed w (calls r + 2)) eqn:F2;
    cbn [negb snd fst after calls trace].
  - split; [eexists; reflexivity|]. split; [lia|]. auto.
  - split; [eexists; reflexivity|]. split; [lia|]. intros _ H; discriminate.
  - split; [exists []; reflexivity|]. split; [lia|]. intros H; discriminate.
  - split; [exists []; reflexivity|]. split; [lia|]. intros H; discriminate.
Qed.


(** C4 at an environment where every request fails: three requests, the
    sleeps of 500ms, 1s and 2s, and the error of the third. *)
Lemma C4_retry_policy_witness :
  failed deadWorld 0 = true /\ failed deadWorld 1 = true
  /\ failed deadWorld 2 = true
  /\ calls (snd (fetchWithRetry deadWorld Run0)) = 3%nat
  /\ snd (fst (fetchWithRetry deadWorld Run0)) = Some (ErrNet 2)
  /\ trace (snd (fetchWithRetry deadWorld Run0))
     = [EvDo fetchRequest; EvSleep 500000000; EvDo fetchRequest;
        EvSleep 1000000000; EvDo fetchRequest; EvSleep 2000000000].
Proof.
  pose proof (C4_retry_policy deadWorld Run0) as [E [_ [_ H]]].
  cbv zeta in H. specialize (H eq_refl eq_refl eq_refl).
  destruct H as [H1 [H2 _]].
  split; [reflexivity|]. split; [reflexivity|]. split; [reflexivity|].
  split; [exact H1|]. split; [rewrite H2; reflexivity|].
  cbv zeta in E. rewrite E. reflexivity.
Defined.

(** The claim C7 fails: the body is fetched with status 200 and cannot be
    decoded, and the run sends two more requests. *)
Lemma C7_counterexample :
  http_do garbageWorld 0 fetchRequest = Response 200 (str "garbage") None
  /\ decodeResponse (range_order garbageWorld 0) (str "garbage")
     = ([], Some errCannotDecode)
  /\ requests (trace (snd (fetchWithRetry garbageWorld Run0))) = 3%nat
  /\ fst (fetchWithRetry garbageWorld Run0) = ([], Some errCannotDecode).
Proof. repeat split; vm_compute; reflexivity. Qed.

Lemma C7_decode_error_retried_witness :
  http_do garbageWorld (calls Run0) fetchRequest
  = Response 200 (str "garbage") None
  /\ snd (decodeResponse (range_order garbageWorld (calls Run0)) (str "garbage"))
     <> None
  /\ (calls Run0 + 2 <= calls (snd (fetchWithRetry garbageWorld Run0)))%nat.
Proof.
  assert (H1 : http_do garbageWorld (calls Run0) fetchRequest
               = Response 200 (str "garbage") None) by reflexivity.
  assert (H2 : snd (decodeResponse (range_order garbageWorld (calls Run0))
                      (str "garbage")) <> None) by (vm_compute; discriminate).
  split; [exact H1|]. split; [exact H2|].
  exact (proj1 (proj2 (C7_decode_error_retried garbageWorld Run0
                         (str "garbage") H1 H2))).
Defined.











Lemma objectOf_lookup_In members k c :
  objectOf members !! k = Some c -> In (k, c) members.
Proof.
  unfold objectOf. 
  assert (H : forall m0 : gmap bytes json.Value,
    fold_left (fun m kv => <[fst kv := snd kv]> m) members m0 !! k = Some c ->
    In (k, c) members \/ m0 !! k = Some c).
  { induction members as [|[k' v'] ms IH]; intros m0 Hl; cbn in *; [now right|].
    apply IH in Hl as [Hl|Hl]; [left; now right|].
    destruct (decide (k' = k)) as [->|Hne].
    - rewrite lookup_insert_eq in Hl. injection Hl as ->. left. now left.
    - rewrite lookup_insert_ne in Hl by assumption. now right. }
  intros Hl. apply H in Hl as [Hl|Hl]; [assumption|].
  rewrite lookup_empty in Hl. discriminate.
Qed.

Section Decoder.

Variable order : MapOrder.
Hypothesis order_valid : validOrder order.




End Decoder.


Lemma orderForward_valid : validOrder orderForward.
Proof. intros m. reflexivity. Qed.

Lemma orderBackward_valid : validOrder orderBackward.
Proof. intros m. unfold orderBackward. apply reverse_Permutation. Qed.


(** C5 fails on the code.  In the payload [wrappedTwice] the array under
    Data does not decode, its AQI being a number, and the array under
    data does; the decoder settles on the array under data, whatever the
    order of the map iteration, and that array holds one station without
    a name whose ozone reading is a dash.  The station the decoder
    returns has the name A, which stands only in the array it rejected:
    the attempts share the slice [arr], and [json.Unmarshal] writes the
    station of the second array into the element the first attempt left
    there.  With [null] for the station of the second array, the station
    returned is the rejected one as it stood. *)
Theorem C5_decoder_reuses_slice (order : MapOrder) :
  let station st := (PositionName st, AQI st, O3 st) in
  (exists rejected chosen,
     memberOf wrappedTwice (str "Data") = Some rejected
     /\ memberOf wrappedTwice (str "data") = Some chosen
     /\ decodes rejected = false /\ decodes chosen = true
     /\ decoderChoice order wrappedTwice = Some chosen
     /\ map station (elems (fst (unmarshalStations chosen nilSlice)))
        = [([], [], str "—")]
     /\ map station (fst (decodeResponse order wrappedTwice))
        = [(str "A", [], str "—")]
     /\ snd (decodeResponse order wrappedTwice) = None)
  /\ (exists rejected chosen,
     memberOf wrappedNull (str "Data") = Some rejected
     /\ memberOf wrappedNull (str "data") = Some chosen
     /\ decodes rejected = false /\ decodes chosen = true
     /\ decoderChoice order wrappedNull = Some chosen
     /\ map station (elems (fst (unmarshalStations chosen nilSlice)))
        = [([], [], [])]
     /\ map station (fst (decodeResponse order wrappedNull))
        = [(str "A", [], [])]
     /\ snd (decodeResponse order wrappedNull) = None).
Proof.
  intros station. split.
  - eexists _, _. split; [vm_compute; reflexivity|].
    split; [vm_compute; reflexivity|].
    repeat split; vm_compute; reflexivity.
  - eexists _, _. split; [vm_compute; reflexivity|].
    split; [vm_compute; reflexivity|].
    repeat split; vm_compute; reflexivity.
Qed.

(** C6 fails on the code.  Both orders below visit every member of the
    object once, as a [range] over a Go map may; the decoder returns the
    station Y under the one and the station X under the other. *)
Theorem C6_decoder_depends_on_map_order :
  validOrder orderForward /\ validOrder orderBackward
  /\ map PositionName (fst (decodeResponse orderForward twoArrays)) = [str "Y"]
  /\ map PositionName (fst (decodeResponse orderBackward twoArrays)) = [str "X"]
  /\ snd (decodeResponse orderForward twoArrays) = None
  /\ snd (decodeResponse orderBackward twoArrays) = None.
Proof.
  split; [exact orderForward_valid|]. split; [exact orderBackward_valid|].
  repeat split; vm_compute; reflexivity.
Qed.

(** ** Dispatch *)

(** The map [json.Unmarshal] builds in a [map[string]interface{}] is the
    map of the members, each converted. *)
Lemma Unmarshal_any_map (members : list (bytes * json.Value))
    (m : gmap bytes json.Value) :
  fold_left (fun m kv => <[fst kv := json.toAny (snd kv)]> m) members
    (json.toAny <$> m)
  = json.toAny <$> fold_left (fun m kv => <[fst kv := snd kv]> m) members m.
Proof.
  revert m. induction members as [|[k v] ms IH]; intros m; [reflexivity|].
  cbn [fold_left fst snd]. rewrite <- IH. now rewrite fmap_insert.
Qed.

Lemma Unmarshal_any_lookup (members : list (bytes * json.Value)) (k : bytes) :
  fold_left (fun m kv => <[fst kv := json.toAny (snd kv)]> m) members
    (∅ : gmap bytes json.Any) !! k
  = json.toAny <$> (objectOf members !! k).
Proof.
  unfold objectOf. rewrite <- lookup_fmap, <- Unmarshal_any_map.
  now rewrite fmap_empty.
Qed.

Lemma toAny_float64 v f :
  json.toAny v = json.AFloat64 f
  <-> exists lit, v = json.Number lit
        /\ json.overflows (json.decimalOf lit) = false
        /\ f = json.decimalOf lit.
Proof.
  split.
  - destruct v as [ |b|lit|s|vs|ms]; cbn; try discriminate.
    destruct (json.overflows (json.decimalOf lit)) eqn:Ho; [discriminate|].
    intros E. injection E as <-. now exists lit.
  - intros [lit [-> [Ho ->]]]. cbn. now rewrite Ho.
Qed.

Lemma hasRangeError_member (members : list (bytes * json.Value)) k lit :
  json.hasRangeError (json.Object members) = false ->
  objectOf members !! k = Some (json.Number lit) ->
  json.overflows (json.decimalOf lit) = false.
Proof.
  intros Hr Hl. apply objectOf_lookup_In in Hl. cbn in Hr.
  destruct (json.overflows (json.decimalOf lit)) eqn:Ho; [|reflexivity].
  rewrite <- Hr. symmetry. apply existsb_exists.
  exists (k, json.Number lit). split; [exact Hl|exact Ho].
Qed.

Lemma checkErrcode_spec channel body :
  (checkErrcode channel body <> None <-> appError body)
  /\ (checkErrcode channel body = None
      \/ exists f, checkErrcode channel body
                   = Some (ErrWebhookErrcode channel f body)).
Proof.
  unfold checkErrcode, appError, Unmarshal_any.
  destruct (json.parse body) as [v| |] eqn:Hp.
  2:{ split; [|now left]. split; [congruence|].
      intros [ms [lit [H _]]]. discriminate. }
  2:{ split; [|now left]. split; [congruence|].
      intros [ms [lit [H _]]]. discriminate. }
  destruct v as [ |b|lit|s|vs|members];
    try (split; [|now left]; split; [congruence|];
         intros [ms [lit' [H _]]]; discriminate).
  { split; [|now left]. rewrite lookup_empty. split; [congruence|].
    intros [ms [lit' [H _]]]. discriminate. }
  destruct (json.hasRangeError (json.Object members)) eqn:Hr.
  { split; [|now left]. split; [congruence|].
    intros [ms [lit [H [Hr' _]]]]. injection H as <-. congruence. }
  rewrite Unmarshal_any_lookup.
  destruct (objectOf members !! str "errcode") as [v|] eqn:Hl; cbn [fmap option_fmap option_map].
  2:{ split; [|now left]. split; [congruence|].
      intros [ms [lit [H [_ [Hl' _]]]]]. injection H as <-. congruence. }
  destruct (json.toAny v) as [ |b|f|s|l|l] eqn:Hv;
    try (split; [|now left]; split; [congruence|];
         intros [ms [lit [H [_ [Hl' _]]]]]; injection H as <-;
         rewrite Hl in Hl'; injection Hl' as ->;
         pose proof (hasRangeError_member _ _ _ Hr Hl) as Ho;
         cbn in Hv; rewrite Ho in Hv; discriminate).
  apply toAny_float64 in Hv as [lit [-> [Ho ->]]].
  destruct (json.isZero (json.decimalOf lit)) eqn:Hz; cbn [negb].
  - split; [|now left]. split; [congruence|].
    intros [ms [lit' [H [_ [Hl' Hz']]]]]. injection H as <-.
    rewrite Hl in Hl'. injection Hl' as <-. congruence.
  - split; [|right; now eexists]. split; [|discriminate].
    intros _. now exists members, lit.
Qed.

Section Dispatch.

Variable unicode_ToLower : Z -> Z.
Variable Local : time.Location.
Variable world : World.

Lemma nonempty_length {A} (l : list A) : l <> [] -> (length l =? 0)%nat = false.
Proof. destruct l; [congruence|reflexivity]. Qed.

Lemma nonempty_eqb (k : bytes) : k <> [] -> eqb_bytes k [] = false.
Proof. destruct k; [congruence|reflexivity]. Qed.

(** What each sender returns once its request is sent and the reply has
    status 200. *)
Lemma sendAlertToWechatWork_200 ps key r body readErr :
  ps <> [] -> key <> [] -> url.Parse_ok (wechatURL key) = true ->
  (forall req, http_do world (calls r) req = Response 200 body readErr) ->
  fst (sendAlertToWechatWork unicode_ToLower Local world ps key r)
  = Returned (checkErrcode (str "wechat") (take 4096 body)).
Proof.
  intros Hps Hkey Hurl Hreply. unfold sendAlertToWechatWork.
  rewrite nonempty_length, nonempty_eqb by assumption. cbn [orb].
  fold (wechatURL key). rewrite Hurl. cbn [negb].
  unfold bind, client_Do. rewrite Hreply. reflexivity.
Qed.

Lemma sendAlertToDingTalk_200 ps token r body readErr :
  ps <> [] -> token <> [] -> url.Parse_ok (dingTalkURL token) = true ->
  (forall req, http_do world (calls r) req = Response 200 body readErr) ->
  fst (sendAlertToDingTalk unicode_ToLower Local world ps token r)
  = Returned (checkErrcode (str "dingtalk") (take 4096 body)).
Proof.
  intros Hps Hkey Hurl Hreply. unfold sendAlertToDingTalk.
  rewrite nonempty_length, nonempty_eqb by assumption. cbn [orb].
  fold (dingTalkURL token). rewrite Hurl. cbn [negb].
  unfold bind, client_Do. rewrite Hreply. reflexivity.
Qed.

(** C9, as amended.  Take a dispatch on either channel that received a
    reply with status 200: there are stations and a credential, the
    address with the credential parses, so that the request is sent, and
    the reply has status 200.  It fails exactly when the first 4096 bytes
    of the reply body, the part the sender reads, are a JSON object in
    which no number lies outside the range of float64 and whose member
    [errcode], the last of that name, is a number that is not zero as a
    float64; it fails then with the application-level error, which names
    the channel and carries the bytes read.  In every other case the
    dispatch returns no error; it never panics. *)
Theorem C9_errcode_check ps credential r body readErr :
  ps <> [] -> credential <> [] ->
  url.Parse_ok (wechatURL credential) = true ->
  url.Parse_ok (dingTalkURL credential) = true ->
  (forall req, http_do world (calls r) req = Response 200 body readErr) ->
  let read := take 4096 body in
  let wechat :=
    fst (sendAlertToWechatWork unicode_ToLower Local world ps credential r) in
  let dingtalk :=
    fst (sendAlertToDingTalk unicode_ToLower Local world ps credential r) in
  (wechat <> Returned None <-> appError read)
  /\ (wechat = Returned None
      \/ exists f,
           wechat = Returned (Some (ErrWebhookErrcode (str "wechat") f read)))
  /\ (dingtalk <> Returned None <-> appError read)
  /\ (dingtalk = Returned None
      \/ exists f,
           dingtalk
           = Returned (Some (ErrWebhookErrcode (str "dingtalk") f read))).
Proof.
  intros Hps Hc Hw Hd Hreply read wechat dingtalk. unfold wechat, dingtalk.
  rewrite (sendAlertToWechatWork_200 ps credential r body readErr) by assumption.
  rewrite (sendAlertToDingTalk_200 ps credential r body readErr) by assumption.
  fold read.
  destruct (checkErrcode_spec (str "wechat") read) as [H1 H2].
  destruct (checkErrcode_spec (str "dingtalk") read) as [H3 H4].
  assert (R : forall o : option error, Returned o <> Returned None <-> o <> None).
  { intros o. split; intros H E; apply H; congruence. }
  rewrite !R. split; [exact H1|]. split.
  { destruct H2 as [->|[f ->]]; [now left|right; now exists f]. }
  split; [exact H3|].
  destruct H4 as [->|[f ->]]; [now left|right; now exists f].
Qed.

End Dispatch.

Lemma bothSucceed_intro (body : bytes) :
  checkErrcode (str "wechat") (take 4096 body) = None ->
  checkErrcode (str "dingtalk") (take 4096 body) = None ->
  bothSucceed body.
Proof.
  intros H1 H2. unfold bothSucceed. cbv zeta. intros tbl Local. split.
  - rewrite (sendAlertToWechatWork_200 tbl Local _ _ _ Run0 body None);
      try discriminate; try reflexivity. now rewrite H1.
  - rewrite (sendAlertToDingTalk_200 tbl Local _ _ _ Run0 body None);
      try discriminate; try reflexivity. now rewrite H2.
Qed.

Lemma reportsError_intro body members lit :
  json.parse body = json.Ok (json.Object members) ->
  In (str "errcode", json.Number lit) members ->
  json.mant (json.decimalOf lit) <> 0 ->
  reportsError body.
Proof. intros H1 H2 H3. now exists members, lit. Qed.

(** The claim C9 fails, in four ways.  Each body below is a JSON object
    with a member [errcode] that is a number other than zero, and both
    dispatches succeed on a reply with status 200 that carries it: the
    first body has 4130 bytes, of which the senders read 4096, which are
    not a complete document; the second holds the number 1e999, for
    which [json.Unmarshal] returns an error although the object is well
    formed; in the third the error code 1e-400 is zero as a float64; the
    fourth names the error code twice, and the map keeps the second. *)
Lemma C9_counterexample :
  (reportsError longErrorBody /\ bothSucceed longErrorBody)
  /\ (reportsError rangeErrorBody /\ bothSucceed rangeErrorBody)
  /\ (reportsError tinyErrorBody /\ bothSucceed tinyErrorBody)
  /\ (reportsError twiceErrorBody /\ bothSucceed twiceErrorBody).
Proof.
  split; [|split; [|split]]; (split;
    [ eapply reportsError_intro;
      [vm_compute; reflexivity|left; reflexivity|vm_compute; discriminate]
    | apply bothSucceed_intro; vm_compute; reflexivity ]).
Qed.

Lemma C9_errcode_check_witness :
  let w := replyWorld (Response 200 shortErrorBody None) in
  [stationWithoutAQI] <> [] /\ str "key" <> []
  /\ url.Parse_ok (wechatURL (str "key")) = true
  /\ url.Parse_ok (dingTalkURL (str "key")) = true
  /\ (forall req, http_do w (calls Run0) req = Response 200 shortErrorBody None)
  /\ (fst (sendAlertToWechatWork (fun r => r) time.UTC w [stationWithoutAQI]
             (str "key") Run0) <> Returned None
      <-> appError (take 4096 shortErrorBody)).
Proof.
  intros w.
  assert (H1 : [stationWithoutAQI] <> []) by discriminate.
  assert (H2 : str "key" <> []) by discriminate.
  assert (U1 : url.Parse_ok (wechatURL (str "key")) = true) by reflexivity.
  assert (U2 : url.Parse_ok (dingTalkURL (str "key")) = true) by reflexivity.
  assert (H3 : forall req, http_do w (calls Run0) req
                           = Response 200 shortErrorBody None) by reflexivity.
  split; [exact H1|]. split; [exact H2|]. split; [exact U1|].
  split; [exact U2|]. split; [exact H3|].
  exact (proj1 (C9_errcode_check (fun r => r) time.UTC w [stationWithoutAQI]
                  (str "key") Run0 shortErrorBody None H1 H2 U1 U2 H3)).
Defined.


Section TimeLabel.

Variable Local : time.Location.






End TimeLabel.





(** The claim C2 fails: the station below has the empty AQI and six
    pollutant readings that are numbers; it misses data, and none of its
    six pollutant fields is classified missing. *)
Lemma C2_counterexample :
  (forall tbl, hasMissingData tbl stationWithoutAQI = true)
  /\ (forall tbl v, In v (pollutantFields stationWithoutAQI) ->
                    isMissingValue tbl v = false).
Proof.
  split; [reflexivity|].
  intros tbl v Hv. unfold pollutantFields, stationWithoutAQI in Hv.
  cbn [In O3 NO2 PM10 PM25 SO2 CO] in Hv.
  decompose [or] Hv; subst; try reflexivity. contradiction.
Qed.


(** ** Two runs of the program's parts *)

(** A server that is down twice and then answers: two sleeps, three
    requests, the station of the third reply. *)
Example fetch_flakyWorld :
  map PositionName (fst (fst (fetchWithRetry flakyWorld Run0))) = [str "X"]
  /\ snd (fst (fetchWithRetry flakyWorld Run0)) = None
  /\ trace (snd (fetchWithRetry flakyWorld Run0))
     = [EvDo fetchRequest; EvSleep 500000000; EvDo fetchRequest;
        EvSleep 1000000000; EvDo fetchRequest].
Proof. repeat split; vm_compute; reflexivity. Qed.

(** * Further properties of the program *)

(** ** Fetching *)

Lemma decodeResponse_error_nil order raw :
  snd (decodeResponse order raw) <> None -> fst (decodeResponse order raw) = [].
Proof.
  unfold decodeResponse.
  destruct (Unmarshal_stations raw nilSlice) as [arr [e|]]; [|cbn; congruence].
  destruct (Unmarshal_object raw) as [obj [e'|]]; [reflexivity|].
  destruct (tryKeys obj wrapperKeys arr) as [data|arr']; [cbn; congruence|].
  destruct (tryValues (order obj) arr') as [data|arr'']; [cbn; congruence|].
  reflexivity.
Qed.

Lemma attempt_error_nil (w : World) n :
  snd (attempt w n) <> None -> fst (attempt w n) = [].
Proof.
  unfold attempt.
  destruct (http_do w n fetchRequest) as [e|sc body re]; [reflexivity|].
  destruct (negb (sc =? 200)); [reflexivity|].
  destruct re; [reflexivity|apply decodeResponse_error_nil].
Qed.

(** X1.  One call of [fetchAQIData] sends one GET request to the fixed
    address and nothing else; it never returns stations together with an
    error; a status other than 200 is reported with that status and with
    at most the first 2048 bytes of the body, and a transport error or an
    error while reading the body as it is. *)
Theorem fetchAQIData_one_request (w : World) (r : Run) :
  let res := fst (fetchAQIData w r) in
  snd (fetchAQIData w r) = after r 1 [EvDo fetchRequest]
  /\ req_Method fetchRequest = str "GET" /\ req_URL fetchRequest = url
  /\ (snd res <> None -> fst res = [])
  /\ (forall sc body readErr,
        http_do w (calls r) fetchRequest = Response sc body readErr ->
        sc <> 200 ->
        res = ([], Some (ErrFetchStatus sc (take 2048 body)))
        /\ (length (take 2048 body) <= 2048)%nat)
  /\ (forall e, http_do w (calls r) fetchRequest = NetError e ->
                res = ([], Some e))
  /\ (forall body e,
        http_do w (calls r) fetchRequest = Response 200 body (Some e) ->
        res = ([], Some e)).
Proof.
  intros res. unfold res. rewrite fetchAQIData_run. cbn [fst snd].
  split; [reflexivity|]. split; [reflexivity|]. split; [reflexivity|].
  split; [apply attempt_error_nil|]. unfold attempt. split; [|split].
  - intros sc body readErr -> Hsc.
    apply Z.eqb_neq in Hsc. rewrite Hsc. cbn [negb].
    split; [reflexivity|]. rewrite length_take. apply Nat.le_min_l.
  - intros e ->. reflexivity.
  - intros body e ->. reflexivity.
Qed.

(** ** Dispatch *)

Section Senders.

Variable unicode_ToLower : Z -> Z.
Variable Local : time.Location.
Variable world : World.

Local Abbreviation sendWechat := (sendAlertToWechatWork unicode_ToLower Local world).
Local Abbreviation sendDingTalk := (sendAlertToDingTalk unicode_ToLower Local world).
Local Abbreviation wechatReq := (wechatRequest unicode_ToLower Local).
Local Abbreviation dingTalkReq := (dingTalkRequest unicode_ToLower Local).

(** What a sender does with stations and a credential: it panics before
    any request when its address does not parse, and else sends its one
    request and returns by the reply. *)
Lemma sendAlertToWechatWork_run ps key r :
  ps <> [] -> key <> [] ->
  sendWechat ps key r
  = if url.Parse_ok (wechatURL key) then
      (Returned
         match http_do world (calls r) (wechatReq ps key) with
         | NetError e => Some e
         | Response sc body _ =>
             if negb (sc =? 200)
             then Some (ErrWebhookStatus (str "wechat") sc (take 4096 body))
             else checkErrcode (str "wechat") (take 4096 body)
         end,
       after r 1 [EvDo (wechatReq ps key)])
    else (Panicked, after r 0 [EvPanic]).
Proof.
  intros Hps Hkey. unfold sendAlertToWechatWork.
  rewrite nonempty_length, nonempty_eqb by assumption. cbn [orb].
  fold (wechatURL key). destruct (url.Parse_ok (wechatURL key)); cbn [negb].
  2:{ unfold bind, emit, ret, after. now rewrite Nat.add_0_r. }
  unfold bind, client_Do, after. rewrite Nat.add_1_r.
  fold (wechatReq ps key).
  destruct (http_do world (calls r) (wechatReq ps key)) as [e|sc body re];
    [reflexivity|].
  destruct (negb (sc =? 200)); reflexivity.
Qed.

Lemma sendAlertToDingTalk_run ps token r :
  ps <> [] -> token <> [] ->
  sendDingTalk ps token r
  = if url.Parse_ok (dingTalkURL token) then
      (Returned
         match http_do world (calls r) (dingTalkReq ps token) with
         | NetError e => Some e
         | Response sc body _ =>
             if negb (sc =? 200)
             then Some (ErrWebhookStatus (str "dingtalk") sc (take 4096 body))
             else checkErrcode (str "dingtalk") (take 4096 body)
         end,
       after r 1 [EvDo (dingTalkReq ps token)])
    else (Panicked, after r 0 [EvPanic]).
Proof.
  intros Hps Hkey. unfold sendAlertToDingTalk.
  rewrite nonempty_length, nonempty_eqb by assumption. cbn [orb].
  fold (dingTalkURL token). destruct (url.Parse_ok (dingTalkURL token));
    cbn [negb].
  2:{ unfold bind, emit, ret, after. now rewrite Nat.add_0_r. }
  unfold bind, client_Do, after. rewrite Nat.add_1_r.
  fold (dingTalkReq ps token).
  destruct (http_do world (calls r) (dingTalkReq ps token)) as [e|sc body re];
    [reflexivity|].
  destruct (negb (sc =? 200)); reflexivity.
Qed.

Lemma sender_guard {A} (ps : list A) (key : bytes) :
  (length ps =? 0)%nat || eqb_bytes key [] = true <-> ps = [] \/ key = [].
Proof.
  rewrite orb_true_iff, Nat.eqb_eq, eqb_bytes_spec.
  split; (intros [H|H]; [left|right; exact H]).
  - now destruct ps.
  - now subst.
Qed.

Lemma cutFragment_app (pre s : bytes) :
  forallb (fun c => negb (code c =? 0x23)) pre = true ->
  url.cutFragment (pre ++ s)
  = (pre ++ fst (url.cutFragment s), snd (url.cutFragment s)).
Proof.
  induction pre as [|c pre IH]; intros H.
  - cbn [app]. now destruct (url.cutFragment s).
  - cbn [forallb] in H. apply andb_prop in H as [Hc Hp].
    cbn [app url.cutFragment]. apply negb_true_iff in Hc. rewrite Hc.
    rewrite (IH Hp). reflexivity.
Qed.

(** An address that ends in a credential parses exactly when the
    credential has no control byte before its first [#] and every per
    cent sign after that [#] starts an escape of two hexadecimal
    digits. *)
Lemma Parse_ok_address (pre credential : bytes) :
  forallb (fun c => negb (code c =? 0x23)) pre = true ->
  url.stringContainsCTLByte pre = false ->
  url.Parse_ok (pre ++ credential)
  = negb (url.stringContainsCTLByte (fst (url.cutFragment credential)))
    && url.unescapes (snd (url.cutFragment credential)).
Proof.
  intros Hh Hc. unfold url.Parse_ok. rewrite (cutFragment_app _ _ Hh).
  unfold url.stringContainsCTLByte in *. rewrite existsb_app, Hc. cbn [orb].
  destruct (existsb _ (fst (url.cutFragment credential))); [reflexivity|].
  cbn [negb andb].
  destruct (snd (url.cutFragment credential)); reflexivity.
Qed.

(** X2.  A sender does nothing when the list of stations is empty or
    the credential is empty: no request, no error.  Otherwise all turns
    on the credential.  When it has a control byte before its first [#],
    or a per cent sign after that [#] that does not start an escape, the
    address does not parse and the sender panics without a request, the
    same for both channels.  When the address parses, the sender sends
    exactly one POST request, to the address of its channel followed by
    the credential, whatever the reply: a webhook is never retried. *)
Theorem senders_one_request ps credential r :
  let parses :=
    negb (url.stringContainsCTLByte (fst (url.cutFragment credential)))
    && url.unescapes (snd (url.cutFragment credential)) in
  url.Parse_ok (wechatURL credential) = parses
  /\ url.Parse_ok (dingTalkURL credential) = parses
  /\ (ps = [] \/ credential = [] ->
     sendWechat ps credential r = (Returned None, r)
     /\ sendDingTalk ps credential r = (Returned None, r))
  /\ (ps <> [] -> credential <> [] -> parses = false ->
      sendWechat ps credential r = (Panicked, after r 0 [EvPanic])
      /\ sendDingTalk ps credential r = (Panicked, after r 0 [EvPanic]))
  /\ (ps <> [] -> credential <> [] -> parses = true ->
      snd (sendWechat ps credential r)
      = after r 1 [EvDo (wechatReq ps credential)]
      /\ snd (sendDingTalk ps credential r)
         = after r 1 [EvDo (dingTalkReq ps credential)]
      /\ fst (sendWechat ps credential r) <> Panicked
      /\ fst (sendDingTalk ps credential r) <> Panicked
      /\ isPost (EvDo (wechatReq ps credential)) = true
      /\ isPost (EvDo (dingTalkReq ps credential)) = true
      /\ req_URL (wechatReq ps credential)
         = str "https://qyapi.weixin.qq.com/cgi-bin/webhook/send?key="
           ++ credential
      /\ req_URL (dingTalkReq ps credential)
         = str "https://oapi.dingtalk.com/robot/send?access_token="
           ++ credential).
Proof.
  intros parses.
  assert (Ew : url.Parse_ok (wechatURL credential) = parses)
    by (apply Parse_ok_address; vm_compute; reflexivity).
  assert (Ed : url.Parse_ok (dingTalkURL credential) = parses)
    by (apply Parse_ok_address; vm_compute; reflexivity).
  split; [exact Ew|]. split; [exact Ed|]. split; [|split].
  - intros H. apply sender_guard in H.
    unfold sendAlertToWechatWork, sendAlertToDingTalk. rewrite H.
    split; reflexivity.
  - intros Hps Hc Hp.
    rewrite sendAlertToWechatWork_run, sendAlertToDingTalk_run by assumption.
    rewrite Ew, Ed, Hp. split; reflexivity.
  - intros Hps Hc Hp.
    rewrite sendAlertToWechatWork_run, sendAlertToDingTalk_run by assumption.
    rewrite Ew, Ed, Hp. repeat split; discriminate.
Qed.





End Senders.

(** ** The texts of the alerts *)

Lemma fold_left_append {A} (f : A -> bytes) (l : list A) (init : bytes) :
  fold_left (fun acc x => acc ++ f x) l init = init ++ concat (map f l).
Proof.
  revert init. induction l as [|x l IH]; intros init; cbn [fold_left map concat].
  - now rewrite app_nil_r.
  - rewrite IH, <- app_assoc. reflexivity.
Qed.

Lemma Contains_refl s : strings.Contains s s = true.
Proof. apply Contains_spec. exists [], []. now rewrite app_nil_r. Qed.

Lemma Contains_middle a s b : strings.Contains (a ++ s ++ b) s = true.
Proof. apply Contains_spec. now exists a, b. Qed.

Lemma Contains_trans s m n :
  strings.Contains s m = true -> strings.Contains m n = true ->
  strings.Contains s n = true.
Proof.
  rewrite !Contains_spec. intros [a [b ->]] [c [d ->]].
  exists (a ++ c), (d ++ b). now rewrite <- !app_assoc.
Qed.

Lemma Contains_concat (l : list bytes) s :
  In s l -> strings.Contains (concat l) s = true.
Proof.
  intros H. apply in_split in H as [l1 [l2 ->]].
  rewrite concat_app. cbn [concat]. apply Contains_middle.
Qed.

Section AlertTexts.

Variable unicode_ToLower : Z -> Z.
Variable Local : time.Location.

(** X4.  Both texts are a heading with the time label, one block per
    station in the order of the list, and the closing line; so every
    station of the list is in both texts, by name and with its factors,
    and both texts and the DingTalk title carry the same time label. *)
Theorem alert_texts_blocks (ps : list AQIData) :
  let t := formatTimeForAlert Local ps in
  wechatContent unicode_ToLower Local ps
  = (str "## 🚨 广州市空气质量监测站点数据异常警报(" ++ t ++ str ")" ++ nl
     ++ str "以下站点存在数据缺失问题，请及时关注：" ++ nl ++ nl)
    ++ concat (map (wechatBlock unicode_ToLower) ps)
    ++ str "> 请相关技术人员尽快检查设备状态和数据传输链路。"
  /\ dingTalkText unicode_ToLower Local ps
     = (str "### 🚨 广州市空气质量监测站点数据异常警报" ++ nl
        ++ str "#### " ++ t ++ nl
        ++ str "以下站点存在数据缺失问题，请及时关注：" ++ nl ++ nl)
       ++ concat (map (dingTalkBlock unicode_ToLower) ps)
       ++ str "> 请相关技术人员尽快检查设备状态和数据传输链路。"
  /\ dingTalkTitle Local ps
     = str "广州市空气质量监测站点数据异常警报(" ++ t ++ str ")"
  /\ (forall st, In st ps ->
        strings.Contains (wechatContent unicode_ToLower Local ps)
          (wechatBlock unicode_ToLower st) = true
        /\ strings.Contains (dingTalkText unicode_ToLower Local ps)
             (dingTalkBlock unicode_ToLower st) = true
        /\ strings.Contains (wechatContent unicode_ToLower Local ps)
             (PositionName st) = true
        /\ strings.Contains (dingTalkText unicode_ToLower Local ps)
             (PositionName st) = true
        /\ strings.Contains (wechatContent unicode_ToLower Local ps)
             (formatMissingFactors (getMissingFactors unicode_ToLower st))
           = true
        /\ strings.Contains (dingTalkText unicode_ToLower Local ps)
             (formatMissingFactors (getMissingFactors unicode_ToLower st))
           = true).
Proof.
  intros t.
  assert (Hw : wechatContent unicode_ToLower Local ps
    = (str "## 🚨 广州市空气质量监测站点数据异常警报(" ++ t ++ str ")" ++ nl
       ++ str "以下站点存在数据缺失问题，请及时关注：" ++ nl ++ nl)
      ++ concat (map (wechatBlock unicode_ToLower) ps)
      ++ str "> 请相关技术人员尽快检查设备状态和数据传输链路。").
  { unfold wechatContent.
    rewrite (fold_left_append (wechatBlock unicode_ToLower)).
    fold t. now rewrite <- !app_assoc. }
  assert (Hd : dingTalkText unicode_ToLower Local ps
    = (str "### 🚨 广州市空气质量监测站点数据异常警报" ++ nl
       ++ str "#### " ++ t ++ nl
       ++ str "以下站点存在数据缺失问题，请及时关注：" ++ nl ++ nl)
      ++ concat (map (dingTalkBlock unicode_ToLower) ps)
      ++ str "> 请相关技术人员尽快检查设备状态和数据传输链路。").
  { unfold dingTalkText.
    rewrite (fold_left_append (dingTalkBlock unicode_ToLower)).
    fold t. now rewrite <- !app_assoc. }
  split; [exact Hw|]. split; [exact Hd|]. split; [reflexivity|].
  intros st Hin.
  assert (H1 : strings.Contains (wechatContent unicode_ToLower Local ps)
                 (wechatBlock unicode_ToLower st) = true).
  { rewrite Hw. apply Contains_app_l, Contains_app_r, Contains_concat.
    now apply in_map. }
  assert (H2 : strings.Contains (dingTalkText unicode_ToLower Local ps)
                 (dingTalkBlock unicode_ToLower st) = true).
  { rewrite Hd. apply Contains_app_l, Contains_app_r, Contains_concat.
    now apply in_map. }
  split; [exact H1|]. split; [exact H2|].
  split; [|split; [|split]].
  - eapply Contains_trans; [exact H1|]. unfold wechatBlock.
    apply Contains_middle.
  - eapply Contains_trans; [exact H2|]. unfold dingTalkBlock.
    apply Contains_middle.
  - eapply Contains_trans; [exact H1|]. unfold wechatBlock.
    apply Contains_spec.
    exists (str "**" ++ PositionName st ++ str "**" ++ nl
            ++ q "<font color='warning'>缺失因子: "),
      (str "</font>" ++ nl ++ nl).
    now rewrite <- !app_assoc.
  - eapply Contains_trans; [exact H2|]. unfold dingTalkBlock.
    apply Contains_spec.
    exists (str "- **" ++ PositionName st ++ str "**" ++ nl
            ++ str "  - 缺失因子: "), (nl ++ nl).
    now rewrite <- !app_assoc.
Qed.

End AlertTexts.

(** ** The selection *)

Section Selection.

Variable unicode_ToLower : Z -> Z.

Local Abbreviation select := (selectProblemStations unicode_ToLower).

(** X5.  The selection works station by station: the selection of two
    lists put end to end is the two selections put end to end; selecting
    again changes nothing; no station is added or repeated. *)
Theorem selectProblemStations_algebra (a b : list AQIData) :
  select (a ++ b) = select a ++ select b
  /\ select (select a) = select a
  /\ (length (select a) <= length a)%nat
  /\ (forall st, st ∈ select a ->
        st ∈ a /\ (PositionName st ∉ ignorePositionNames)
        /\ hasMissingData unicode_ToLower st = true)
  /\ (NoDup a -> NoDup (select a)).
Proof.
  rewrite !selectProblemStations_filter. split; [apply filter_app|].
  split; [|split; [|split]].
  - rewrite list_filter_filter. apply list_filter_iff. tauto.
  - apply length_filter.
  - intros st H. apply list_elem_of_filter in H. tauto.
  - apply NoDup_filter.
Qed.

End Selection.

(** ** main *)

Lemma emit_run e r : emit e r = (tt, after r 0 [e]).
Proof. unfold emit, after. now rewrite Nat.add_0_r. Qed.

Lemma after_0_nil r : after r 0 [] = r.
Proof. unfold after. rewrite Nat.add_0_r, app_nil_r. now destruct r. Qed.

Lemma bind_run {A B} (m : M A) (k : A -> M B) r :
  bind m k r = k (fst (m r)) (snd (m r)).
Proof. unfold bind. now destruct (m r). Qed.

Lemma report_run what ok (o : option error) r :
  match o with
  | Some e => emit (EvLogError what e)
  | None => emit (EvPrintln ok)
  end r = (tt, after r 0 [reportEvent what ok o]).
Proof. destruct o; apply emit_run. Qed.

Section Main.

Variable unicode_ToLower : Z -> Z.
Variable Local : time.Location.
Variable world : World.

Local Abbreviation program := (main unicode_ToLower Local world).
Local Abbreviation select := (selectProblemStations unicode_ToLower).
Local Abbreviation sendWechat := (sendAlertToWechatWork unicode_ToLower Local world).
Local Abbreviation sendDingTalk := (sendAlertToDingTalk unicode_ToLower Local world).
Local Abbreviation wechatReq := (wechatRequest unicode_ToLower Local).
Local Abbreviation dingTalkReq := (dingTalkRequest unicode_ToLower Local).
Local Abbreviation alerts := (alertRun unicode_ToLower Local world).

Lemma dingTalk_part cfg l r2 :
  l <> [] ->
  snd ((let* running :=
          if negb (eqb_bytes (DingTalkAccessToken cfg) []) then
            let* sent := sendDingTalk l (DingTalkAccessToken cfg) in
            match sent with
            | Panicked => ret false
            | Returned (Some e) =>
                emit (EvLogError (str "Failed to send alert to DingTalk") e) ;;
                ret true
            | Returned None =>
                emit (EvPrintln (str "已成功发送警报到钉钉")) ;; ret true
            end
          else ret true in
        if negb running then ret tt
        else emit (EvCount (Z.of_nat (length l))))%go r2)
  = dingTalkRun unicode_ToLower Local world cfg l r2.
Proof.
  intros Hl. unfold dingTalkRun. rewrite bind_run.
  destruct (eqb_bytes (DingTalkAccessToken cfg) []) eqn:Ed; cbn [negb].
  - unfold ret at 1. cbn [fst snd negb]. now rewrite emit_run.
  - assert (Hk : DingTalkAccessToken cfg <> [])
      by (intros E; rewrite E in Ed; discriminate).
    rewrite bind_run.
    rewrite (sendAlertToDingTalk_run _ _ _ l _ r2 Hl Hk).
    match goal with |- context [Returned ?o] => generalize o; intros out end.
    destruct (url.Parse_ok (dingTalkURL (DingTalkAccessToken cfg)));
      cbn [fst snd].
    2:{ reflexivity. }
    destruct out as [e|];
      rewrite bind_run, emit_run; unfold ret; cbn [fst snd negb];
      rewrite emit_run; cbn [fst snd]; rewrite !after_after; reflexivity.
Qed.

Lemma main_run cfg r :
  let r0 := after r 0 (startEvents cfg) in
  let res := fst (fetchWithRetry world r0) in
  let r1 := snd (fetchWithRetry world r0) in
  snd (program cfg r)
  = match snd res with
    | Some e => after r1 0 [EvFatal e]
    | None =>
        match select (fst res) with
        | [] => after r1 0 [EvPrintln (str "所有（非忽略名单）站点数据正常")]
        | _ :: _ => alerts cfg (select (fst res)) r1
        end
    end.
Proof.
  intros r0 res r1. unfold main. rewrite bind_run.
  assert (E0 : (if eqb_bytes (WechatWebhookKey cfg) []
                   && eqb_bytes (DingTalkAccessToken cfg) []
                then emit (EvPrintln (str "警告: 未配置任何 webhook（环境变量 WEBHOOK_KEY / DINGTALK_ACCESS_TOKEN 或 .env），程序将仅进行数据抓取与检测。"))
                else ret tt) r = (tt, r0)).
  { unfold r0, startEvents.
    destruct (eqb_bytes (WechatWebhookKey cfg) []
              && eqb_bytes (DingTalkAccessToken cfg) []).
    - apply emit_run.
    - unfold ret. now rewrite after_0_nil. }
  rewrite E0. cbn [fst snd]. rewrite bind_run. fold res r1.
  destruct res as [data err]. cbn [fst snd]. destruct err as [e|].
  { now rewrite emit_run. }
  destruct (select data) as [|p ps] eqn:Hsel.
  { cbn [length Nat.eqb]. now rewrite emit_run. }
  cbn [length Nat.eqb]. unfold alertRun, dingTalkRun.
  set (l := p :: ps). assert (Hl : l <> []) by discriminate.
  rewrite bind_run.
  destruct (eqb_bytes (WechatWebhookKey cfg) []) eqn:Ew; cbn [negb].
  - unfold ret at 1. cbn [fst snd negb]. apply dingTalk_part. exact Hl.
  - assert (Hk : WechatWebhookKey cfg <> [])
      by (intros E; rewrite E in Ew; discriminate).
    rewrite bind_run.
    rewrite (sendAlertToWechatWork_run _ _ _ l _ r1 Hl Hk).
    match goal with |- context [Returned ?o] => generalize o; intros out end.
    destruct (url.Parse_ok (wechatURL (WechatWebhookKey cfg))); cbn [fst snd].
    2:{ reflexivity. }
    destruct out as [e|];
      rewrite bind_run, emit_run; unfold ret at 1; cbn [fst snd negb];
      rewrite after_after; apply dingTalk_part; exact Hl.
Qed.

End Main.

(** The requests and the events of the retry loop. *)
Lemma fetchWithRetry_shape (w : World) (r : Run) :
  exists k evs,
    snd (fetchWithRetry w r) = after r k evs
    /\ (1 <= k <= 3)%nat
    /\ length (List.filter isGet evs) = k
    /\ List.filter isPost evs = []
    /\ (snd (fst (fetchWithRetry w r)) <> None ->
        fst (fst (fetchWithRetry w r)) = []).
Proof.
  pose proof (fetchWithRetry_unfold w r) as E. cbv zeta in E. rewrite E.
  destruct (failed w (calls r)) eqn:F0; cbn [negb].
  2:{ eexists 1%nat, _. split; [reflexivity|]. split; [lia|].
      split; [reflexivity|]. split; [reflexivity|].
      cbn [fst snd]. apply attempt_error_nil. }
  destruct (failed w (calls r + 1)) eqn:F1; cbn [negb].
  2:{ eexists 2%nat, _. split; [reflexivity|]. split; [lia|].
      split; [reflexivity|]. split; [reflexivity|].
      cbn [fst snd]. apply attempt_error_nil. }
  destruct (failed w (calls r + 2)) eqn:F2; cbn [negb];
    (eexists 3%nat, _; split; [reflexivity|]; split; [lia|];
     split; [reflexivity|]; split; [reflexivity|];
     cbn [fst snd]; apply attempt_error_nil).
Qed.

Section MainProperties.

Variable unicode_ToLower : Z -> Z.
Variable Local : time.Location.
Variable world : World.

Local Abbreviation program := (main unicode_ToLower Local world).
Local Abbreviation wechatReq := (wechatRequest unicode_ToLower Local).
Local Abbreviation dingTalkReq := (dingTalkRequest unicode_ToLower Local).

Lemma main_run0 cfg :
  snd (program cfg Run0)
  = match snd (fst (fetched world cfg)) with
    | Some e => after (snd (fetched world cfg)) 0 [EvFatal e]
    | None =>
        match problems unicode_ToLower world cfg with
        | [] => after (snd (fetched world cfg)) 0 [allNormal]
        | _ :: _ =>
            alertRun unicode_ToLower Local world cfg
              (problems unicode_ToLower world cfg) (snd (fetched world cfg))
        end
    end.
Proof. apply main_run. Qed.

(** X6.  When the three attempts of the fetch fail, the program stops
    with the error of the third: after the three requests and the three
    sleeps it logs the fatal error and does nothing more; no webhook is
    called. *)
Theorem main_fetch_failure cfg :
  failed world 0 = true -> failed world 1 = true -> failed world 2 = true ->
  exists e,
    snd (attempt world 2) = Some e
    /\ snd (program cfg Run0)
       = {| calls := 3;
            trace := startEvents cfg
                     ++ [EvDo fetchRequest; EvSleep (500 * Millisecond);
                         EvDo fetchRequest; EvSleep (1000 * Millisecond);
                         EvDo fetchRequest; EvSleep (2000 * Millisecond);
                         EvFatal e] |}
    /\ List.filter isPost (trace (snd (program cfg Run0))) = [].
Proof.
  intros F0 F1 F2.
  assert (E : fetched world cfg
              = (attempt world 2,
                 after (after Run0 0 (startEvents cfg)) 3
                   [EvDo fetchRequest; EvSleep (500 * Millisecond);
                    EvDo fetchRequest; EvSleep (1000 * Millisecond);
                    EvDo fetchRequest; EvSleep (2000 * Millisecond)])).
  { unfold fetched. pose proof (fetchWithRetry_unfold world
      (after Run0 0 (startEvents cfg))) as E. cbv zeta in E.
    rewrite E. cbn [calls after Run0 Nat.add]. rewrite F0, F1, F2.
    reflexivity. }
  unfold failed in F2. destruct (snd (attempt world 2)) as [e|] eqn:He;
    [|discriminate].
  exists e. split; [reflexivity|].
  rewrite main_run0, E. cbn [fst snd]. rewrite He.
  assert (Hs : List.filter isPost (startEvents cfg) = []).
  { unfold startEvents. now destruct (_ && _). }
  split.
  - unfold after. cbn [calls trace Run0 Nat.add app].
    now rewrite <- !app_assoc.
  - unfold after. cbn [calls trace Run0 app].
    rewrite !List.filter_app, Hs. reflexivity.
Qed.

(** X7.  When the fetch succeeds and every station it brings is on the
    ignore list or misses nothing, the program prints that all stations
    are normal and stops: no webhook is called and no count is printed. *)
Theorem main_all_normal cfg :
  snd (fst (fetched world cfg)) = None ->
  (forall st, In st (fst (fst (fetched world cfg))) ->
     PositionName st ∈ ignorePositionNames
     \/ hasMissingData unicode_ToLower st = false) ->
  snd (program cfg Run0) = after (snd (fetched world cfg)) 0 [allNormal]
  /\ List.filter isPost (trace (snd (program cfg Run0))) = []
  /\ (calls (snd (program cfg Run0)) <= 3)%nat.
Proof.
  intros Hok Hall.
  assert (Hsel : problems unicode_ToLower world cfg = []).
  { unfold problems. rewrite selectProblemStations_filter.
    match goal with |- ?f = [] => destruct f as [|st l] eqn:E end;
      [reflexivity|exfalso].
    assert (Hin : st ∈ st :: l) by left. rewrite <- E in Hin.
    apply list_elem_of_filter in Hin as [[Hi Hm] Hin].
    apply list_elem_of_In in Hin.
    destruct (Hall st Hin) as [H|H]; [contradiction|congruence]. }
  rewrite main_run0, Hok, Hsel.
  destruct (fetchWithRetry_shape world (after Run0 0 (startEvents cfg)))
    as [k [evs [E [Hk [_ [Hp _]]]]]].
  fold (fetched world cfg) in E. rewrite E.
  assert (Hs : List.filter isPost (startEvents cfg) = []).
  { unfold startEvents. now destruct (_ && _). }
  split; [reflexivity|]. split.
  - unfold after. cbn [calls trace Run0 app].
    rewrite !List.filter_app, Hs, Hp. reflexivity.
  - unfold after. cbn [calls Run0]. lia.
Qed.

Lemma startEvents_quiet cfg :
  List.filter isPost (startEvents cfg) = []
  /\ List.filter isGet (startEvents cfg) = [].
Proof. unfold startEvents. now destruct (_ && _). Qed.

Lemma reportEvent_quiet what ok o :
  isPost (reportEvent what ok o) = false
  /\ isGet (reportEvent what ok o) = false.
Proof. now destruct o. Qed.

(** An address without a credential parses. *)
Lemma no_credential_parses :
  url.Parse_ok (wechatURL []) = true /\ url.Parse_ok (dingTalkURL []) = true.
Proof. split; reflexivity. Qed.

Lemma not_parsed_wechat key :
  url.Parse_ok (wechatURL key) = false -> key <> [].
Proof.
  intros H ->. rewrite (proj1 no_credential_parses) in H. discriminate.
Qed.

Lemma not_parsed_dingTalk token :
  url.Parse_ok (dingTalkURL token) = false -> token <> [].
Proof.
  intros H ->. rewrite (proj2 no_credential_parses) in H. discriminate.
Qed.

Lemma eqb_bytes_nil (k : bytes) : eqb_bytes k [] = false -> k <> [].
Proof. intros H ->. discriminate. Qed.

(** The events [main] adds after the fetch when it has stations to
    report and the addresses of its channels parse. *)
Lemma alertRun_shape cfg ps r1 :
  ps <> [] ->
  url.Parse_ok (wechatURL (WechatWebhookKey cfg)) = true ->
  url.Parse_ok (dingTalkURL (DingTalkAccessToken cfg)) = true ->
  exists ew ed,
    alertRun unicode_ToLower Local world cfg ps r1
    = after r1 (channels cfg)
        ((if eqb_bytes (WechatWebhookKey cfg) [] then []
          else [EvDo (wechatReq ps (WechatWebhookKey cfg)); ew])
         ++ (if eqb_bytes (DingTalkAccessToken cfg) [] then []
             else [EvDo (dingTalkReq ps (DingTalkAccessToken cfg)); ed])
         ++ [EvCount (Z.of_nat (length ps))])
    /\ isPost ew = false /\ isGet ew = false
    /\ isPost ed = false /\ isGet ed = false.
Proof.
  intros Hps Uw Ud. unfold alertRun, dingTalkRun, channels.
  destruct (eqb_bytes (WechatWebhookKey cfg) []) eqn:Ew,
    (eqb_bytes (DingTalkAccessToken cfg) []) eqn:Ed;
    try (apply eqb_bytes_nil in Ew); try (apply eqb_bytes_nil in Ed);
    try rewrite (sendAlertToWechatWork_run _ _ _ ps _ _ Hps Ew), Uw;
    cbn [fst];
    try rewrite (sendAlertToDingTalk_run _ _ _ ps _ _ Hps Ed), Ud;
    cbn [fst].
  - exists allNormal, allNormal. split; [|easy].
    unfold after. cbn. now rewrite Nat.add_0_r.
  - eexists allNormal, (reportEvent _ _ _).
    split; [|repeat split; apply reportEvent_quiet]. reflexivity.
  - eexists (reportEvent _ _ _), allNormal.
    split; [|repeat split; apply reportEvent_quiet].
    rewrite after_after. reflexivity.
  - eexists (reportEvent _ _ _), (reportEvent _ _ _).
    split; [|repeat split; apply reportEvent_quiet].
    rewrite !after_after. reflexivity.
Qed.

(** The requests [main] sends after the fetch, whatever its
    credentials: POST requests only, at most one for each credential. *)
Lemma alertRun_requests cfg ps r1 :
  ps <> [] ->
  exists n evs,
    alertRun unicode_ToLower Local world cfg ps r1 = after r1 n evs
    /\ length (List.filter isPost evs) = n
    /\ List.filter isGet evs = []
    /\ (n <= channels cfg)%nat.
Proof.
  intros Hps.
  destruct (url.Parse_ok (wechatURL (WechatWebhookKey cfg))) eqn:Uw,
    (url.Parse_ok (dingTalkURL (DingTalkAccessToken cfg))) eqn:Ud.
  - destruct (alertRun_shape cfg ps r1 Hps Uw Ud)
      as [ew [ed [Ea [H1 [H2 [H3 H4]]]]]].
    eexists _, _. split; [exact Ea|]. unfold channels.
    destruct (eqb_bytes (WechatWebhookKey cfg) []),
      (eqb_bytes (DingTalkAccessToken cfg) []);
      cbn [List.filter isPost isGet app length];
      rewrite ?H1, ?H2, ?H3, ?H4; repeat split; reflexivity.
  - pose proof (not_parsed_dingTalk _ Ud) as Ht.
    unfold alertRun, dingTalkRun, channels. rewrite (nonempty_eqb _ Ht).
    destruct (eqb_bytes (WechatWebhookKey cfg) []) eqn:Ew.
    + rewrite (sendAlertToDingTalk_run _ _ _ ps _ _ Hps Ht), Ud. cbn [fst].
      eexists 0%nat, _. split; [reflexivity|]. repeat split. cbn. lia.
    + apply eqb_bytes_nil in Ew.
      rewrite (sendAlertToWechatWork_run _ _ _ ps _ _ Hps Ew), Uw. cbn [fst].
      rewrite (sendAlertToDingTalk_run _ _ _ ps _ _ Hps Ht), Ud. cbn [fst].
      rewrite after_after. eexists _, _. split; [reflexivity|].
      cbn [List.filter isPost isGet app length].
      rewrite (proj1 (reportEvent_quiet _ _ _)), (proj2 (reportEvent_quiet _ _ _)).
      repeat split. cbn. lia.
  - pose proof (not_parsed_wechat _ Uw) as Hk.
    unfold alertRun, channels. rewrite (nonempty_eqb _ Hk).
    rewrite (sendAlertToWechatWork_run _ _ _ ps _ _ Hps Hk), Uw. cbn [fst].
    eexists 0%nat, _. split; [reflexivity|]. repeat split. cbn. lia.
  - pose proof (not_parsed_wechat _ Uw) as Hk.
    unfold alertRun, channels. rewrite (nonempty_eqb _ Hk).
    rewrite (sendAlertToWechatWork_run _ _ _ ps _ _ Hps Hk), Uw. cbn [fst].
    eexists 0%nat, _. split; [reflexivity|]. repeat split. cbn. lia.
Qed.

Lemma post_requests ps k k' :
  isPost (EvDo (wechatReq ps k)) = true
  /\ isGet (EvDo (wechatReq ps k)) = false
  /\ isPost (EvDo (dingTalkReq ps k')) = true
  /\ isGet (EvDo (dingTalkReq ps k')) = false.
Proof. repeat split. Qed.

(** X8.  A run of the program sends at most five requests, whatever its
    credentials: between one and three GET requests of the fetch, and at
    most one POST request for each credential it holds.  It posts only
    when the fetch succeeded and selected a station; when it did and the
    addresses of its channels parse, it posts to every channel it holds a
    credential for. *)
Theorem main_request_budget cfg :
  let r := snd (program cfg Run0) in
  let gets := length (List.filter isGet (trace r)) in
  let posts := length (List.filter isPost (trace r)) in
  calls r = (gets + posts)%nat
  /\ (1 <= gets <= 3)%nat
  /\ (posts <= channels cfg <= 2)%nat
  /\ (calls r <= 5)%nat
  /\ (posts <> 0%nat ->
      snd (fst (fetched world cfg)) = None
      /\ problems unicode_ToLower world cfg <> [])
  /\ (snd (fst (fetched world cfg)) = None ->
      problems unicode_ToLower world cfg <> [] ->
      url.Parse_ok (wechatURL (WechatWebhookKey cfg)) = true ->
      url.Parse_ok (dingTalkURL (DingTalkAccessToken cfg)) = true ->
      posts = channels cfg).
Proof.
  intros r gets posts. unfold gets, posts, r. clear r gets posts.
  rewrite main_run0.
  destruct (fetchWithRetry_shape world (after Run0 0 (startEvents cfg)))
    as [k [evs [E [Hk [Hg [Hp _]]]]]].
  fold (fetched world cfg) in E. rewrite E.
  destruct (startEvents_quiet cfg) as [Hsp Hsg].
  assert (Hc : (channels cfg <= 2)%nat).
  { unfold channels. destruct (eqb_bytes _ _), (eqb_bytes _ _); cbn; lia. }
  destruct (snd (fst (fetched world cfg))) as [e|] eqn:He.
  { unfold after. cbn [calls trace Run0 app].
    rewrite !List.filter_app, !length_app, Hsp, Hsg, Hp, Hg. cbn.
    repeat split; try lia; try discriminate. }
  destruct (problems unicode_ToLower world cfg) as [|p ps] eqn:Hps.
  { unfold after. cbn [calls trace Run0 app].
    rewrite !List.filter_app, !length_app, Hsp, Hsg, Hp, Hg. cbn.
    repeat split; try lia; try congruence. }
  assert (Hne : p :: ps <> []) by discriminate.
  match goal with
  | |- ?A /\ ?B /\ ?C /\ ?D /\ ?E /\ ?F =>
      assert (H5 : A /\ B /\ C /\ D /\ E); [|assert (H6 : F)]
  end.
  - destruct (alertRun_requests cfg (p :: ps)
                (after (after Run0 0 (startEvents cfg)) k evs) Hne)
      as [n [evs' [Ea [Hn [Hg' Hle]]]]].
    rewrite Ea. unfold after. cbn [calls trace Run0 app].
    rewrite !List.filter_app, !length_app, Hsp, Hsg, Hp, Hg, Hg', Hn.
    cbn [length Nat.add]. rewrite Nat.add_0_r.
    split; [reflexivity|]. split; [lia|]. split; [lia|]. split; [lia|].
    intros _. split; [reflexivity|discriminate].
  - intros _ _ Uw Ud.
    destruct (alertRun_shape cfg (p :: ps)
                (after (after Run0 0 (startEvents cfg)) k evs) Hne Uw Ud)
      as [ew [ed [Ea [H1 [H2 [H3 H4]]]]]].
    rewrite Ea. unfold after. cbn [calls trace Run0 app].
    rewrite !List.filter_app, !length_app, Hsp, Hp.
    unfold channels.
    destruct (eqb_bytes (WechatWebhookKey cfg) []),
      (eqb_bytes (DingTalkAccessToken cfg) []);
      cbn [List.filter isPost isGet app length];
      rewrite ?H1, ?H3; reflexivity.
  - destruct H5 as (a & b & c & d & e).
    exact (conj a (conj b (conj c (conj d (conj e H6))))).
Qed.

(** X9.  When the fetch succeeded and selected stations and the
    addresses of the channels parse, each channel that has a credential
    gets its one request, WeChat Work first, then DingTalk, with the same
    stations: what WeChat Work answered, an error included, does not keep
    the DingTalk request from being sent. *)
Theorem main_channels_independent cfg :
  snd (fst (fetched world cfg)) = None ->
  problems unicode_ToLower world cfg <> [] ->
  url.Parse_ok (wechatURL (WechatWebhookKey cfg)) = true ->
  url.Parse_ok (dingTalkURL (DingTalkAccessToken cfg)) = true ->
  let ps := problems unicode_ToLower world cfg in
  List.filter isPost (trace (snd (program cfg Run0)))
  = (if eqb_bytes (WechatWebhookKey cfg) [] then []
     else [EvDo (wechatReq ps (WechatWebhookKey cfg))])
    ++ (if eqb_bytes (DingTalkAccessToken cfg) [] then []
        else [EvDo (dingTalkReq ps (DingTalkAccessToken cfg))]).
Proof.
  intros He Hps Uw Ud ps. unfold ps. clear ps. rewrite main_run0, He.
  destruct (fetchWithRetry_shape world (after Run0 0 (startEvents cfg)))
    as [k [evs [E [Hk [Hg [Hp _]]]]]].
  fold (fetched world cfg) in E. rewrite E.
  destruct (startEvents_quiet cfg) as [Hsp Hsg].
  destruct (problems unicode_ToLower world cfg) as [|p ps] eqn:Hsel;
    [congruence|].
  destruct (alertRun_shape cfg (p :: ps)
              (after (after Run0 0 (startEvents cfg)) k evs) Hps Uw Ud)
    as [ew [ed [Ea [H1 [H2 [H3 H4]]]]]].
  rewrite Ea. unfold after. cbn [calls trace Run0 app].
  rewrite !List.filter_app, Hsp, Hp.
  destruct (eqb_bytes (WechatWebhookKey cfg) []),
    (eqb_bytes (DingTalkAccessToken cfg) []);
    cbn [List.filter isPost app]; rewrite ?H1, ?H3; reflexivity.
Qed.

(** X10.  When the fetch succeeded and selected stations and the
    addresses of the channels parse, the last thing the program does is
    print their number, which is at least one and at most the number of
    stations fetched; it does so whether or not a channel is configured
    and whatever the channels answered. *)
Theorem main_prints_count cfg :
  snd (fst (fetched world cfg)) = None ->
  problems unicode_ToLower world cfg <> [] ->
  url.Parse_ok (wechatURL (WechatWebhookKey cfg)) = true ->
  url.Parse_ok (dingTalkURL (DingTalkAccessToken cfg)) = true ->
  let ps := problems unicode_ToLower world cfg in
  last (trace (snd (program cfg Run0))) = Some (EvCount (Z.of_nat (length ps)))
  /\ (1 <= length ps <= length (fst (fst (fetched world cfg))))%nat.
Proof.
  intros He Hps Uw Ud ps. unfold ps. clear ps. rewrite main_run0, He.
  split.
  - destruct (problems unicode_ToLower world cfg) as [|p ps] eqn:Hsel;
      [congruence|].
    destruct (alertRun_shape cfg (p :: ps) (snd (fetched world cfg)) Hps Uw Ud)
      as [ew [ed [Ea _]]].
    rewrite Ea. unfold after. cbn [trace].
    rewrite !app_assoc. apply last_snoc.
  - split.
    + destruct (problems unicode_ToLower world cfg); [congruence|cbn; lia].
    + unfold problems. rewrite selectProblemStations_filter.
      apply length_filter.
Qed.

(** X14.  When the fetch succeeded and selected stations and the address
    of a channel does not parse, the program ends in a panic at that
    channel and prints no count.  With such a WeChat Work key it panics
    before any webhook is called, so that DingTalk gets no request
    either; with such a DingTalk token it panics after the WeChat Work
    dispatch, if there is one, has been made and reported. *)
Theorem main_bad_credential_panics cfg :
  snd (fst (fetched world cfg)) = None ->
  problems unicode_ToLower world cfg <> [] ->
  let ps := problems unicode_ToLower world cfg in
  let r1 := snd (fetched world cfg) in
  let r := snd (program cfg Run0) in
  (url.Parse_ok (wechatURL (WechatWebhookKey cfg)) = false ->
     r = after r1 0 [EvPanic])
  /\ (WechatWebhookKey cfg = [] ->
      url.Parse_ok (dingTalkURL (DingTalkAccessToken cfg)) = false ->
      r = after r1 0 [EvPanic])
  /\ (WechatWebhookKey cfg <> [] ->
      url.Parse_ok (wechatURL (WechatWebhookKey cfg)) = true ->
      url.Parse_ok (dingTalkURL (DingTalkAccessToken cfg)) = false ->
      exists err,
        fst (sendAlertToWechatWork unicode_ToLower Local world ps
               (WechatWebhookKey cfg) r1) = Returned err
        /\ r = after r1 1
                 [EvDo (wechatReq ps (WechatWebhookKey cfg));
                  reportEvent (str "Failed to send alert to WeChat Work")
                    (str "已成功发送警报到企业微信") err;
                  EvPanic]).
Proof.
  intros He Hps ps r1 r. unfold r, r1, ps. clear r r1 ps.
  rewrite main_run0, He.
  destruct (problems unicode_ToLower world cfg) as [|p ps] eqn:Hsel;
    [congruence|].
  unfold alertRun, dingTalkRun. split; [|split].
  - intros Uw. pose proof (not_parsed_wechat _ Uw) as Hk.
    rewrite (nonempty_eqb _ Hk).
    rewrite (sendAlertToWechatWork_run _ _ _ _ _ _ Hps Hk), Uw. reflexivity.
  - intros Hk Ud. pose proof (not_parsed_dingTalk _ Ud) as Ht.
    rewrite Hk. cbn [eqb_bytes]. rewrite (nonempty_eqb _ Ht).
    rewrite (sendAlertToDingTalk_run _ _ _ _ _ _ Hps Ht), Ud. reflexivity.
  - intros Hk Uw Ud. pose proof (not_parsed_dingTalk _ Ud) as Ht.
    rewrite (nonempty_eqb _ Hk), (nonempty_eqb _ Ht).
    rewrite (sendAlertToWechatWork_run _ _ _ _ _ _ Hps Hk), Uw. cbn [fst].
    eexists. split; [reflexivity|].
    rewrite (sendAlertToDingTalk_run _ _ _ _ _ _ Hps Ht), Ud. cbn [fst].
    rewrite after_after. reflexivity.
Qed.

End MainProperties.

(** ** Replies without stations *)

Lemma emptyDoc_unmarshal v arr :
  emptyDoc v -> Unmarshal_raw v arr = (nilSlice, None).
Proof. intros [-> | ->]; reflexivity. Qed.

Lemma decodeResponse_empty order body :
  emptyPayload body -> decodeResponse order body = ([], None).
Proof.
  intros [v [Hp [Hv|[members [d [-> [Hl Hd]]]]]]];
    unfold decodeResponse, Unmarshal_stations, Unmarshal_object; rewrite Hp.
  - now rewrite (emptyDoc_unmarshal v nilSlice Hv).
  - cbn [Unmarshal_raw unmarshalStations]. fold (objectOf members).
    unfold wrapperKeys. cbn [tryKeys]. rewrite Hl.
    now rewrite (emptyDoc_unmarshal d nilSlice Hd).
Qed.

Section EmptyReply.

Variable unicode_ToLower : Z -> Z.
Variable Local : time.Location.
Variable world : World.

(** X11.  A reply with status 200 whose body is [null], the empty
    array, or an object with [null] or the empty array under [Data] is a
    successful fetch of no station: the program sends its one request,
    prints that all stations are normal and stops, without an alert. *)
Theorem main_empty_reply cfg body :
  http_do world 0 fetchRequest = Response 200 body None ->
  emptyPayload body ->
  fetchAQIData world Run0 = (([], None), after Run0 1 [EvDo fetchRequest])
  /\ snd (main unicode_ToLower Local world cfg Run0)
     = {| calls := 1;
          trace := startEvents cfg ++ [EvDo fetchRequest; allNormal] |}.
Proof.
  intros Hreply Hbody.
  assert (Ha : attempt world 0 = ([], None)).
  { unfold attempt. rewrite Hreply. cbn [Z.eqb negb].
    now apply decodeResponse_empty. }
  split.
  - rewrite fetchAQIData_run. cbn [calls Run0]. now rewrite Ha.
  - rewrite main_run0.
    assert (E : fetched world cfg
                = (([], None),
                   after (after Run0 0 (startEvents cfg)) 1 [EvDo fetchRequest])).
    { unfold fetched.
      pose proof (fetchWithRetry_unfold world (after Run0 0 (startEvents cfg)))
        as E. cbv zeta in E. rewrite E. cbn [calls after Run0 Nat.add].
      unfold failed. rewrite Ha. reflexivity. }
    unfold problems. rewrite E. cbn [fst snd].
    unfold after. cbn [calls trace Run0 Nat.add app selectProblemStations fold_left].
    now rewrite <- app_assoc.
Qed.

End EmptyReply.

(** ** Decoding stations *)

Lemma setField_getField (target st : AQIData) :
  fold_left (fun acc f => setField f (getField f target) acc) allFields st
  = target.
Proof. destruct target, st. reflexivity. Qed.

Lemma decodeStation_doc keyOf target st :
  (forall f, fieldOfKey (keyOf f) = Some f) ->
  decodeStation (stationDoc keyOf target) st = (target, false).
Proof.
  intros Hk. unfold decodeStation, stationDoc.
  assert (G : forall fs acc,
    fold_left decodeMember
      (map (fun f => (keyOf f, json.String (getField f target))) fs)
      (acc, false)
    = (fold_left (fun acc f => setField f (getField f target) acc) fs acc,
       false)).
  { induction fs as [|f fs IH]; intros acc; [reflexivity|].
    cbn [map fold_left]. unfold decodeMember at 2. cbn [fst snd].
    rewrite Hk. apply IH. }
  rewrite G. now rewrite setField_getField.
Qed.

Lemma decodeElems_docs keyOf targets backing :
  (forall f, fieldOfKey (keyOf f) = Some f) ->
  decodeElems (map (stationDoc keyOf) targets) backing = (targets, false).
Proof.
  intros Hk. revert backing.
  induction targets as [|t ts IH]; intros backing; [reflexivity|].
  cbn [map decodeElems]. rewrite decodeStation_doc by assumption.
  now rewrite IH.
Qed.

Lemma fieldOfKey_names f :
  fieldOfKey (fieldName f) = Some f /\ fieldOfKey (lowerName f) = Some f.
Proof. destruct f; split; vm_compute; reflexivity. Qed.

(** X12.  An array of objects that give each of the fourteen fields as
    a string, under its tag name or under a key that differs from it only
    by case, decodes to exactly the stations written, in their order,
    whatever the slice held before; so does an object that holds such an
    array under a wrapper key and nothing else. *)
Theorem decode_written_stations keyOf (sts : list AQIData) arr order raw :
  (forall f, fieldOfKey (keyOf f) = Some f) ->
  fst (unmarshalStations (json.Array (map (stationDoc keyOf) sts)) arr)
  = {| elems := sts;
       spare := if (length sts =? 0)%nat then []
                else drop (length sts) (elems arr ++ spare arr) |}
  /\ snd (unmarshalStations (json.Array (map (stationDoc keyOf) sts)) arr)
     = false
  /\ (json.parse raw = json.Ok (json.Array (map (stationDoc keyOf) sts)) ->
      decodeResponse order raw = (sts, None))
  /\ (forall k, In k wrapperKeys ->
      json.parse raw
      = json.Ok (json.Object [(k, json.Array (map (stationDoc keyOf) sts))]) ->
      decodeResponse order raw = (sts, None)).
Proof.
  intros Hk.
  assert (Hu : forall a,
    unmarshalStations (json.Array (map (stationDoc keyOf) sts)) a
    = ({| elems := sts;
          spare := if (length sts =? 0)%nat then []
                   else drop (length sts) (elems a ++ spare a) |}, false)).
  { intros a. destruct sts as [|t ts]; [reflexivity|].
    unfold unmarshalStations. cbn [map].
    change (stationDoc keyOf t :: map (stationDoc keyOf) ts)
      with (map (stationDoc keyOf) (t :: ts)).
    rewrite decodeElems_docs by assumption.
    now rewrite length_map. }
  split; [now rewrite Hu|]. split; [now rewrite Hu|]. split.
  - intros Hp. unfold decodeResponse, Unmarshal_stations, Unmarshal_raw.
    rewrite Hp, Hu. reflexivity.
  - intros k Hin Hp.
    unfold decodeResponse, Unmarshal_stations, Unmarshal_object, Unmarshal_raw.
    rewrite Hp. cbn [unmarshalStations fold_left fst snd].
    assert (G : forall keys a, In k keys ->
              tryKeys (<[k := json.Array (map (stationDoc keyOf) sts)]> ∅) keys a
              = inl sts).
    { induction keys as [|k' keys IH]; intros a Hin'; [destruct Hin'|].
      cbn [tryKeys]. destruct (decide (k' = k)) as [->|Hne].
      - rewrite lookup_insert_eq. unfold Unmarshal_raw. rewrite Hu. reflexivity.
      - rewrite lookup_insert_ne by congruence. rewrite lookup_empty.
        apply IH. destruct Hin' as [E|H]; [congruence|exact H]. }
    now rewrite G.
Qed.

(** ** Readings that are numbers *)

Lemma TrimSpace_stop_keep (t : bytes) c :
  code c < RuneSelf -> strings.asciiSpace (code c) = false ->
  strings.TrimSpace_stop (c :: t) = rev (c :: t).
Proof.
  intros Hc Hs. cbn [strings.TrimSpace_stop].
  destruct (Z.leb_spec RuneSelf (code c)); [lia|]. now rewrite Hs.
Qed.

(** A string that starts and ends with an ASCII byte other than white
    space is left as it is by [TrimSpace]. *)
Lemma TrimSpace_keep (s : bytes) c d :
  s <> [] ->
  code (hd c s) < RuneSelf -> strings.asciiSpace (code (hd c s)) = false ->
  code (List.last s d) < RuneSelf ->
  strings.asciiSpace (code (List.last s d)) = false ->
  strings.TrimSpace s = s.
Proof.
  intros Hs H1 H2 H3 H4.
  destruct s as [|x s]; [congruence|]. cbn [hd] in H1, H2.
  cbn [strings.TrimSpace].
  destruct (Z.leb_spec RuneSelf (code x)); [lia|]. rewrite H2.
  destruct (rev (x :: s)) as [|y t] eqn:Er.
  { apply (f_equal (@length _)) in Er. rewrite length_rev in Er.
    discriminate Er. }
  assert (Hy : y = List.last (x :: s) d).
  { rewrite <- (rev_involutive (x :: s)), Er. cbn [rev].
    now rewrite last_last. }
  rewrite TrimSpace_stop_keep; [|rewrite Hy; assumption..].
  rewrite <- Er. apply rev_involutive.
Qed.

Section Decimals.

Variable unicode_ToLower : Z -> Z.

Lemma decimal_byte c :
  (0x30 <= code c <= 0x39) \/ code c = 0x2E ->
  code c < RuneSelf /\ strings.asciiSpace (code c) = false
  /\ (0x41 <=? code c) && (code c <=? 0x5A) = false
  /\ code c <> 0x94 /\ code c <> 0xB1.
Proof.
  intros H. unfold RuneSelf, strings.asciiSpace.
  repeat split; try lia;
    repeat match goal with
    | |- context [?a =? ?b] => destruct (Z.eqb_spec a b); try lia
    | |- context [?a <=? ?b] => destruct (Z.leb_spec a b); try lia
    end; reflexivity.
Qed.

Lemma isDecimal_present (s : bytes) :
  isDecimal s -> isMissingValue unicode_ToLower s = false.
Proof.
  intros [Hne Hall]. rewrite List.Forall_forall in Hall.
  assert (Hb : forall c, In c s -> _) by (intros c Hc; exact (decimal_byte c (Hall c Hc))).
  destruct s as [|c0 rest]; [congruence|].
  assert (Hlast : In (List.last (c0 :: rest) c0) (c0 :: rest)).
  { destruct (exists_last Hne) as [l [x E]]. rewrite E, last_last.
    apply in_or_app. right. now left. }
  assert (Ht : strings.TrimSpace (c0 :: rest) = c0 :: rest).
  { apply (TrimSpace_keep (c0 :: rest) c0 c0); try discriminate;
      cbn [hd]; try apply (Hb c0 (or_introl eq_refl)); apply (Hb _ Hlast). }
  unfold isMissingValue. rewrite Ht. cbn [eqb_bytes].
  assert (Hl : strings.ToLower unicode_ToLower (c0 :: rest) = c0 :: rest).
  { unfold strings.ToLower.
    assert (H1 : forallb (fun c => code c <? RuneSelf) (c0 :: rest) = true).
    { apply forallb_forall. intros c Hc. apply Z.ltb_lt, (Hb c Hc). }
    assert (H2 : existsb (fun c => (0x41 <=? code c) && (code c <=? 0x5A))
                   (c0 :: rest) = false).
    { destruct (existsb _ _) eqn:E; [|reflexivity].
      apply existsb_exists in E as [c [Hc E]].
      destruct (Hb c Hc) as [_ [_ [H _]]]. congruence. }
    now rewrite H1, H2. }
  rewrite Hl.
  assert (Htok : forall tok, In tok missingTokens ->
            eqb_bytes (c0 :: rest) tok = false).
  { intros tok Htok. destruct (eqb_bytes (c0 :: rest) tok) eqn:E; [|reflexivity].
    apply eqb_bytes_spec in E. exfalso.
    assert (D : ((0x30 <=? code c0) && (code c0 <=? 0x39))
                || (code c0 =? 0x2E) = true).
    { destruct (Hall c0 (or_introl eq_refl)) as [[A B]|A].
      - apply Z.leb_le in A, B. now rewrite A, B.
      - apply Z.eqb_eq in A. rewrite A. apply orb_true_r. }
    apply (f_equal (hd c0)) in E. cbn [hd] in E. rewrite E in D.
    unfold missingTokens in Htok. cbn [In] in Htok.
    decompose [or] Htok; try contradiction; subst tok;
      vm_compute in D; discriminate D. }
  rewrite !Htok by (unfold missingTokens; cbn [In]; tauto). cbn [orb].
  assert (Hn : forall n x, (code x = 0x94 \/ code x = 0xB1) ->
            strings.Contains (c0 :: rest) (n ++ [x]) = false).
  { intros n x Hx. apply Contains_short. intros Hin.
    destruct (Hb x Hin) as [_ [_ [_ [A B]]]]. lia. }
  change (str "—") with (take 2 (str "—") ++ [byte_of 0x94]).
  change (str "缺失") with (take 5 (str "缺失") ++ [byte_of 0xB1]).
  rewrite !Hn by (vm_compute; auto). reflexivity.
Qed.

(** X13.  A reading written with digits and periods only is never
    classified missing, with any case table; so a station whose AQI and
    six pollutant readings are such numbers misses nothing, has no factor
    to name and is never selected. *)
Theorem decimal_readings_present (st : AQIData) :
  (forall s, isDecimal s -> isMissingValue unicode_ToLower s = false)
  /\ (Forall isDecimal (AQI st :: pollutantFields st) ->
      hasMissingData unicode_ToLower st = false
      /\ getMissingFactors unicode_ToLower st = []
      /\ forall data, st ∉ selectProblemStations unicode_ToLower data).
Proof.
  split; [exact isDecimal_present|]. intros H.
  unfold pollutantFields in H.
  repeat match goal with
  | H : Forall _ (_ :: _) |- _ => apply Forall_cons in H as [? H]
  end.
  assert (Hm : hasMissingData unicode_ToLower st = false).
  { unfold hasMissingData. now rewrite !isDecimal_present. }
  split; [exact Hm|]. split.
  - unfold getMissingFactors. now rewrite !isDecimal_present.
  - intros data Hin. rewrite selectProblemStations_filter in Hin.
    apply list_elem_of_filter in Hin as [[_ Hh] _]. congruence.
Qed.

End Decimals.

(** ** The properties above at concrete runs *)

Lemma main_fetch_failure_witness :
  failed deadWorld 0 = true /\ failed deadWorld 1 = true
  /\ failed deadWorld 2 = true
  /\ exists e,
       snd (attempt deadWorld 2) = Some e
       /\ snd (main (fun r => r) time.UTC deadWorld noChannel Run0)
          = {| calls := 3;
               trace := startEvents noChannel
                        ++ [EvDo fetchRequest; EvSleep (500 * Millisecond);
                            EvDo fetchRequest; EvSleep (1000 * Millisecond);
                            EvDo fetchRequest; EvSleep (2000 * Millisecond);
                            EvFatal e] |}
       /\ List.filter isPost
            (trace (snd (main (fun r => r) time.UTC deadWorld noChannel Run0)))
          = [].
Proof.
  split; [reflexivity|]. split; [reflexivity|]. split; [reflexivity|].
  exact (main_fetch_failure (fun r => r) time.UTC deadWorld noChannel
           eq_refl eq_refl eq_refl).
Defined.

Lemma main_all_normal_witness :
  snd (fst (fetched ignoredWorld bothChannels)) = None
  /\ (forall st, In st (fst (fst (fetched ignoredWorld bothChannels))) ->
        PositionName st ∈ ignorePositionNames
        \/ hasMissingData (fun r => r) st = false)
  /\ List.filter isPost
       (trace (snd (main (fun r => r) time.UTC ignoredWorld bothChannels Run0)))
     = [].
Proof.
  assert (H1 : snd (fst (fetched ignoredWorld bothChannels)) = None)
    by (vm_compute; reflexivity).
  assert (H2 : forall st, In st (fst (fst (fetched ignoredWorld bothChannels))) ->
             PositionName st ∈ ignorePositionNames
             \/ hasMissingData (fun r => r) st = false).
  { intros st Hin.
    assert (E : map PositionName (fst (fst (fetched ignoredWorld bothChannels)))
                = [str "帽峰山森林公园"]) by (vm_compute; reflexivity).
    left. apply (in_map PositionName) in Hin. rewrite E in Hin.
    destruct Hin as [<-|[]]. now apply elem_of_singleton. }
  split; [exact H1|]. split; [exact H2|].
  exact (proj1 (proj2 (main_all_normal (fun r => r) time.UTC ignoredWorld
                         bothChannels H1 H2))).
Defined.

Lemma main_request_budget_witness :
  length (List.filter isPost
            (trace (snd (main (fun r => r) time.UTC wechatDownWorld
                           bothChannels Run0))))
  = channels bothChannels.
Proof.
  exact (proj2 (proj2 (proj2 (proj2 (proj2
           (main_request_budget (fun r => r) time.UTC wechatDownWorld
              bothChannels)))))
           eq_refl ltac:(vm_compute; discriminate) eq_refl eq_refl).
Defined.

Lemma main_channels_independent_witness :
  let ps := problems (fun r => r) wechatDownWorld bothChannels in
  snd (fst (fetched wechatDownWorld bothChannels)) = None
  /\ ps <> []
  /\ url.Parse_ok (wechatURL (WechatWebhookKey bothChannels)) = true
  /\ url.Parse_ok (dingTalkURL (DingTalkAccessToken bothChannels)) = true
  /\ fst (sendAlertToWechatWork (fun r => r) time.UTC wechatDownWorld ps
            (str "key") (snd (fetched wechatDownWorld bothChannels)))
     = Returned (Some (ErrWebhookStatus (str "wechat") 500 (str "busy")))
  /\ List.filter isPost
       (trace (snd (main (fun r => r) time.UTC wechatDownWorld bothChannels
                      Run0)))
     = [EvDo (wechatRequest (fun r => r) time.UTC ps (str "key"));
        EvDo (dingTalkRequest (fun r => r) time.UTC ps (str "token"))].
Proof.
  intros ps.
  assert (H1 : snd (fst (fetched wechatDownWorld bothChannels)) = None)
    by (vm_compute; reflexivity).
  assert (H2 : problems (fun r => r) wechatDownWorld bothChannels <> [])
    by (vm_compute; discriminate).
  assert (U1 : url.Parse_ok (wechatURL (WechatWebhookKey bothChannels)) = true)
    by reflexivity.
  assert (U2 : url.Parse_ok (dingTalkURL (DingTalkAccessToken bothChannels))
               = true) by reflexivity.
  split; [exact H1|]. split; [exact H2|]. split; [exact U1|].
  split; [exact U2|]. split; [vm_compute; reflexivity|].
  exact (main_channels_independent (fun r => r) time.UTC wechatDownWorld
           bothChannels H1 H2 U1 U2).
Defined.

Lemma main_prints_count_witness :
  snd (fst (fetched wechatDownWorld bothChannels)) = None
  /\ problems (fun r => r) wechatDownWorld bothChannels <> []
  /\ url.Parse_ok (wechatURL (WechatWebhookKey bothChannels)) = true
  /\ url.Parse_ok (dingTalkURL (DingTalkAccessToken bothChannels)) = true
  /\ last (trace (snd (main (fun r => r) time.UTC wechatDownWorld
                         bothChannels Run0)))
     = Some (EvCount 1).
Proof.
  assert (H1 : snd (fst (fetched wechatDownWorld bothChannels)) = None)
    by (vm_compute; reflexivity).
  assert (H2 : problems (fun r => r) wechatDownWorld bothChannels <> [])
    by (vm_compute; discriminate).
  assert (U1 : url.Parse_ok (wechatURL (WechatWebhookKey bothChannels)) = true)
    by reflexivity.
  assert (U2 : url.Parse_ok (dingTalkURL (DingTalkAccessToken bothChannels))
               = true) by reflexivity.
  split; [exact H1|]. split; [exact H2|]. split; [exact U1|].
  split; [exact U2|].
  rewrite (proj1 (main_prints_count (fun r => r) time.UTC wechatDownWorld
                    bothChannels H1 H2 U1 U2)).
  vm_compute. reflexivity.
Defined.

Lemma main_bad_credential_panics_witness :
  snd (fst (fetched wechatDownWorld brokenToken)) = None
  /\ problems (fun r => r) wechatDownWorld brokenToken <> []
  /\ url.Parse_ok (dingTalkURL (DingTalkAccessToken brokenToken)) = false
  /\ exists err,
       snd (main (fun r => r) time.UTC wechatDownWorld brokenToken Run0)
       = after (snd (fetched wechatDownWorld brokenToken)) 1
           [EvDo (wechatRequest (fun r => r) time.UTC
                    (problems (fun r => r) wechatDownWorld brokenToken)
                    (str "key"));
            reportEvent (str "Failed to send alert to WeChat Work")
              (str "已成功发送警报到企业微信") err;
            EvPanic].
Proof.
  assert (H1 : snd (fst (fetched wechatDownWorld brokenToken)) = None)
    by (vm_compute; reflexivity).
  assert (H2 : problems (fun r => r) wechatDownWorld brokenToken <> [])
    by (vm_compute; discriminate).
  assert (U2 : url.Parse_ok (dingTalkURL (DingTalkAccessToken brokenToken))
               = false) by reflexivity.
  split; [exact H1|]. split; [exact H2|]. split; [exact U2|].
  destruct (proj2 (proj2 (main_bad_credential_panics (fun r => r) time.UTC
                            wechatDownWorld brokenToken H1 H2))
              ltac:(discriminate) eq_refl U2) as [err [_ E]].
  exists err. exact E.
Defined.

Lemma main_empty_reply_witness :
  http_do nullWorld 0 fetchRequest
  = Response 200 (q "{'Success':true,'Data':null}") None
  /\ emptyPayload (q "{'Success':true,'Data':null}")
  /\ snd (main (fun r => r) time.UTC nullWorld bothChannels Run0)
     = {| calls := 1;
          trace := startEvents bothChannels ++ [EvDo fetchRequest; allNormal] |}.
Proof.
  assert (H1 : http_do nullWorld 0 fetchRequest
               = Response 200 (q "{'Success':true,'Data':null}") None)
    by reflexivity.
  assert (H2 : emptyPayload (q "{'Success':true,'Data':null}")).
  { eexists. split; [vm_compute; reflexivity|]. right.
    eexists _, _. split; [reflexivity|].
    split; [vm_compute; reflexivity|]. now left. }
  split; [exact H1|]. split; [exact H2|].
  exact (proj2 (main_empty_reply (fun r => r) time.UTC nullWorld bothChannels
                  _ H1 H2)).
Defined.

Lemma decode_written_stations_witness :
  (forall f, fieldOfKey (lowerName f) = Some f)
  /\ fst (unmarshalStations
            (json.Array (map (stationDoc lowerName) [stationComplete]))
            nilSlice)
     = {| elems := [stationComplete]; spare := [] |}.
Proof.
  assert (H : forall f, fieldOfKey (lowerName f) = Some f)
    by (intros f; apply fieldOfKey_names).
  split; [exact H|].
  exact (proj1 (decode_written_stations lowerName [stationComplete] nilSlice
                  orderForward [] H)).
Defined.

(** A WeChat Work key with a line feed in it: the run ends in the panic
    right after the fetch, and no webhook is called. *)
Example main_bad_key_panics :
  snd (main (fun r => r) time.UTC wechatDownWorld brokenKey Run0)
  = after (snd (fetched wechatDownWorld brokenKey)) 0 [EvPanic]
  /\ List.filter isPost
       (trace (snd (main (fun r => r) time.UTC wechatDownWorld brokenKey Run0)))
     = [].
Proof. split; vm_compute; reflexivity. Qed.
